(** * Radius: the job-listing acquisition engine

    A shallow embedding of the scraper adapters (IndeedScraper,
    PlaywrightIndeedScraper, NaukriScraper, PlaywrightNaukriScraper), of the
    job runner (scrapeJobRunner.executeJob) and of the normalisation pipeline
    (utils/jobProcessor.js), followed by the properties of the specification
    that were checked against them. The rest of utils/httpClient.js and
    utils/indeedUrlBuilder.js, executeMultipleJobs and the handler of the
    development endpoint are embedded as well, and the file ends with
    further properties of all of this code.

    JavaScript strings are sequences of UTF-16 code units; a field that holds
    [string | null] is an [option]; counters are JavaScript numbers holding
    integers and are kept in [Z]. Promises are run to completion: an [async]
    function is a function that returns its value or the error it rejects
    with, together with the state it leaves behind. *)

From Stdlib Require Import List ZArith NArith Bool String Ascii Lia.
Import ListNotations.

(* ================================================================== *)
(** ** JavaScript values and strings *)
(* ================================================================== *)

Module Js.

(** A JavaScript string: its UTF-16 code units. *)
Definition jsstring := list N.

(** A source-code literal (ASCII) as a JavaScript string. *)
Definition lit (s : string) : jsstring :=
  map N_of_ascii (list_ascii_of_string s).

Fixpoint str_eqb (a b : jsstring) : bool :=
  match a, b with
  | [], [] => true
  | x :: a', y :: b' => N.eqb x y && str_eqb a' b'
  | _, _ => false
  end.

(** [WhiteSpace] and [LineTerminator] of ECMAScript: what [\s] matches and
    what [String.prototype.trim] strips. *)
Definition isLineTerminator (c : N) : bool :=
  (N.eqb c 10 || N.eqb c 13 || N.eqb c 8232 || N.eqb c 8233)%bool.

Definition isSpace (c : N) : bool :=
  (N.eqb c 9 || N.eqb c 11 || N.eqb c 12 || N.eqb c 32 || N.eqb c 160
   || N.eqb c 5760 || (N.leb 8192 c && N.leb c 8202) || N.eqb c 8239
   || N.eqb c 8287 || N.eqb c 12288 || N.eqb c 65279
   || isLineTerminator c)%bool.

Fixpoint trimStart (s : jsstring) : jsstring :=
  match s with
  | [] => []
  | c :: rest => if isSpace c then trimStart rest else s
  end.

(** What is left once the trailing white space is dropped: a character
    stays when something stays after it, or when it is not white space. *)
Fixpoint trimEnd (s : jsstring) : jsstring :=
  match s with
  | [] => []
  | c :: rest =>
      match trimEnd rest with
      | [] => if isSpace c then [] else [c]
      | kept => c :: kept
      end
  end.

(** [s.trim()] *)
Definition trim (s : jsstring) : jsstring := trimEnd (trimStart s).

(** [s.replace(/X+/g, by)] for a character class [X]: every maximal run of
    characters of the class becomes one [by]. [inRun] says that the previous
    character belonged to the run being replaced. *)
Fixpoint replaceRunsFrom (cls : N -> bool) (by_ : N) (inRun : bool)
    (s : jsstring) : jsstring :=
  match s with
  | [] => []
  | c :: rest =>
      if cls c then
        if inRun then replaceRunsFrom cls by_ true rest
        else by_ :: replaceRunsFrom cls by_ true rest
      else c :: replaceRunsFrom cls by_ false rest
  end.

Definition replaceRuns (cls : N -> bool) (by_ : N) (s : jsstring) : jsstring :=
  replaceRunsFrom cls by_ false s.

(** [s.startsWith(p)] *)
Fixpoint startsWith (p s : jsstring) : bool :=
  match p, s with
  | [], _ => true
  | x :: p', y :: s' => N.eqb x y && startsWith p' s'
  | _ :: _, [] => false
  end.

(** [s.replace(/p/g, by)] for a literal, non-empty pattern [p]: the
    occurrences of [p], found left to right without overlap. [skip] counts
    the characters of a match still to be dropped. *)
Fixpoint replaceAllFrom (p by_ : jsstring) (skip : nat) (s : jsstring)
    : jsstring :=
  match s with
  | [] => []
  | c :: rest =>
      match skip with
      | S k => replaceAllFrom p by_ k rest
      | O =>
          if startsWith p s
          then by_ ++ replaceAllFrom p by_ (pred (List.length p)) rest
          else c :: replaceAllFrom p by_ 0 rest
      end
  end.

Definition replaceAll (p by_ s : jsstring) : jsstring :=
  replaceAllFrom p by_ 0 s.

(** [string | null] fields. [undefined] is read as [null]: the code only
    tests such fields for truthiness or passes them on. *)
Definition field := option jsstring.

(** Truthiness of a [string | null]: [null] and [""] are falsy. *)
Definition truthy (v : field) : bool :=
  match v with
  | Some (_ :: _) => true
  | _ => false
  end.

(** [v || null] *)
Definition orNull (s : jsstring) : field :=
  match s with
  | [] => None
  | _ => Some s
  end.

(** [a || b] on [string | null]. *)
Definition orElse (a b : field) : field := if truthy a then a else b.

(** [`${v}`] for a [string | null]. *)
Definition template (v : field) : jsstring :=
  match v with
  | Some s => s
  | None => lit "null"
  end.

Definition field_eqb (a b : field) : bool :=
  match a, b with
  | None, None => true
  | Some x, Some y => str_eqb x y
  | _, _ => false
  end.

(** The values a caller may put in a parameter object: [undefined], [null],
    booleans, numbers and strings. A finite number is given by the decimal
    that [Number::toString] prints for it, the shortest one that reads back
    as the same number: [VNum z] is the integer [z], and [VDec m e] is
    [m / 10^e], a number written with [e] decimals ([VDec 205 1] is [20.5],
    [VDec 5 7] is [5e-7]). [VNaN] and the two infinities are numbers too. *)
Inductive value : Type :=
| VUndefined
| VNull
| VBool (b : bool)
| VNum (z : Z)
| VStr (s : jsstring)
| VDec (m : Z) (e : positive)
| VNaN
| VInfinity (negative : bool).

Definition valueTruthy (v : value) : bool :=
  match v with
  | VUndefined | VNull => false
  | VBool b => b
  | VNum z => negb (Z.eqb z 0)
  | VStr s => match s with [] => false | _ => true end
  | VDec m _ => negb (Z.eqb m 0)
  | VNaN => false
  | VInfinity _ => true
  end.

Definition isString (v : value) : bool :=
  match v with VStr _ => true | _ => false end.

(** [typeof v === 'number'] *)
Definition isNumber (v : value) : bool :=
  match v with
  | VNum _ | VDec _ _ | VNaN | VInfinity _ => true
  | _ => false
  end.

(** [v < c] for a number [v] and an integer [c]; a comparison with [NaN]
    is false. *)
Definition numberBelow (v : value) (c : Z) : bool :=
  match v with
  | VNum z => (z <? c)%Z
  | VDec m e => (m <? c * 10 ^ Z.pos e)%Z
  | VInfinity negative => negative
  | _ => false
  end.

Definition isUndefined (v : value) : bool :=
  match v with VUndefined => true | _ => false end.

(** The value of a digit of [parseInt] in the given radix. *)
Definition digitValue (radix : Z) (c : N) : option Z :=
  let d :=
    if (N.leb 48 c && N.leb c 57)%bool then Some (Z.of_N c - 48)%Z
    else if (N.leb 97 c && N.leb c 122)%bool then Some (Z.of_N c - 87)%Z
    else if (N.leb 65 c && N.leb c 90)%bool then Some (Z.of_N c - 55)%Z
    else None in
  match d with
  | Some n => if (n <? radix)%Z then Some n else None
  | None => None
  end.

(** The longest prefix of digits, folded into its value; [None] when the
    prefix is empty. *)
Fixpoint readDigits (radix : Z) (acc : option Z) (s : jsstring) : option Z :=
  match s with
  | [] => acc
  | c :: rest =>
      match digitValue radix c with
      | Some d =>
          readDigits radix
            (Some (match acc with Some a => a * radix + d | None => d end)%Z)
            rest
      | None => acc
      end
  end.

(** [parseInt(s)] with no radix argument, on a string: leading white space,
    an optional sign, an optional [0x] prefix, then the digits. [None] is
    [NaN]. *)
Definition parseIntString (s : jsstring) : option Z :=
  let s1 := trimStart s in
  let '(negative, s2) :=
    match s1 with
    | 45%N :: r => (true, r)
    | 43%N :: r => (false, r)
    | _ => (false, s1)
    end in
  let '(radix, s3) :=
    match s2 with
    | 48%N :: x :: r =>
        if (N.eqb x 120 || N.eqb x 88)%bool then (16%Z, r) else (10%Z, s2)
    | _ => (10%Z, s2)
    end in
  match readDigits radix None s3 with
  | Some n => Some (if negative then (- n)%Z else n)
  | None => None
  end.

(** The first digit of the decimal expansion of a positive integer. *)
Fixpoint leadingDigitFrom (fuel : nat) (a : Z) : Z :=
  match fuel with
  | O => a
  | S f => if (a <? 10)%Z then a else leadingDigitFrom f (a / 10)%Z
  end.

Definition leadingDigit (a : Z) : Z :=
  leadingDigitFrom (S (Z.to_nat (Z.log2 a))) a.

(** [parseInt(v)]: the argument is first converted to a string, and the
    integer at the front of that string is read. [Number::toString] prints
    a number from 1e-6 up to, but not including, 1e21 in plain decimal
    digits, of which [parseInt] reads those before the point: the number
    truncated towards zero. It prints every other finite number but 0 in
    exponent form, as in [1.5e+21] or [5e-7], of which [parseInt] reads
    the first digit with the sign. [NaN], [Infinity], [undefined], [null],
    [true] and [false] print as words, which give [NaN]. *)
Definition parseInt (v : value) : option Z :=
  match v with
  | VStr s => parseIntString s
  | VNum z =>
      if (Z.abs z <? 10 ^ 21)%Z then Some z
      else Some (Z.sgn z * leadingDigit (Z.abs z))%Z
  | VDec m e =>
      let a := Z.abs m in
      let unit := (10 ^ Z.pos e)%Z in
      if (a =? 0)%Z then Some 0%Z
      else if ((a * 10 ^ 6 <? unit) || (10 ^ 21 * unit <=? a))%Z%bool
      then Some (Z.sgn m * leadingDigit a)%Z
      else Some (Z.quot m unit)
  | VNaN | VInfinity _ | VUndefined | VNull | VBool _ => None
  end.

End Js.

(* ================================================================== *)
(** ** utils/jobProcessor.js *)
(* ================================================================== *)

Module JobProcessor.
Import Js.

(** Values of the fields that [cleanJob] copies unchanged. *)
Inductive extraValue : Type :=
| XNull
| XStr (s : jsstring)
| XNum (z : Z)
| XList (l : list jsstring).

(** A job object: the seven fields the pipeline cleans, and the remaining
    own keys in insertion order. *)
Record Job : Type := mkJob {
  jobId : field;
  title : field;
  company : field;
  location : field;
  jobUrl : field;
  salary : field;
  snippet : field;
  extra : list (string * extraValue)
}.

(** [normalizeString(value)] *)
Definition normalizeString (value : field) : field :=
  match value with
  | None => None
  | Some [] => None
  | Some s =>
      orNull
        (replaceRuns (fun c => N.eqb c 10) 32
           (replaceRuns isSpace 32 (trim s)))
  end.

(** [s.replace(/\(.*?\)/g, '')]. [pending] holds, reversed, the characters
    read since an opening parenthesis that is still waiting for its closing
    one; [.] does not cross a line terminator, and an opening parenthesis
    that never closes stays. *)
Fixpoint removeParensFrom (pending : option jsstring) (s : jsstring)
    : jsstring :=
  match s with
  | [] => match pending with None => [] | Some buf => rev buf end
  | c :: rest =>
      match pending with
      | None =>
          if N.eqb c 40 then removeParensFrom (Some [c]) rest
          else c :: removeParensFrom None rest
      | Some buf =>
          if N.eqb c 41 then removeParensFrom None rest
          else if isLineTerminator c
          then rev buf ++ c :: removeParensFrom None rest
          else removeParensFrom (Some (c :: buf)) rest
      end
  end.

Definition removeParens (s : jsstring) : jsstring := removeParensFrom None s.

(** [normalizeCompanyName(company)] *)
Definition normalizeCompanyName (company : field) : field :=
  if negb (truthy company) then None
  else
    match normalizeString company with
    | None => None
    | Some s => orNull (trim (removeParens s))
    end.

(** [s.replace(/^in\s+/i, '')] *)
Definition stripInPrefix (s : jsstring) : jsstring :=
  match s with
  | i :: n :: w :: rest =>
      if ((N.eqb i 105 || N.eqb i 73) && (N.eqb n 110 || N.eqb n 78)
          && isSpace w)%bool
      then trimStart rest
      else s
  | _ => s
  end.

(** The three code units of the pattern [/â€¢/]. *)
Definition bulletPattern : jsstring := [226; 8364; 162]%N.

(** [normalizeLocation(location)] *)
Definition normalizeLocation (location : field) : field :=
  if negb (truthy location) then None
  else
    match normalizeString location with
    | None => None
    | Some s => Some (trim (replaceAll bulletPattern (lit ",") (stripInPrefix s)))
    end.

Section WithUrl.

(** [new URL(url, baseUrl).toString()] of the platform: [None] when the
    constructor throws. *)
Variable resolveUrl : jsstring -> jsstring -> option jsstring.

(** [absoluteUrl(url, baseUrl)] *)
Definition absoluteUrl (url : field) (baseUrl : jsstring) : field :=
  match url with
  | None => None
  | Some [] => None
  | Some u =>
      if (startsWith (lit "http://") u || startsWith (lit "https://") u)%bool
      then Some u
      else resolveUrl u baseUrl
  end.

(** The keys [cleanJob] does not copy from the raw object. *)
Definition cleanedKeys : list string :=
  ["jobId"; "title"; "company"; "location"; "jobUrl"; "salary"; "snippet";
   "rawHtml"]%string.

Definition includes (keys : list string) (k : string) : bool :=
  existsb (String.eqb k) keys.

(** [cleanJob(job, { baseUrl })] *)
Definition cleanJob (baseUrl : jsstring) (job : Job) : Job :=
  {| jobId := normalizeString (jobId job);
     title := normalizeString (title job);
     company := normalizeCompanyName (company job);
     location := normalizeLocation (location job);
     jobUrl := absoluteUrl (jobUrl job) baseUrl;
     salary := normalizeString (salary job);
     snippet := normalizeString (snippet job);
     extra := filter (fun kv => negb (includes cleanedKeys (fst kv)))
                (extra job) |}.

(** [cleanJobs(jobs, { baseUrl })] *)
Definition cleanJobs (baseUrl : jsstring) (jobs : list Job) : list Job :=
  map (cleanJob baseUrl) jobs.

End WithUrl.

(** The key [removeDuplicates] computes for a job. *)
Definition dedupKey (dedupeBy : string) (job : Job) : field :=
  if String.eqb dedupeBy "jobId" then jobId job
  else if String.eqb dedupeBy "jobUrl" then jobUrl job
  else if String.eqb dedupeBy "both"
  then Some (template (jobId job) ++ lit "|" ++ template (jobUrl job))
  else orElse (jobId job) (jobUrl job).

(** [seen.has(key)]; the [Set] is kept in insertion order. *)
Definition has (seen : list field) (key : field) : bool :=
  existsb (field_eqb key) seen.

(** One turn of the loop of [removeDuplicates] on [(seen, unique)]. *)
Definition dedupStep (dedupeBy : string) (st : list field * list Job)
    (job : Job) : list field * list Job :=
  let key := dedupKey dedupeBy job in
  if (negb (truthy key) || has (fst st) key)%bool then st
  else (fst st ++ [key], snd st ++ [job]).

(** [removeDuplicates(jobs, dedupeBy)] *)
Definition removeDuplicates (jobs : list Job) (dedupeBy : string) : list Job :=
  snd (fold_left (dedupStep dedupeBy) jobs ([], [])).

(** The test of [filterValidJobs]. *)
Definition isValidJob (job : Job) : bool :=
  if (negb (truthy (title job)) && negb (truthy (company job)))%bool then false
  else if (negb (truthy (jobUrl job)) && negb (truthy (jobId job)))%bool
  then false
  else true.

(** [filterValidJobs(jobs)] *)
Definition filterValidJobs (jobs : list Job) : list Job :=
  filter isValidJob jobs.

Record Options : Type := mkOptions {
  baseUrl : jsstring;
  dedupeBy : string;
  removeInvalid : bool
}.

(** The defaults of [processJobs(jobs, options = {})]. *)
Definition defaultOptions : Options :=
  {| baseUrl := lit "https://www.indeed.com";
     dedupeBy := "jobId";
     removeInvalid := true |}.

Record ProcessStats : Type := mkProcessStats {
  original : Z;
  duplicates : Z;
  invalid : Z;
  final : Z
}.

Record ProcessResult : Type := mkProcessResult {
  jobs : list Job;
  stats : ProcessStats
}.

(** [jobs.length] *)
Definition len (jobs : list Job) : Z := Z.of_nat (List.length jobs).

(** [processJobs(jobs, options)] *)
Definition processJobs (resolveUrl : jsstring -> jsstring -> option jsstring)
    (jobs : list Job) (options : Options) : ProcessResult :=
  let originalCount := len jobs in
  let processed := cleanJobs resolveUrl (baseUrl options) jobs in
  let beforeDedup := len processed in
  let processed := removeDuplicates processed (dedupeBy options) in
  let duplicatesRemoved := (beforeDedup - len processed)%Z in
  let '(processed, invalidCount) :=
    if removeInvalid options then
      let beforeFilter := len processed in
      let filtered := filterValidJobs processed in
      (filtered, (beforeFilter - len filtered)%Z)
    else (processed, 0%Z) in
  {| jobs := processed;
     stats := {| original := originalCount;
                 duplicates := duplicatesRemoved;
                 invalid := invalidCount;
                 final := len processed |} |}.

End JobProcessor.

(* ================================================================== *)
(** ** The documents the extractors read *)
(* ================================================================== *)

Module Dom.
Import Js.

(** An element, as far as the extractors look at it. *)
Record Element : Type := mkElement {
  textContent : jsstring;
  getAttribute : string -> field
}.

(** A job card: a matched element together with its answers to the
    selector queries made below it. CSS selectors are written with single
    quotes around attribute values. *)
Record Card : Type := mkCard {
  self : Element;
  querySelector : string -> option Element;
  querySelectorAll : string -> list Element;
  innerHtml : jsstring
}.

(** A parsed page: [$(selector)] of cheerio, [document.querySelectorAll]
    of the browser, and [window.location.origin]. *)
Record Document : Type := mkDocument {
  select : string -> list Card;
  origin : jsstring
}.

(** [$card.attr(name)] *)
Definition attr (card : Card) (name : string) : field :=
  getAttribute (self card) name.

(** [$card.find(selector).first().text()]: empty when nothing matches. *)
Definition firstText (card : Card) (selector : string) : jsstring :=
  match querySelector card selector with
  | Some e => textContent e
  | None => []
  end.

(** [$card.find(selector).first().text().trim() || null] *)
Definition textOrNull (card : Card) (selector : string) : field :=
  orNull (trim (firstText card selector)).

(** [el ? el.textContent.trim() : null] for [el = card.querySelector(selector)] *)
Definition trimmedText (card : Card) (selector : string) : field :=
  match querySelector card selector with
  | Some e => Some (trim (textContent e))
  | None => None
  end.

(** The loop that tries the card selectors in order and stops at the first
    one with a match; [current] is the last selection made. *)
Fixpoint firstMatching (doc : Document) (selectors : list string)
    (current : list Card) : list Card :=
  match selectors with
  | [] => current
  | selector :: rest =>
      let found := select doc selector in
      match found with
      | _ :: _ => found
      | [] => firstMatching doc rest found
      end
  end.

(** [href.startsWith('http') ? href : prefix + href] *)
Definition absolutize (prefix href : jsstring) : jsstring :=
  if startsWith (lit "http") href then href else prefix ++ href.

End Dom.

(* ================================================================== *)
(** ** utils/indeedUrlBuilder.js and utils/httpClient.js *)
(* ================================================================== *)

Module Net.
Import Js Dom.

(** A search URL, by the arguments its builder was given. *)
Inductive Url : Type :=
| IndeedSearch (q l : jsstring) (start : Z)
| NaukriSearch (baseUrl keyword location : jsstring) (pageNo : Z).

(** The message of an [Error]. *)
Inductive Message : Type :=
| Text (text : string)
| PageNotFound (url : Url)
| AccessForbidden (url : Url)
| RateLimited (url : Url)
| ServerError (url : Url) (status : Z)
| HttpStatus (status : Z) (url : Url)
| RequestTimeout (url : Url)
| DomainNotFound (url : Url)
| ConnectionRefused (url : Url).

(** What an [async] call settles to. *)
Inductive Outcome (A : Type) : Type :=
| Returned (a : A)
| Thrown (error : Message).
Arguments Returned {A} a.
Arguments Thrown {A} error.

(** [calculateStartIndex(page)] with ten results per page. *)
Definition calculateStartIndex (page : Z) : Outcome Z :=
  if (page <? 1)%Z then Thrown (Text "page must be a positive number")
  else Returned ((page - 1) * 10)%Z.

(** [buildIndeedSearchUrl({ keyword, location, start })], no filters. *)
Definition buildIndeedSearchUrl (keyword location : jsstring) (start : Z)
    : Outcome Url :=
  match keyword, location with
  | [], _ => Thrown (Text "keyword is required and must be a string")
  | _, [] => Thrown (Text "location is required and must be a string")
  | _, _ => Returned (IndeedSearch (trim keyword) (trim location) start)
  end.

(** What [axios(config)] settles to: a response of any status
    ([validateStatus: null]), or a rejection with its [code]. *)
Inductive HttpReply : Type :=
| Response (status : Z) (data : Document)
| Rejected (code : string) (message : string).

(** One turn of the loop of [fetchHtml]: the page, or [lastError]. *)
Definition attempt (url : Url) (reply : HttpReply) : Outcome Document :=
  match reply with
  | Response status data =>
      if ((200 <=? status) && (status <? 300))%Z%bool then Returned data
      else if (status =? 404)%Z then Thrown (PageNotFound url)
      else if (status =? 403)%Z then Thrown (AccessForbidden url)
      else if (status =? 429)%Z then Thrown (RateLimited url)
      else if (500 <=? status)%Z then Thrown (ServerError url status)
      else Thrown (HttpStatus status url)
  | Rejected code message =>
      if String.eqb code "ECONNABORTED" then Thrown (RequestTimeout url)
      else if String.eqb code "ENOTFOUND" then Thrown (DomainNotFound url)
      else if String.eqb code "ECONNREFUSED" then Thrown (ConnectionRefused url)
      else Thrown (Text message)
  end.

(** The loop [while (attempt <= maxRetries)]: [replies n] answers the
    request of attempt [n]; [retries] attempts remain after this one. *)
Fixpoint fetchFrom (url : Url) (replies : nat -> HttpReply) (n retries : nat)
    : Outcome Document :=
  match attempt url (replies n) with
  | Returned data => Returned data
  | Thrown lastError =>
      match retries with
      | O => Thrown lastError
      | S k => fetchFrom url replies (S n) k
      end
  end.

(** [fetchHtml(url, { maxRetries })] *)
Definition fetchHtml (url : Url) (replies : nat -> HttpReply)
    (maxRetries : nat) : Outcome Document :=
  fetchFrom url replies 0 maxRetries.

End Net.

(* ================================================================== *)
(** ** What the four adapters share *)
(* ================================================================== *)

Module Scraper.
Import Js Dom Net JobProcessor.

(** An entry of [stats.errors] or of [result.results.errors]; the
    timestamp and the stack are left out. *)
Record ErrorRecord : Type := mkErrorRecord {
  errUrl : option Url;
  errPage : option Z;
  errMessage : Message
}.

Record Stats : Type := mkStats {
  requestsMade : Z;
  successfulRequests : Z;
  failedRequests : Z;
  leadsExtracted : Z;
  errors : list ErrorRecord
}.

(** [this.stats] as the constructors set it. *)
Definition newStats : Stats :=
  {| requestsMade := 0; successfulRequests := 0; failedRequests := 0;
     leadsExtracted := 0; errors := [] |}.

Definition requestMade (s : Stats) : Stats :=
  {| requestsMade := requestsMade s + 1;
     successfulRequests := successfulRequests s;
     failedRequests := failedRequests s;
     leadsExtracted := leadsExtracted s;
     errors := errors s |}.

Definition requestSucceeded (s : Stats) : Stats :=
  {| requestsMade := requestsMade s;
     successfulRequests := successfulRequests s + 1;
     failedRequests := failedRequests s;
     leadsExtracted := leadsExtracted s;
     errors := errors s |}.

Definition pushError (r : ErrorRecord) (s : Stats) : Stats :=
  {| requestsMade := requestsMade s;
     successfulRequests := successfulRequests s;
     failedRequests := failedRequests s;
     leadsExtracted := leadsExtracted s;
     errors := errors s ++ [r] |}.

(** [failedRequests++] and [errors.push({ url, message })] *)
Definition requestFailed (url : Url) (error : Message) (s : Stats) : Stats :=
  pushError {| errUrl := Some url; errPage := None; errMessage := error |}
    {| requestsMade := requestsMade s;
       successfulRequests := successfulRequests s;
       failedRequests := failedRequests s + 1;
       leadsExtracted := leadsExtracted s;
       errors := errors s |}.

Definition addLeads (n : Z) (s : Stats) : Stats :=
  {| requestsMade := requestsMade s;
     successfulRequests := successfulRequests s;
     failedRequests := failedRequests s;
     leadsExtracted := leadsExtracted s + n;
     errors := errors s |}.

(** The argument of [onProgress]; the percentage of IndeedScraper is a
    floating-point quotient and is left out. *)
Record ProgressEvent : Type := mkProgressEvent {
  currentPage : Z;
  totalPages : Z;
  jobsFound : Z
}.

(** The parameter object as [validateParams] may receive it. *)
Record Params : Type := mkParams {
  keyword : value;
  location : value;
  maxPages : value
}.

Record Validation : Type := mkValidation {
  isValid : bool;
  errorList : list string
}.

(** [{ isValid: errors.length === 0, errors }] *)
Definition validation (errors : list string) : Validation :=
  {| isValid := match errors with [] => true | _ => false end;
     errorList := errors |}.

(** [!v || typeof v !== 'string'] *)
Definition notAString (v : value) : bool :=
  (negb (valueTruthy v) || negb (isString v))%bool.

(** The two checks every [validateParams] starts with. *)
Definition requiredStrings (params : Params) : list string :=
  (if notAString (keyword params)
   then ["keyword is required and must be a string"%string] else [])
  ++
  (if notAString (location params)
   then ["location is required and must be a string"%string] else []).

(** The parameter object as [scrape] is given it by [executeJob]: strings
    and a number, [maxPages] possibly left [undefined]. The page count is a
    whole number here: for a count with decimals the loops of the adapters
    make as many turns as for the next whole number ([page < maxPages],
    from 0) or the one before ([currentPage <= maxPages], from 1). *)
Module Typed.
Record Params : Type := mkParams {
  keyword : jsstring;
  location : jsstring;
  maxPages : option Z;
  onProgress : bool
}.
End Typed.

Definition untyped (p : Typed.Params) : Params :=
  {| keyword := VStr (Typed.keyword p);
     location := VStr (Typed.location p);
     maxPages := match Typed.maxPages p with
                 | Some n => VNum n
                 | None => VUndefined
                 end |}.

(** What [scrape] resolves to: an array of jobs, or the object
    [{ jobs, stats }] of [processJobs]. *)
Inductive ScrapeValue : Type :=
| JobArray (jobs : list Job)
| ProcessObject (result : ProcessResult).

(** [value.length]: [undefined] on the object of [processJobs]. *)
Definition lengthOf (v : ScrapeValue) : option Z :=
  match v with
  | JobArray jobs => Some (len jobs)
  | ProcessObject _ => None
  end.

(** How a page of the loop ends. *)
Inductive Control : Type :=
| Next
| Break
| Escape (error : Message).

(** What a call of [scrape] leaves: its settlement, the adapter's
    statistics, the progress events delivered and the URLs requested, in
    order. *)
Record Finished : Type := mkFinished {
  outcome : Outcome ScrapeValue;
  statsAfter : Stats;
  progress : list ProgressEvent;
  requested : list Url
}.

(** Everything outside the process that a run consults. *)
Record World : Type := mkWorld {
  (** [axios]: the reply to attempt [n] of a request for a URL *)
  http : Url -> nat -> HttpReply;
  (** [new URL(url, base).toString()], [None] when it throws *)
  resolveUrl : jsstring -> jsstring -> option jsstring;
  (** [new Date().toISOString()] *)
  now : jsstring;
  (** [chromium.launch()], [browser.newContext()], [context.newPage()]:
      the error each rejects with, if any *)
  launch : option Message;
  newContext : option Message;
  newPage : option Message;
  (** [page.goto(url)] and the settle delay after it *)
  goto : Url -> option Message;
  (** [page.waitForSelector]: whether a card became visible in time *)
  waitForSelector : Url -> bool;
  (** [page.evaluate]: the document the extraction runs on *)
  evaluate : Url -> Outcome Document
}.

(** A browser-mode adapter: its statistics, [this.browser] and
    [this.page], and the browser processes started and closed so far. *)
Record Instance : Type := mkInstance {
  stats : Stats;
  browser : option Z;
  page : option Z;
  acquired : Z;
  released : Z
}.

(** The adapter as its constructor leaves it. *)
Definition newInstance : Instance :=
  {| stats := newStats; browser := None; page := None;
     acquired := 0; released := 0 |}.

Definition withStats (f : Stats -> Stats) (i : Instance) : Instance :=
  {| stats := f (stats i); browser := browser i; page := page i;
     acquired := acquired i; released := released i |}.

(** [initialize()] of both browser-mode adapters: [this.browser] is
    assigned as soon as the launch resolves, [this.page] only after the
    context and the page exist; an error is logged and thrown again. *)
Definition initialize (world : World) (i : Instance)
    : option Message * Instance :=
  match launch world with
  | Some error => (Some error, i)
  | None =>
      let id := (acquired i + 1)%Z in
      let launched :=
        {| stats := stats i; browser := Some id; page := page i;
           acquired := id; released := released i |} in
      match newContext world with
      | Some error => (Some error, launched)
      | None =>
          match newPage world with
          | Some error => (Some error, launched)
          | None =>
              (None,
               {| stats := stats i; browser := Some id; page := Some id;
                  acquired := id; released := released i |})
          end
      end
  end.

(** [cleanup()] of both browser-mode adapters. [page.close()] and
    [browser.close()] of Playwright resolve, also on a page or browser
    that is already gone (the library swallows the target-closed error),
    so the [try]/[catch] that PlaywrightIndeedScraper puts around the two
    calls has nothing to catch. *)
Definition cleanup (i : Instance) : Instance :=
  let i1 :=
    match page i with
    | Some _ =>
        {| stats := stats i; browser := browser i; page := None;
           acquired := acquired i; released := released i |}
    | None => i
    end in
  match browser i1 with
  | Some _ =>
      {| stats := stats i1; browser := None; page := page i1;
         acquired := acquired i1; released := (released i1 + 1)%Z |}
  | None => i1
  end.

End Scraper.

(* ================================================================== *)
(** ** scrapers/IndeedScraper.js *)
(* ================================================================== *)

Module IndeedScraper.
Import Js Dom Net JobProcessor Scraper.

Record Config : Type := mkConfig {
  baseUrl : jsstring;
  maxRetries : nat
}.

Definition jobCardSelectors : list string :=
  [".jobsearch-SerpJobCard"; ".job_seen_beacon"; ".resultContent";
   "[data-jk]"; ".cardOutline"]%string.

Definition titleSelector : string :=
  ".jobTitle, h2.jobTitle, .jcs-JobTitle, [data-testid='job-title']".
Definition companySelector : string :=
  ".companyName, [data-testid='company-name'], .company, .companyInfo .companyName".
Definition locationSelector : string :=
  ".companyLocation, [data-testid='text-location'], .location, .companyInfo .companyLocation".
Definition linkSelector : string :=
  "a.jcs-JobTitle, h2.jobTitle a, a[data-jk], a[id^='job_']".
Definition salarySelector : string :=
  ".salary-snippet, .salaryText, [data-testid='salary-snippet']".
Definition snippetSelector : string :=
  ".job-snippet, [data-testid='job-snippet'], .summary".

(** [attr('data-jk') || attr('data-job-id') || attr('id') || null] *)
Definition cardJobId (card : Card) : field :=
  orElse (attr card "data-jk")
    (orElse (attr card "data-job-id") (orElse (attr card "id") None)).

(** The link of the card, else the URL built from the job id. *)
Definition cardJobUrl (prefix : jsstring) (selector : string) (card : Card)
    (jobId : field) : field :=
  match querySelector card selector with
  | Some link =>
      let href := getAttribute link "href" in
      if truthy href then Some (absolutize prefix (template href)) else None
  | None =>
      if truthy jobId
      then Some (prefix ++ lit "/viewjob?jk=" ++ template jobId)
      else None
  end.

(** The object [parseJobListings] builds for a card. *)
Definition cardJob (cfg : Config) (card : Card) : Job :=
  let jobId := cardJobId card in
  mkJob
    (* jobId *) jobId
    (* title *) (textOrNull card titleSelector)
    (* company *) (textOrNull card companySelector)
    (* location *) (textOrNull card locationSelector)
    (* jobUrl *) (cardJobUrl (baseUrl cfg) linkSelector card jobId)
    (* salary *) (textOrNull card salarySelector)
    (* snippet *) (textOrNull card snippetSelector)
    (* rawHtml *) [("rawHtml"%string, XStr (innerHtml card))].

(** The body of [$jobCards.each]: [jobs.push] under its guard. *)
Definition eachCard (cfg : Config) (jobs : list Job) (card : Card)
    : list Job :=
  let job := cardJob cfg card in
  if (truthy (JobProcessor.title job) || truthy (JobProcessor.company job))%bool
  then jobs ++ [job]
  else jobs.

(** [parseJobListings(html)] *)
Definition parseJobListings (cfg : Config) (html : Document) : list Job :=
  let jobCards := firstMatching html jobCardSelectors [] in
  fold_left (eachCard cfg) jobCards [].

(** [validateParams(params)] *)
Definition validateParams (params : Params) : Validation :=
  validation
    (requiredStrings params
     ++
     (if (valueTruthy (maxPages params)
          && (negb (isNumber (maxPages params))
              || numberBelow (maxPages params) 1))%bool
      then ["maxPages must be a positive number"%string] else [])).

(** [buildSearchUrl({ keyword, location, page })]; [page] counts from 0. *)
Definition buildSearchUrl (keyword location : jsstring) (page : Z)
    : Outcome Url :=
  match calculateStartIndex (page + 1) with
  | Thrown error => Thrown error
  | Returned start => buildIndeedSearchUrl keyword location start
  end.

(** [fetchPage(url)] *)
Definition fetchPage (world : World) (cfg : Config) (url : Url) (s : Stats)
    : Outcome Document * Stats :=
  let s := requestMade s in
  match fetchHtml url (http world url) (maxRetries cfg) with
  | Returned html => (Returned html, requestSucceeded s)
  | Thrown error => (Thrown error, requestFailed url error s)
  end.

(** The variables of [scrape] that its loop updates. *)
Record Run : Type := mkRun {
  runStats : Stats;
  allJobs : list Job;
  consecutiveEmptyPages : Z;
  events : list ProgressEvent;
  urls : list Url
}.

(** One turn of the loop [for (page = 0; page < maxPages; page++)]. *)
Definition pageBody (world : World) (cfg : Config) (params : Typed.Params)
    (limit : Z) (page : Z) (run : Run) : Control * Run :=
  match buildSearchUrl (Typed.keyword params) (Typed.location params) page with
  | Thrown error => (Escape error, run)
  | Returned url =>
      let '(fetched, s) := fetchPage world cfg url (runStats run) in
      match fetched with
      | Returned html =>
          let jobs := parseJobListings cfg html in
          let emptyPage := match jobs with [] => true | _ => false end in
          let consecutive :=
            if emptyPage then (consecutiveEmptyPages run + 1)%Z else 0%Z in
          if (emptyPage && (2 <=? consecutive)%Z)%bool then
            (Break,
             {| runStats := s; allJobs := allJobs run;
                consecutiveEmptyPages := consecutive;
                events := events run; urls := urls run ++ [url] |})
          else
            let collected := allJobs run ++ jobs in
            (Next,
             {| runStats := s; allJobs := collected;
                consecutiveEmptyPages := consecutive;
                events :=
                  if Typed.onProgress params
                  then events run
                       ++ [{| currentPage := page + 1; totalPages := limit;
                              jobsFound := len collected |}]
                  else events run;
                urls := urls run ++ [url] |})
      | Thrown error =>
          let s := pushError {| errUrl := None; errPage := Some (page + 1)%Z;
                                errMessage := error |} s in
          let consecutive := (consecutiveEmptyPages run + 1)%Z in
          (if (3 <=? consecutive)%Z then Break else Next,
           {| runStats := s; allJobs := allJobs run;
              consecutiveEmptyPages := consecutive;
              events := events run; urls := urls run ++ [url] |})
      end
  end.

(** The loop, with [remaining] turns to go before [page < maxPages] fails. *)
Fixpoint pages (world : World) (cfg : Config) (params : Typed.Params)
    (limit : Z) (remaining : nat) (page : Z) (run : Run)
    : option Message * Run :=
  match remaining with
  | O => (None, run)
  | S k =>
      match pageBody world cfg params limit page run with
      | (Next, run') => pages world cfg params limit k (page + 1) run'
      | (Break, run') => (None, run')
      | (Escape error, run') => (Some error, run')
      end
  end.

(** [scrape(params)], on an adapter whose statistics are [s]. *)
Definition scrape (world : World) (cfg : Config) (params : Typed.Params)
    (s : Stats) : Finished :=
  let limit := match Typed.maxPages params with Some n => n | None => 5%Z end in
  let start :=
    {| runStats := s; allJobs := []; consecutiveEmptyPages := 0;
       events := []; urls := [] |} in
  match pages world cfg params limit (Z.to_nat limit) 0 start with
  | (None, run) =>
      let s := runStats run in
      let s :=
        {| requestsMade := requestsMade s;
           successfulRequests := requestsMade s - failedRequests s;
           failedRequests := failedRequests s;
           leadsExtracted := leadsExtracted s;
           errors := errors s |} in
      let result :=
        processJobs (resolveUrl world) (allJobs run)
          {| JobProcessor.baseUrl := baseUrl cfg; dedupeBy := "jobId";
             removeInvalid := true |} in
      {| outcome := Returned (JobArray (jobs result));
         statsAfter := s; progress := events run; requested := urls run |}
  | (Some error, run) =>
      {| outcome := Thrown error;
         statsAfter :=
           pushError {| errUrl := None; errPage := None;
                        errMessage := error |} (runStats run);
         progress := events run; requested := urls run |}
  end.

End IndeedScraper.

(* ================================================================== *)
(** ** scrapers/PlaywrightIndeedScraper.js *)
(* ================================================================== *)

Module PlaywrightIndeedScraper.
Import Js Dom Net JobProcessor Scraper.

Definition selectors : list string :=
  [".jobsearch-SerpJobCard"; ".job_seen_beacon"; ".resultContent";
   ".cardOutline"; "[data-jk]"]%string.

Definition titleSelector : string :=
  ".jobTitle, h2.jobTitle, .jcs-JobTitle, [data-testid='job-title']".
Definition companySelector : string :=
  ".companyName, [data-testid='company-name'], .company".
Definition locationSelector : string :=
  ".companyLocation, [data-testid='text-location'], .location".
Definition linkSelector : string :=
  "a.jcs-JobTitle, h2.jobTitle a, a[data-jk]".
Definition salarySelector : string :=
  ".salary-snippet, .salaryText, [data-testid='salary-snippet']".
Definition snippetSelector : string :=
  ".job-snippet, [data-testid='job-snippet'], .summary".

(** The object built for a card inside [page.evaluate]. *)
Definition cardJob (now origin : jsstring) (card : Card) : Job :=
  let jobId := IndeedScraper.cardJobId card in
  mkJob
    (* jobId *) jobId
    (* title *) (trimmedText card titleSelector)
    (* company *) (trimmedText card companySelector)
    (* location *) (trimmedText card locationSelector)
    (* jobUrl *) (IndeedScraper.cardJobUrl origin linkSelector card jobId)
    (* salary *) (trimmedText card salarySelector)
    (* snippet *) (trimmedText card snippetSelector)
    (* scrapedAt *) [("scrapedAt"%string, XStr now)].

(** The body of [jobCards.forEach]: [jobsData.push] under its guard. *)
Definition eachCard (now origin : jsstring) (jobsData : list Job)
    (card : Card) : list Job :=
  let job := cardJob now origin card in
  if (truthy (JobProcessor.title job) && truthy (JobProcessor.company job))%bool
  then jobsData ++ [job]
  else jobsData.

(** The function [extractJobListings] runs in the page. *)
Definition extractFrom (now : jsstring) (document : Document) : list Job :=
  let jobCards := firstMatching document selectors [] in
  fold_left (eachCard now (origin document)) jobCards [].

(** [extractJobListings()], on the page loaded from [url]. *)
Definition extractJobListings (world : World) (url : Url) (i : Instance)
    : Outcome (list Job) * Instance :=
  match evaluate world url with
  | Returned document =>
      let jobs := extractFrom (now world) document in
      (Returned jobs, withStats (addLeads (len jobs)) i)
  | Thrown error => (Thrown error, i)
  end.

(** [validateParams(params)] *)
Definition validateParams (params : Params) : Validation :=
  validation
    (requiredStrings params
     ++
     (if (valueTruthy (maxPages params)
          && (negb (isNumber (maxPages params))
              || numberBelow (maxPages params) 1))%bool
      then ["maxPages must be a positive number"%string] else [])).

(** [navigateToUrl(url)] *)
Definition navigateToUrl (world : World) (url : Url) (i : Instance)
    : option Message * Instance :=
  let i := withStats requestMade i in
  match goto world url with
  | None => (None, withStats requestSucceeded i)
  | Some error => (Some error, withStats (requestFailed url error) i)
  end.

(** [job.page = page + 1] *)
Definition setPage (n : Z) (job : Job) : Job :=
  mkJob (jobId job) (title job) (company job) (JobProcessor.location job)
    (jobUrl job) (salary job) (snippet job)
    (extra job ++ [("page"%string, XNum n)]).

Record Run : Type := mkRun {
  instance : Instance;
  allJobs : list Job;
  events : list ProgressEvent;
  urls : list Url
}.

(** One turn of the loop [for (page = 0; page < maxPages; page++)]. *)
Definition pageBody (world : World) (params : Typed.Params) (limit : Z)
    (page : Z) (run : Run) : Control * Run :=
  match
    match calculateStartIndex (page + 1) with
    | Thrown error => Thrown error
    | Returned start =>
        buildIndeedSearchUrl (Typed.keyword params) (Typed.location params)
          start
    end
  with
  | Thrown error => (Escape error, run)
  | Returned url =>
      let visited := urls run ++ [url] in
      match navigateToUrl world url (instance run) with
      | (Some error, i) =>
          (Escape error,
           {| instance := i; allJobs := allJobs run; events := events run;
              urls := visited |})
      | (None, i) =>
          if negb (waitForSelector world url) then
            (* takeScreenshot, then [continue] *)
            (Next,
             {| instance := i; allJobs := allJobs run; events := events run;
                urls := visited |})
          else
            match extractJobListings world url i with
            | (Thrown error, i) =>
                (Escape error,
                 {| instance := i; allJobs := allJobs run;
                    events := events run; urls := visited |})
            | (Returned jobs, i) =>
                let collected := allJobs run ++ map (setPage (page + 1)) jobs in
                (Next,
                 {| instance := i; allJobs := collected;
                    events :=
                      if Typed.onProgress params
                      then events run
                           ++ [{| currentPage := page + 1;
                                  totalPages := limit;
                                  jobsFound := len collected |}]
                      else events run;
                    urls := visited |})
            end
      end
  end.

Fixpoint pages (world : World) (params : Typed.Params) (limit : Z)
    (remaining : nat) (page : Z) (run : Run) : option Message * Run :=
  match remaining with
  | O => (None, run)
  | S k =>
      match pageBody world params limit page run with
      | (Next, run') => pages world params limit k (page + 1) run'
      | (Break, run') => (None, run')
      | (Escape error, run') => (Some error, run')
      end
  end.

(** [scrape(params)]: the settlement and the adapter after [finally]. *)
Definition scrape (world : World) (params : Typed.Params) (i : Instance)
    : Finished * Instance :=
  let limit := match Typed.maxPages params with Some n => n | None => 1%Z end in
  match initialize world i with
  | (Some error, i) =>
      let i := cleanup i in
      ({| outcome := Thrown error; statsAfter := stats i; progress := [];
          requested := [] |}, i)
  | (None, i) =>
      let start :=
        {| instance := i; allJobs := []; events := []; urls := [] |} in
      let '(escaped, run) :=
        pages world params limit (Z.to_nat limit) 0 start in
      let i := cleanup (instance run) in
      ({| outcome :=
            match escaped with
            | None => Returned (JobArray (allJobs run))
            | Some error => Thrown error
            end;
          statsAfter := stats i; progress := events run;
          requested := urls run |}, i)
  end.

End PlaywrightIndeedScraper.

(* ================================================================== *)
(** ** scrapers/NaukriScraper.js *)
(* ================================================================== *)

Module NaukriScraper.
Import Js Dom Net JobProcessor Scraper.

Record Config : Type := mkConfig {
  baseUrl : jsstring;
  maxRetries : nat
}.

Definition jobCardSelectors : list string :=
  ["article.jobTuple"; ".jobTuple"; "article[data-job-id]";
   ".srp-jobtuple-wrapper"]%string.

Definition titleSelector : string :=
  ".title, .jobTuple-title, a.title, .job-title".
Definition companySelector : string :=
  ".compName, .company-name, .subTitle, .comp-name".
Definition locationSelector : string :=
  ".location, .locWdth, .loc, .job-location".
Definition linkSelector : string :=
  "a.title, .jobTuple-title a, a.job-title-link".
Definition salarySelector : string := ".salary, .salaryRange, .sal".
Definition experienceSelector : string := ".experience, .expwdth, .exp".
Definition skillsSelector : string := ".tags, .tag-li, .skill, .skillSet li".
Definition snippetSelector : string :=
  ".job-description, .desc, .job-details, .ellipsis".

(** [$card.find('[data-job-id]').attr('data-job-id')] *)
Definition nestedJobId (card : Card) : field :=
  match querySelector card "[data-job-id]" with
  | Some e => getAttribute e "data-job-id"
  | None => None
  end.

Definition cardJobId (card : Card) : field :=
  orElse (attr card "data-job-id")
    (orElse (attr card "data-jobid") (orElse (nestedJobId card) None)).

Definition cardJobUrl (cfg : Config) (card : Card) (jobId : field) : field :=
  match querySelector card linkSelector with
  | Some link =>
      let href := getAttribute link "href" in
      if truthy href
      then Some (absolutize (baseUrl cfg) (template href))
      else None
  | None =>
      if truthy jobId
      then Some (baseUrl cfg ++ lit "/job-listings-" ++ template jobId)
      else None
  end.

(** The non-empty trimmed texts of the skill tags. *)
Definition cardSkills (card : Card) : list jsstring :=
  filter (fun skill => match skill with [] => false | _ => true end)
    (map (fun e => trim (textContent e))
       (querySelectorAll card skillsSelector)).

Definition fieldValue (v : field) : extraValue :=
  match v with
  | Some s => XStr s
  | None => XNull
  end.

(** [skills.length > 0 ? skills : null] *)
Definition skillsValue (skills : list jsstring) : extraValue :=
  match skills with
  | [] => XNull
  | _ => XList skills
  end.

Definition cardJob (cfg : Config) (now : jsstring) (card : Card) : Job :=
  let jobId := cardJobId card in
  mkJob
    (* jobId *) jobId
    (* title *) (textOrNull card titleSelector)
    (* company *) (textOrNull card companySelector)
    (* location *) (textOrNull card locationSelector)
    (* jobUrl *) (cardJobUrl cfg card jobId)
    (* salary *) (textOrNull card salarySelector)
    (* snippet *) (textOrNull card snippetSelector)
    [("experience"%string, fieldValue (textOrNull card experienceSelector));
     ("skills"%string, skillsValue (cardSkills card));
     ("source"%string, XStr (lit "Naukri"));
     ("scrapedAt"%string, XStr now)].

Definition eachCard (cfg : Config) (now : jsstring) (jobs : list Job)
    (card : Card) : list Job :=
  let job := cardJob cfg now card in
  if (truthy (JobProcessor.title job) || truthy (JobProcessor.company job))%bool
  then jobs ++ [job]
  else jobs.

(** [parseJobListings(html)] *)
Definition parseJobListings (cfg : Config) (now : jsstring) (html : Document)
    : list Job :=
  let jobCards := firstMatching html jobCardSelectors [] in
  fold_left (eachCard cfg now) jobCards [].

(** [validateParams(params)] *)
Definition validateParams (params : Params) : Validation :=
  validation
    (requiredStrings params
     ++
     (if negb (isUndefined (maxPages params)) then
        match parseInt (maxPages params) with
        | None => ["maxPages must be a number between 1 and 20"%string]
        | Some n =>
            if ((n <? 1) || (20 <? n))%Z%bool
            then ["maxPages must be a number between 1 and 20"%string]
            else []
        end
      else [])).

(** [buildSearchUrl({ keyword, location, page })] *)
Definition buildSearchUrl (cfg : Config) (keyword location : jsstring)
    (page : Z) : Url :=
  NaukriSearch (baseUrl cfg) keyword location page.

(** [fetchPage(url)] *)
Definition fetchPage (world : World) (cfg : Config) (url : Url) (s : Stats)
    : Outcome Document * Stats :=
  let s := requestMade s in
  match fetchHtml url (http world url) (maxRetries cfg) with
  | Returned html => (Returned html, requestSucceeded s)
  | Thrown error => (Thrown error, requestFailed url error s)
  end.

Record Run : Type := mkRun {
  runStats : Stats;
  allJobs : list Job;
  events : list ProgressEvent;
  urls : list Url
}.

(** One turn of the loop
    [for (currentPage = 1; currentPage <= maxPages; currentPage++)]. *)
Definition pageBody (world : World) (cfg : Config) (params : Typed.Params)
    (limit : Z) (currentPage : Z) (run : Run) : Control * Run :=
  let url :=
    buildSearchUrl cfg (Typed.keyword params) (Typed.location params)
      currentPage in
  let '(fetched, s) := fetchPage world cfg url (runStats run) in
  match fetched with
  | Returned html =>
      let jobs := parseJobListings cfg (now world) html in
      let collected := allJobs run ++ jobs in
      let run' :=
        {| runStats := addLeads (len jobs) s; allJobs := collected;
           events :=
             if Typed.onProgress params
             then events run
                  ++ [{| Scraper.currentPage := currentPage;
                         totalPages := limit;
                         jobsFound := len collected |}]
             else events run;
           urls := urls run ++ [url] |} in
      (match jobs with [] => Break | _ => Next end, run')
  | Thrown _ =>
      (* logged; the loop goes on to the next page *)
      (Next,
       {| runStats := s; allJobs := allJobs run; events := events run;
          urls := urls run ++ [url] |})
  end.

Fixpoint pages (world : World) (cfg : Config) (params : Typed.Params)
    (limit : Z) (remaining : nat) (currentPage : Z) (run : Run)
    : option Message * Run :=
  match remaining with
  | O => (None, run)
  | S k =>
      match pageBody world cfg params limit currentPage run with
      | (Next, run') => pages world cfg params limit k (currentPage + 1) run'
      | (Break, run') => (None, run')
      | (Escape error, run') => (Some error, run')
      end
  end.

(** [scrape(params)]: it returns what [processJobs] returned. *)
Definition scrape (world : World) (cfg : Config) (params : Typed.Params)
    (s : Stats) : Finished :=
  let limit := match Typed.maxPages params with Some n => n | None => 5%Z end in
  let start := {| runStats := s; allJobs := []; events := []; urls := [] |} in
  match pages world cfg params limit (Z.to_nat limit) 1 start with
  | (None, run) =>
      let processedJobs :=
        processJobs (resolveUrl world) (allJobs run) defaultOptions in
      {| outcome := Returned (ProcessObject processedJobs);
         statsAfter := runStats run; progress := events run;
         requested := urls run |}
  | (Some error, run) =>
      {| outcome := Thrown error; statsAfter := runStats run;
         progress := events run; requested := urls run |}
  end.

End NaukriScraper.

(* ================================================================== *)
(** ** scrapers/PlaywrightNaukriScraper.js *)
(* ================================================================== *)

Module PlaywrightNaukriScraper.
Import Js Dom Net JobProcessor Scraper.

Record Config : Type := mkConfig {
  baseUrl : jsstring
}.

Definition cardSelector : string :=
  "article.jobTuple, .jobTuple, article[data-job-id]".

(** [getAttribute('data-job-id') || getAttribute('data-jobid') || null] *)
Definition cardJobId (card : Card) : field :=
  orElse (attr card "data-job-id") (orElse (attr card "data-jobid") None).

Definition cardJobUrl (card : Card) : field :=
  match querySelector card NaukriScraper.linkSelector with
  | Some link =>
      let href := getAttribute link "href" in
      if truthy href
      then Some (absolutize (lit "https://www.naukri.com") (template href))
      else None
  | None => None
  end.

Definition cardJob (now : jsstring) (card : Card) : Job :=
  mkJob
    (* jobId *) (cardJobId card)
    (* title *) (trimmedText card NaukriScraper.titleSelector)
    (* company *) (trimmedText card NaukriScraper.companySelector)
    (* location *) (trimmedText card NaukriScraper.locationSelector)
    (* jobUrl *) (cardJobUrl card)
    (* salary *) (trimmedText card NaukriScraper.salarySelector)
    (* snippet *) (trimmedText card NaukriScraper.snippetSelector)
    [("experience"%string,
      NaukriScraper.fieldValue
        (trimmedText card NaukriScraper.experienceSelector));
     ("skills"%string,
      NaukriScraper.skillsValue (NaukriScraper.cardSkills card));
     ("source"%string, XStr (lit "Naukri"));
     ("scrapedAt"%string, XStr now)].

Definition eachCard (now : jsstring) (extractedJobs : list Job) (card : Card)
    : list Job :=
  let job := cardJob now card in
  if (truthy (JobProcessor.title job) || truthy (JobProcessor.company job))%bool
  then extractedJobs ++ [job]
  else extractedJobs.

(** The function [extractJobs] runs in the page. *)
Definition extractFrom (now : jsstring) (document : Document) : list Job :=
  fold_left (eachCard now) (select document cardSelector) [].

(** [extractJobs()]: an error of [page.evaluate] is logged and gives []. *)
Definition extractJobs (world : World) (url : Url) : list Job :=
  match evaluate world url with
  | Returned document => extractFrom (now world) document
  | Thrown _ => []
  end.

(** [validateParams(params)] *)
Definition validateParams (params : Params) : Validation :=
  validation
    (requiredStrings params
     ++
     (if negb (isUndefined (maxPages params)) then
        match parseInt (maxPages params) with
        | None => ["maxPages must be a number between 1 and 20"%string]
        | Some n =>
            if ((n <? 1) || (20 <? n))%Z%bool
            then ["maxPages must be a number between 1 and 20"%string]
            else []
        end
      else [])).

Definition buildSearchUrl (cfg : Config) (keyword location : jsstring)
    (page : Z) : Url :=
  NaukriSearch (baseUrl cfg) keyword location page.

(** [navigateToPage(url)]: only [page.goto] can make it throw. *)
Definition navigateToPage (world : World) (url : Url) (i : Instance)
    : option Message * Instance :=
  let i := withStats requestMade i in
  match goto world url with
  | None => (None, withStats requestSucceeded i)
  | Some error => (Some error, withStats (requestFailed url error) i)
  end.

Record Run : Type := mkRun {
  instance : Instance;
  allJobs : list Job;
  events : list ProgressEvent;
  urls : list Url
}.

Definition pageBody (world : World) (cfg : Config) (params : Typed.Params)
    (limit : Z) (currentPage : Z) (run : Run) : Control * Run :=
  let url :=
    buildSearchUrl cfg (Typed.keyword params) (Typed.location params)
      currentPage in
  match navigateToPage world url (instance run) with
  | (None, i) =>
      let jobs := extractJobs world url in
      let collected := allJobs run ++ jobs in
      let run' :=
        {| instance := withStats (addLeads (len jobs)) i;
           allJobs := collected;
           events :=
             if Typed.onProgress params
             then events run
                  ++ [{| Scraper.currentPage := currentPage;
                         totalPages := limit;
                         jobsFound := len collected |}]
             else events run;
           urls := urls run ++ [url] |} in
      (match jobs with [] => Break | _ => Next end, run')
  | (Some _, i) =>
      (Next,
       {| instance := i; allJobs := allJobs run; events := events run;
          urls := urls run ++ [url] |})
  end.

Fixpoint pages (world : World) (cfg : Config) (params : Typed.Params)
    (limit : Z) (remaining : nat) (currentPage : Z) (run : Run)
    : option Message * Run :=
  match remaining with
  | O => (None, run)
  | S k =>
      match pageBody world cfg params limit currentPage run with
      | (Next, run') => pages world cfg params limit k (currentPage + 1) run'
      | (Break, run') => (None, run')
      | (Escape error, run') => (Some error, run')
      end
  end.

(** [scrape(params)]: the settlement and the adapter after [finally]. *)
Definition scrape (world : World) (cfg : Config) (params : Typed.Params)
    (i : Instance) : Finished * Instance :=
  let limit := match Typed.maxPages params with Some n => n | None => 5%Z end in
  match initialize world i with
  | (Some error, i) =>
      let i := cleanup i in
      ({| outcome := Thrown error; statsAfter := stats i; progress := [];
          requested := [] |}, i)
  | (None, i) =>
      let start :=
        {| instance := i; allJobs := []; events := []; urls := [] |} in
      let '(escaped, run) :=
        pages world cfg params limit (Z.to_nat limit) 1 start in
      let i := cleanup (instance run) in
      ({| outcome :=
            match escaped with
            | None =>
                Returned
                  (ProcessObject
                     (processJobs (resolveUrl world) (allJobs run)
                        defaultOptions))
            | Some error => Thrown error
            end;
          statsAfter := stats i; progress := events run;
          requested := urls run |}, i)
  end.

End PlaywrightNaukriScraper.

(* ================================================================== *)
(** ** jobs/scrapeJobRunner.js *)
(* ================================================================== *)

Module ScrapeJobRunner.
Import Js Dom Net JobProcessor Scraper.

(** [c.toLowerCase()] on an ASCII character. *)
Definition lowerAscii (c : ascii) : ascii :=
  let n := nat_of_ascii c in
  if ((65 <=? n) && (n <=? 90))%nat%bool then ascii_of_nat (n + 32) else c.

Fixpoint toLowerCase (s : string) : string :=
  match s with
  | EmptyString => EmptyString
  | String c rest => String (lowerAscii c) (toLowerCase rest)
  end.

(** [s.includes(part)] *)
Fixpoint includes (part s : string) : bool :=
  if String.prefix part s then true
  else
    match s with
    | EmptyString => false
    | String _ rest => includes part rest
    end.

(** The adapter [selectScraper] constructs. *)
Inductive Adapter : Type :=
| Indeed (cfg : IndeedScraper.Config)
| PlaywrightIndeed (baseUrl : jsstring)
| Naukri (cfg : NaukriScraper.Config)
| PlaywrightNaukri (cfg : PlaywrightNaukriScraper.Config).

(** [selectScraper(targetUrl, { usePlaywright })]; the target URL is ASCII. *)
Definition selectScraper (targetUrl : string) (usePlaywright : bool)
    : option Adapter :=
  let url := toLowerCase targetUrl in
  if includes "indeed.com" url then
    let baseUrl :=
      if includes "in.indeed.com" url then lit "https://in.indeed.com"
      else lit "https://www.indeed.com" in
    if usePlaywright then Some (PlaywrightIndeed baseUrl)
    else Some (Indeed {| IndeedScraper.baseUrl := baseUrl;
                         IndeedScraper.maxRetries := 3 |})
  else if includes "naukri.com" url then
    let baseUrl := lit "https://www.naukri.com" in
    if usePlaywright
    then Some (PlaywrightNaukri {| PlaywrightNaukriScraper.baseUrl := baseUrl |})
    else Some (Naukri {| NaukriScraper.baseUrl := baseUrl;
                         NaukriScraper.maxRetries := 3 |})
  else None.

(** [scraper.validateParams(params)] *)
Definition validateParams (a : Adapter) (params : Params) : Validation :=
  match a with
  | Indeed _ => IndeedScraper.validateParams params
  | PlaywrightIndeed _ => PlaywrightIndeedScraper.validateParams params
  | Naukri _ => NaukriScraper.validateParams params
  | PlaywrightNaukri _ => PlaywrightNaukriScraper.validateParams params
  end.

(** [await scraper.scrape(params)] on the adapter just constructed. *)
Definition scrape (world : World) (a : Adapter) (params : Typed.Params)
    : Finished :=
  match a with
  | Indeed cfg => IndeedScraper.scrape world cfg params newStats
  | PlaywrightIndeed _ =>
      fst (PlaywrightIndeedScraper.scrape world params newInstance)
  | Naukri cfg => NaukriScraper.scrape world cfg params newStats
  | PlaywrightNaukri cfg =>
      fst (PlaywrightNaukriScraper.scrape world cfg params newInstance)
  end.

Record JobConfig : Type := mkJobConfig {
  name : string;
  targetUrl : string;
  keywords : option (list jsstring);
  location : field;
  maxPages : option Z;
  usePlaywright : bool;
  continueOnError : bool
}.

Inductive Status : Type := pending | running | completed | failed.

Record Results : Type := mkResults {
  totalJobs : option Z;
  pagesScraped : Z;
  errors : list ErrorRecord;
  requestsMade : option Z;
  successfulRequests : option Z;
  failedRequests : option Z
}.

Record JobResult : Type := mkJobResult {
  jobName : string;
  status : Status;
  results : Results;
  jobs : ScrapeValue
}.

(** [keywords.join(' ')] *)
Fixpoint join (parts : list jsstring) : jsstring :=
  match parts with
  | [] => []
  | [p] => p
  | p :: rest => p ++ lit " " ++ join rest
  end.

(** The object [scrapeParams]. *)
Definition scrapeParams (jobConfig : JobConfig) : Typed.Params :=
  {| Typed.keyword :=
       match keywords jobConfig with
       | Some parts => join parts
       | None => []
       end;
     Typed.location :=
       if truthy (location jobConfig) then template (location jobConfig)
       else lit "United States";
     Typed.maxPages :=
       match maxPages jobConfig with
       | Some n => if (n =? 0)%Z then Some 5%Z else Some n
       | None => Some 5%Z
       end;
     Typed.onProgress := true |}.

(** What the [onProgress] closure of [executeJob] does to [result]. *)
Definition noteProgress (r : Results) (p : ProgressEvent) : Results :=
  {| totalJobs := Some (jobsFound p);
     pagesScraped := currentPage p;
     errors := errors r;
     requestsMade := requestsMade r;
     successfulRequests := successfulRequests r;
     failedRequests := failedRequests r |}.

(** The [catch] block: the status, and one record pushed. *)
Definition fail (error : Message) (r : JobResult) : JobResult :=
  {| jobName := jobName r;
     status := failed;
     results :=
       {| totalJobs := totalJobs (results r);
          pagesScraped := pagesScraped (results r);
          errors := errors (results r)
                    ++ [{| errUrl := None; errPage := None;
                           errMessage := error |}];
          requestsMade := requestsMade (results r);
          successfulRequests := successfulRequests (results r);
          failedRequests := failedRequests (results r) |};
     jobs := jobs r |}.

(** [`Invalid parameters: ${validation.errors.join(', ')}`] *)
Definition invalidParameters (errors : list string) : Message :=
  Text ("Invalid parameters: " ++ String.concat ", " errors).

(** [executeJob(jobConfig)]: the [result] object as the function leaves
    it, and the error it rejects with, if it does. *)
Definition executeJob (world : World) (jobConfig : JobConfig)
    : JobResult * option Message :=
  let result :=
    {| jobName := name jobConfig;
       status := pending;
       results := {| totalJobs := Some 0%Z; pagesScraped := 0; errors := [];
                     requestsMade := None; successfulRequests := None;
                     failedRequests := None |};
       jobs := JobArray [] |} in
  let caught (error : Message) (r : JobResult) :=
    (fail error r,
     if continueOnError jobConfig then None else Some error) in
  match selectScraper (targetUrl jobConfig) (usePlaywright jobConfig) with
  | None =>
      caught (Text ("No scraper available for URL: " ++ targetUrl jobConfig))
        result
  | Some scraper =>
      let params := scrapeParams jobConfig in
      let validation := validateParams scraper (untyped params) in
      if negb (isValid validation) then
        caught (invalidParameters (errorList validation)) result
      else
        let done := scrape world scraper params in
        let result :=
          {| jobName := jobName result;
             status := running;
             results := fold_left noteProgress (progress done) (results result);
             jobs := jobs result |} in
        match outcome done with
        | Thrown error => caught error result
        | Returned found =>
            let stats := statsAfter done in
            ({| jobName := jobName result;
                status := completed;
                results :=
                  {| totalJobs := lengthOf found;
                     pagesScraped := pagesScraped (results result);
                     errors := Scraper.errors stats;
                     requestsMade := Some (Scraper.requestsMade stats);
                     successfulRequests :=
                       Some (Scraper.successfulRequests stats);
                     failedRequests := Some (Scraper.failedRequests stats) |};
                jobs := found |},
             None)
        end
  end.

End ScrapeJobRunner.

(* ================================================================== *)
(** ** utils/httpClient.js: fetchMultiple *)
(* ================================================================== *)

Module HttpClient.
Import Js Dom Net.

(** An entry of the array [fetchMultiple] resolves to. *)
Record Fetched : Type := mkFetched {
  url : Url;
  html : option Document;
  error : option Message
}.

(** The callback of [batch.map]: [fetchHtml] under its [try]/[catch];
    [replies] answers the requests made for this URL. *)
Definition fetchOne (maxRetries : nat) (replies : nat -> HttpReply)
    (url : Url) : Fetched :=
  match fetchHtml url replies maxRetries with
  | Returned html => {| url := url; html := Some html; error := None |}
  | Thrown error => {| url := url; html := None; error := Some error |}
  end.

(** [urls.slice(i, j)] *)
Definition slice {A : Type} (i j : nat) (l : list A) : list A :=
  firstn (j - i) (skipn i l).

(** [l.map(f)] with the position of each element counted from [i]. *)
Fixpoint mapFrom {A B : Type} (f : nat -> A -> B) (i : nat) (l : list A)
    : list B :=
  match l with
  | [] => []
  | x :: rest => f i x :: mapFrom f (S i) rest
  end.

(** The loop [for (let i = 0; i < urls.length; i += concurrency)].
    [replies k] answers the requests for the URL at position [k], whatever
    the order in which the requests of a batch are served. The loop need
    not end: [fuel] bounds the number of turns, and [None] says that the
    bound was reached with the loop still running. *)
Fixpoint batches (fuel : nat) (urls : list Url)
    (replies : nat -> nat -> HttpReply) (maxRetries concurrency i : nat)
    (results : list Fetched) : option (list Fetched) :=
  if (i <? List.length urls)%nat then
    match fuel with
    | O => None
    | S fuel' =>
        let batch := slice i (i + concurrency) urls in
        let batchResults :=
          mapFrom (fun k => fetchOne maxRetries (replies (i + k)%nat)) 0 batch in
        batches fuel' urls replies maxRetries concurrency (i + concurrency)
          (results ++ batchResults)
    end
  else Some results.

(** [fetchMultiple(urls, { concurrency, maxRetries })]; [concurrency] is
    taken to be a non-negative integer. *)
Definition fetchMultiple (fuel : nat) (urls : list Url)
    (replies : nat -> nat -> HttpReply) (maxRetries concurrency : nat)
    : option (list Fetched) :=
  batches fuel urls replies maxRetries concurrency 0 [].

End HttpClient.

(* ================================================================== *)
(** ** utils/indeedUrlBuilder.js: job and company URLs *)
(* ================================================================== *)

Module IndeedUrlBuilder.
Import Js Net Scraper.

Definition isDigit (c : N) : bool := (N.leb 48 c && N.leb c 57)%bool.
Definition isLower (c : N) : bool := (N.leb 97 c && N.leb c 122)%bool.
Definition isUpper (c : N) : bool := (N.leb 65 c && N.leb c 90)%bool.

(** The characters [encodeURIComponent] copies: the letters and digits of
    ASCII and [- _ . ! ~ * ' ( )]. *)
Definition unreserved (c : N) : bool :=
  (isDigit c || isLower c || isUpper c
   || existsb (N.eqb c) (lit "-_.!~*'()"))%bool.

Definition hexDigit (n : N) : N :=
  if N.ltb n 10 then (48 + n)%N else (55 + n)%N.

(** [%XX] for one byte. *)
Definition percent (byte : N) : jsstring :=
  [37%N; hexDigit (byte / 16); hexDigit (byte mod 16)].

(** The UTF-8 bytes of a code point. *)
Definition utf8 (cp : N) : list N :=
  if N.ltb cp 128 then [cp]
  else if N.ltb cp 2048 then [192 + cp / 64; 128 + cp mod 64]%N
  else if N.ltb cp 65536
  then [224 + cp / 4096; 128 + (cp / 64) mod 64; 128 + cp mod 64]%N
  else [240 + cp / 262144; 128 + (cp / 4096) mod 64;
        128 + (cp / 64) mod 64; 128 + cp mod 64]%N.

Definition isLeadSurrogate (c : N) : bool :=
  (N.leb 55296 c && N.leb c 56319)%bool.
Definition isTrailSurrogate (c : N) : bool :=
  (N.leb 56320 c && N.leb c 57343)%bool.

(** [encodeURIComponent(s)]; [None] is the URIError thrown for a
    surrogate without its partner. *)
Fixpoint encodeURIComponent (s : jsstring) : option jsstring :=
  match s with
  | [] => Some []
  | c :: rest =>
      if unreserved c then option_map (cons c) (encodeURIComponent rest)
      else if isTrailSurrogate c then None
      else if isLeadSurrogate c then
        match rest with
        | d :: rest' =>
            if isTrailSurrogate d then
              option_map
                (app (flat_map percent
                        (utf8 ((c - 55296) * 1024 + (d - 56320) + 65536)%N)))
                (encodeURIComponent rest')
            else None
        | [] => None
        end
      else
        option_map (app (flat_map percent (utf8 c))) (encodeURIComponent rest)
  end.

(** What [[a-f0-9]] matches under the flag [i]. *)
Definition isHex (c : N) : bool :=
  (isDigit c || (N.leb 97 c && N.leb c 102) || (N.leb 65 c && N.leb c 70))%bool.

(** The longest prefix of hexadecimal digits. *)
Fixpoint hexRun (s : jsstring) : jsstring :=
  match s with
  | [] => []
  | c :: rest => if isHex c then c :: hexRun rest else []
  end.

(** [[?&]jk=] under the flag [i], as four characters. *)
Definition isJkMark (q j k e : N) : bool :=
  ((N.eqb q 63 || N.eqb q 38) && (N.eqb j 106 || N.eqb j 74)
   && (N.eqb k 107 || N.eqb k 75) && N.eqb e 61)%bool.

(** A match of [/[?&]jk=([a-f0-9]+)/i] that starts at the first character:
    its group. *)
Definition matchJk (s : jsstring) : option jsstring :=
  match s with
  | q :: j :: k :: e :: rest =>
      if isJkMark q j k e
      then match hexRun rest with
           | [] => None
           | id => Some id
           end
      else None
  | _ => None
  end.

(** [s.match(/[?&]jk=([a-f0-9]+)/i)]: the group of the leftmost match. *)
Fixpoint searchJk (s : jsstring) : option jsstring :=
  match matchJk s with
  | Some id => Some id
  | None =>
      match s with
      | [] => None
      | _ :: rest => searchJk rest
      end
  end.

(** [extractJobId(url)] *)
Definition extractJobId (url : value) : field :=
  if notAString url then None
  else
    match url with
    | VStr s => searchJk s
    | _ => None
    end.

(** [buildJobUrl(jobId)] *)
Definition buildJobUrl (jobId : value) : Outcome jsstring :=
  if notAString jobId
  then Thrown (Text "jobId is required and must be a string")
  else
    match jobId with
    | VStr s =>
        match encodeURIComponent s with
        | Some encoded =>
            Returned (lit "https://www.indeed.com/viewjob?jk=" ++ encoded)
        | None => Thrown (Text "URI malformed")
        end
    | _ => Thrown (Text "jobId is required and must be a string")
    end.

(** [s.replace(/^-+|-+$/g, '')]: the hyphens in front, then those at the
    end. *)
Fixpoint dropHyphens (s : jsstring) : jsstring :=
  match s with
  | [] => []
  | c :: rest => if N.eqb c 45 then dropHyphens rest else s
  end.

Fixpoint dropEndHyphens (s : jsstring) : jsstring :=
  match s with
  | [] => []
  | c :: rest =>
      match dropEndHyphens rest with
      | [] => if N.eqb c 45 then [] else [c]
      | kept => c :: kept
      end
  end.

Section WithLowerCase.

(** [String.prototype.toLowerCase] of the platform. *)
Variable toLowerCase : jsstring -> jsstring.

(** The slug of [buildIndeedCompanyUrl]. *)
Definition companySlug (companyName : jsstring) : jsstring :=
  dropEndHyphens
    (dropHyphens
       (replaceRuns (fun c => negb (isLower c || isDigit c)) 45
          (trim (toLowerCase companyName)))).

(** [buildIndeedCompanyUrl(companyName)] *)
Definition buildIndeedCompanyUrl (companyName : value) : Outcome jsstring :=
  if notAString companyName
  then Thrown (Text "companyName is required and must be a string")
  else
    match companyName with
    | VStr s =>
        match encodeURIComponent (companySlug s) with
        | Some encoded =>
            Returned (lit "https://www.indeed.com/cmp" ++ lit "/" ++ encoded)
        | None => Thrown (Text "URI malformed")
        end
    | _ => Thrown (Text "companyName is required and must be a string")
    end.

End WithLowerCase.

End IndeedUrlBuilder.

(* ================================================================== *)
(** ** jobs/scrapeJobRunner.js: executeMultipleJobs *)
(* ================================================================== *)

Module MultipleJobs.
Import Js Dom Net JobProcessor Scraper ScrapeJobRunner.

(** An element of the array [executeMultipleJobs] resolves to: the result
    of [executeJob], or the short object pushed when [executeJob]
    rejected. *)
Inductive Entry : Type :=
| Result (result : JobResult)
| Caught (jobName : string) (error : Message).

(** [r.status] *)
Definition entryStatus (entry : Entry) : Status :=
  match entry with
  | Result result => status result
  | Caught _ _ => failed
  end.

(** [r.jobName] *)
Definition entryName (entry : Entry) : string :=
  match entry with
  | Result result => jobName result
  | Caught jobName _ => jobName
  end.

Definition isFailed (s : Status) : bool :=
  match s with failed => true | _ => false end.

Definition isCompleted (s : Status) : bool :=
  match s with completed => true | _ => false end.

(** The loop [for (let i = 0; i < jobConfigs.length; i++)] from job [i]
    on; [worlds i] is the world as job [i] finds it. *)
Fixpoint runJobs (worlds : nat -> World) (stopOnError : bool) (i : nat)
    (jobConfigs : list JobConfig) (results : list Entry) : list Entry :=
  match jobConfigs with
  | [] => results
  | jobConfig :: rest =>
      match executeJob (worlds i) jobConfig with
      | (result, None) =>
          let results := results ++ [Result result] in
          if (isFailed (status result) && stopOnError)%bool then results
          else runJobs worlds stopOnError (S i) rest results
      | (_, Some error) =>
          let results := results ++ [Caught (name jobConfig) error] in
          if stopOnError then results
          else runJobs worlds stopOnError (S i) rest results
      end
  end.

(** [executeMultipleJobs(jobConfigs, { stopOnError })] *)
Definition executeMultipleJobs (worlds : nat -> World)
    (jobConfigs : list JobConfig) (stopOnError : bool) : list Entry :=
  runJobs worlds stopOnError 0 jobConfigs [].

(** The two counts of the summary. *)
Definition successful (results : list Entry) : nat :=
  List.length (filter (fun r => isCompleted (entryStatus r)) results).

Definition failedCount (results : list Entry) : nat :=
  List.length (filter (fun r => isFailed (entryStatus r)) results).

End MultipleJobs.

(* ================================================================== *)
(** ** controllers/devController.js *)
(* ================================================================== *)

Module DevController.
Import Js Dom Net JobProcessor Scraper ScrapeJobRunner.

(** [req.body] of a request that passed the authentication middleware
    ([req.user] is set); [maxPages] is an integer when it is given. *)
Record Body : Type := mkBody {
  keyword : value;
  location : value;
  maxPages : option Z;
  usePlaywright : bool
}.

(** What the handler does with the request: a 400 answer, a 200 answer
    ([imported]: the jobs were converted to leads and imported), or
    [next(error)] ([Forwarded]). *)
Inductive Reply : Type :=
| BadRequest (error : string)
| Answered (success : bool) (result : JobResult) (imported : bool)
| Forwarded (error : Message).

(** [result.jobs && result.jobs.length > 0] *)
Definition hasJobs (found : ScrapeValue) : bool :=
  match lengthOf found with
  | Some n => (0 <? n)%Z
  | None => false
  end.

(** The body shared by [triggerIndeedScrape] and [triggerNaukriScrape];
    [jobName] is the name the handler builds from the keyword. *)
Definition trigger (targetUrl jobName : string) (world : World) (body : Body)
    : Reply :=
  if notAString (keyword body)
  then BadRequest "keyword is required and must be a string"
  else if notAString (location body)
  then BadRequest "location is required and must be a string"
  else
    match keyword body, location body with
    | VStr keyword, VStr location =>
        let limitedPages :=
          Z.min (match maxPages body with Some n => n | None => 3%Z end) 5 in
        match
          executeJob world
            {| name := jobName;
               ScrapeJobRunner.targetUrl := targetUrl;
               keywords := Some [keyword];
               ScrapeJobRunner.location := Some location;
               ScrapeJobRunner.maxPages := Some limitedPages;
               ScrapeJobRunner.usePlaywright := usePlaywright body;
               continueOnError := true |}
        with
        | (result, None) =>
            Answered (MultipleJobs.isCompleted (status result)) result
              (hasJobs (jobs result))
        | (_, Some error) => Forwarded error
        end
    | _, _ => BadRequest "keyword is required and must be a string"
    end.

Definition triggerIndeedScrape : string -> World -> Body -> Reply :=
  trigger "https://in.indeed.com".

Definition triggerNaukriScrape : string -> World -> Body -> Reply :=
  trigger "https://www.naukri.com".

End DevController.

(* ================================================================== *)
(** * Vocabulary of the properties *)
(* ================================================================== *)

(** ** The shape of a normalised string *)

Module Shapes.
Import Js.

(** No white space in front. *)
Definition headOk (s : jsstring) : bool :=
  match s with
  | [] => true
  | c :: _ => negb (isSpace c)
  end.

(** Every white-space character is a single U+0020 that follows a
    character which is not white space ([inRun]: the previous one was). *)
Fixpoint collapsed (inRun : bool) (s : jsstring) : bool :=
  match s with
  | [] => true
  | c :: rest =>
      if isSpace c then negb inRun && N.eqb c 32 && collapsed true rest
      else collapsed false rest
  end.

(** The strings [normalizeString] produces. *)
Definition normalForm (s : jsstring) : Prop :=
  headOk s = true /\ trimEnd s = s /\ collapsed false s = true.

End Shapes.

(** ** Subsequences and first occurrences *)

Module Dedup.
Import Js JobProcessor.

(** [l1] is [l2] with some elements left out, the others in their order. *)
Inductive Subseq {A : Type} : list A -> list A -> Prop :=
| Subseq_nil : Subseq [] []
| Subseq_keep (x : A) (l1 l2 : list A) :
    Subseq l1 l2 -> Subseq (x :: l1) (x :: l2)
| Subseq_drop (x : A) (l1 l2 : list A) :
    Subseq l1 l2 -> Subseq l1 (x :: l2).

(** What the loop of [removeDuplicates] keeps of [jobs] when it starts
    with the keys [seen]. *)
Fixpoint firstOccurrences (d : string) (seen : list field) (jobs : list Job)
    : list Job :=
  match jobs with
  | [] => []
  | job :: rest =>
      let key := dedupKey d job in
      if (negb (truthy key) || has seen key)%bool
      then firstOccurrences d seen rest
      else job :: firstOccurrences d (seen ++ [key]) rest
  end.

(** The keys of [l] are truthy, pairwise different and not in [seen]. *)
Fixpoint fresh (d : string) (seen : list field) (l : list Job) : Prop :=
  match l with
  | [] => True
  | job :: rest =>
      truthy (dedupKey d job) = true
      /\ has seen (dedupKey d job) = false
      /\ fresh d (seen ++ [dedupKey d job]) rest
  end.

End Dedup.

(** ** Sample postings *)

Module Sample.
Import Js Dom Net JobProcessor Scraper.

(** A platform whose [URL] constructor rejects every input. *)
Definition noUrl : jsstring -> jsstring -> option jsstring :=
  fun _ _ => None.

Definition text (s : string) : field := Some (lit s).

Definition job (jobId title company location jobUrl : field) : Job :=
  mkJob jobId title company location jobUrl None None [].

(** A posting whose company carries a review count in the middle, and
    whose location repeats the leading "in". *)
Definition reviewed : Job :=
  job (text "jk1") (text "Engineer") (text "Acme (123 reviews) Inc")
    (text "in in Pune") (text "https://in.indeed.com/viewjob?jk=jk1").

(** A posting with a link but no site identifier. *)
Definition withoutId : Job :=
  job None (text "Engineer") (text "Acme") (text "Pune")
    (text "https://in.indeed.com/viewjob?jk=jk2").

Definition plain (id : string) : Job :=
  job (text id) (text "Engineer") (text "Acme") (text "Pune")
    (text "https://in.indeed.com/viewjob?jk=1").

End Sample.

(** ** What validateParams checks *)

Module Checks.
Import Js Scraper.

(** A string with at least one character. *)
Definition nonEmptyString (v : value) : Prop :=
  exists c s, v = VStr (c :: s).

(** A number that is at least 1. *)
Definition atLeastOne (v : value) : Prop :=
  match v with
  | VNum z => (1 <= z)%Z
  | VDec m e => (10 ^ Z.pos e <= m)%Z
  | VInfinity negative => negative = false
  | _ => False
  end.

(** The page-count check of the Indeed adapters passes: the value is
    falsy ([undefined], [null], [false], 0, [NaN], the empty string) or a
    number that is at least 1. *)
Definition indeedPagesOk (v : value) : Prop :=
  valueTruthy v = false \/ atLeastOne v.

(** The page-count check of the Naukri adapters passes. *)
Definition naukriPagesOk (v : value) : Prop :=
  v = VUndefined
  \/ exists n, parseInt v = Some n /\ (1 <= n <= 20)%Z.

End Checks.

(** ** Cards and pages *)

Module Cards.
Import Js Dom JobProcessor Scraper.

(** At least one of title and company is a non-empty string. *)
Definition titleOrCompany (job : Job) : bool :=
  (truthy (title job) || truthy (company job))%bool.

(** Title and company are both non-empty strings. *)
Definition titleAndCompany (job : Job) : bool :=
  (truthy (title job) && truthy (company job))%bool.

Definition element (text : string) : Element :=
  {| textContent := lit text; getAttribute := fun _ => None |}.

(** A card in which only the title selectors find an element. *)
Definition titleOnly : Card :=
  {| self := element "";
     querySelector :=
       fun selector =>
         if String.eqb selector PlaywrightIndeedScraper.titleSelector
         then Some (element "Engineer") else None;
     querySelectorAll := fun _ => [];
     innerHtml := [] |}.

(** A page on which every card selector finds the given cards. *)
Definition pageOf (cards : list Card) : Document :=
  {| select := fun _ => cards; origin := lit "https://in.indeed.com" |}.

End Cards.

(** ** Stub worlds for the concrete runs *)

Module Stub.
Import Js Dom Net JobProcessor Scraper.

(** A card that answers every query with the text "Engineer" and carries
    the identifier "jk1". *)
Definition card : Card :=
  {| self := {| textContent := lit "Engineer";
                getAttribute := fun _ => Some (lit "jk1") |};
     querySelector := fun _ => Some (Cards.element "Engineer");
     querySelectorAll := fun _ => [];
     innerHtml := lit "<h2>Engineer</h2>" |}.

Definition listing : Document := Cards.pageOf [card].
Definition nothing : Document := Cards.pageOf [].

(** Page 1 of a search lists one card, every later page none. *)
Definition pageFor (url : Url) : Document :=
  match url with
  | IndeedSearch _ _ start => if (start =? 0)%Z then listing else nothing
  | NaukriSearch _ _ _ pageNo => if (pageNo =? 1)%Z then listing else nothing
  end.

Definition firstPageOnly : World :=
  {| http := fun url _ => Response 200 (pageFor url);
     resolveUrl := Sample.noUrl;
     now := lit "2024-01-01T00:00:00.000Z";
     launch := None;
     newContext := None;
     newPage := None;
     goto := fun _ => None;
     waitForSelector := fun _ => true;
     evaluate := fun url => Returned (pageFor url) |}.

(** Every request is answered 403, every navigation fails the same way. *)
Definition forbidden : World :=
  {| http := fun url _ => Response 403 nothing;
     resolveUrl := Sample.noUrl;
     now := lit "2024-01-01T00:00:00.000Z";
     launch := None;
     newContext := None;
     newPage := None;
     goto := fun url => Some (AccessForbidden url);
     waitForSelector := fun _ => false;
     evaluate := fun _ => Returned nothing |}.

Definition tenPages : Typed.Params :=
  {| Typed.keyword := lit "engineer"; Typed.location := lit "Pune";
     Typed.maxPages := Some 10%Z; Typed.onProgress := true |}.

Definition indeedConfig : IndeedScraper.Config :=
  {| IndeedScraper.baseUrl := lit "https://in.indeed.com";
     IndeedScraper.maxRetries := 3 |}.

Definition naukriConfig : NaukriScraper.Config :=
  {| NaukriScraper.baseUrl := lit "https://www.naukri.com";
     NaukriScraper.maxRetries := 3 |}.

Definition pwNaukriConfig : PlaywrightNaukriScraper.Config :=
  {| PlaywrightNaukriScraper.baseUrl := lit "https://www.naukri.com" |}.


End Stub.

(** ** What a run is observed to do *)

Module Observed.
Import Js Dom Net JobProcessor Scraper.

(** The part of a browser-mode adapter that the page loop never touches. *)
Definition handles (i : Instance) : option Z * option Z * Z * Z :=
  (browser i, page i, acquired i, released i).

(** The search URL of page [n], counted from 1. *)
Definition indeedUrl (params : Typed.Params) (n : Z) : Url :=
  IndeedSearch (trim (Typed.keyword params)) (trim (Typed.location params))
    ((n - 1) * 10)%Z.

Definition naukriUrl (base : jsstring) (params : Typed.Params) (n : Z) : Url :=
  NaukriSearch base (Typed.keyword params) (Typed.location params) n.

(** What fetching and extracting a URL yields to each adapter. *)
Definition indeedYield (world : World) (cfg : IndeedScraper.Config)
    (url : Url) : Outcome (list Job) :=
  match fetchHtml url (http world url) (IndeedScraper.maxRetries cfg) with
  | Returned html => Returned (IndeedScraper.parseJobListings cfg html)
  | Thrown error => Thrown error
  end.

Definition naukriYield (world : World) (cfg : NaukriScraper.Config)
    (url : Url) : Outcome (list Job) :=
  match fetchHtml url (http world url) (NaukriScraper.maxRetries cfg) with
  | Returned html =>
      Returned (NaukriScraper.parseJobListings cfg (now world) html)
  | Thrown error => Thrown error
  end.

Definition pwNaukriYield (world : World) (url : Url) : Outcome (list Job) :=
  match goto world url with
  | Some error => Thrown error
  | None => Returned (PlaywrightNaukriScraper.extractJobs world url)
  end.

(** A page on which no card becomes visible yields nothing. *)
Definition pwIndeedYield (world : World) (url : Url) : Outcome (list Job) :=
  match goto world url with
  | Some error => Thrown error
  | None =>
      if waitForSelector world url then
        match evaluate world url with
        | Returned document =>
            Returned (PlaywrightIndeedScraper.extractFrom (now world) document)
        | Thrown error => Thrown error
        end
      else Returned []
  end.

(** The stub of the claim: fragments on page 1, none from page 2 on. *)
Definition firstPageOnly (yield : Url -> Outcome (list Job))
    (urlOf : Z -> Url) : Prop :=
  (exists job rest, yield (urlOf 1%Z) = Returned (job :: rest))
  /\ forall n, (2 <= n)%Z -> yield (urlOf n) = Returned [].

(** The fragments of page 1. *)
Definition firstPage (yield : Url -> Outcome (list Job)) (urlOf : Z -> Url)
    : list Job :=
  match yield (urlOf 1%Z) with
  | Returned found => found
  | Thrown _ => []
  end.

(** The URLs of [k] pages from page [n] on. *)
Fixpoint pagesFrom (urlOf : Z -> Url) (n : Z) (k : nat) : list Url :=
  match k with
  | O => []
  | S k' => urlOf n :: pagesFrom urlOf (n + 1)%Z k'
  end.



End Observed.

(** ** Parenthesised groups and blank strings *)

Module Groups.
Import Js.

(** A closing parenthesis that comes after an opening one; [opened] says
    that an opening one has been read already. *)
Fixpoint closesGroup (opened : bool) (s : jsstring) : bool :=
  match s with
  | [] => false
  | c :: rest =>
      if (opened && N.eqb c 41)%bool then true
      else closesGroup (opened || N.eqb c 40) rest
  end.

(** No line terminator in the string. *)
Definition oneLine (s : jsstring) : bool :=
  forallb (fun c => negb (isLineTerminator c)) s.

(** No closing parenthesis in the string. *)
Definition unclosed (s : jsstring) : bool :=
  forallb (fun c => negb (N.eqb c 41)) s.

(** Some character of the string is not white space. *)
Definition inked (s : jsstring) : bool :=
  existsb (fun c => negb (isSpace c)) s.

End Groups.

(** ** Replies to a request *)

Module Replies.
Import Js Dom Net.

(** A reply with a 2xx status. *)
Definition ok (reply : HttpReply) : bool :=
  match reply with
  | Response status _ => ((200 <=? status) && (status <? 300))%Z%bool
  | Rejected _ _ => false
  end.

(** The error [fetchHtml] keeps for a reply that is not [ok]. *)
Definition failure (url : Url) (reply : HttpReply) : Message :=
  match reply with
  | Response status _ =>
      if (status =? 404)%Z then PageNotFound url
      else if (status =? 403)%Z then AccessForbidden url
      else if (status =? 429)%Z then RateLimited url
      else if (500 <=? status)%Z then ServerError url status
      else HttpStatus status url
  | Rejected code message =>
      if String.eqb code "ECONNABORTED" then RequestTimeout url
      else if String.eqb code "ENOTFOUND" then DomainNotFound url
      else if String.eqb code "ECONNREFUSED" then ConnectionRefused url
      else Text message
  end.

End Replies.

(** ** Slugs and job ids *)

Module Slugs.
Import Js IndeedUrlBuilder.

(** Lower-case letters, digits and single hyphens, each hyphen between two
    of the others; [afterHyphen]: the previous character was a hyphen, or
    there is none. *)
Fixpoint hyphenated (afterHyphen : bool) (s : jsstring) : bool :=
  match s with
  | [] => negb afterHyphen
  | c :: rest =>
      if N.eqb c 45 then negb afterHyphen && hyphenated true rest
      else (isLower c || isDigit c) && hyphenated false rest
  end.

(** Lower-case letters, digits and hyphens, no hyphen next to another;
    [afterHyphen]: the previous character was a hyphen, or there is none. *)
Fixpoint singleHyphens (afterHyphen : bool) (s : jsstring) : bool :=
  match s with
  | [] => true
  | c :: rest =>
      if N.eqb c 45 then negb afterHyphen && singleHyphens true rest
      else (isLower c || isDigit c) && singleHyphens false rest
  end.

(** A lower-casing that changes the capital letters of ASCII only. *)
Definition asciiLower (s : jsstring) : jsstring :=
  map (fun c => if isUpper c then (c + 32)%N else c) s.

(** A slug: empty, or [hyphenated]. *)
Definition isSlug (s : jsstring) : bool :=
  match s with
  | [] => true
  | _ => hyphenated true s
  end.

(** The string goes on with something that is not a hexadecimal digit. *)
Definition endsHex (after : jsstring) : bool :=
  match after with
  | [] => true
  | c :: _ => negb (isHex c)
  end.

End Slugs.

(** ** Pages and statistics of a run *)

Module Paging.
Import Js Dom Net JobProcessor Scraper Observed.

(** The search URL an adapter builds for page [n], counted from 1. *)
Definition pageUrl (scraper : ScrapeJobRunner.Adapter)
    (params : Typed.Params) (n : Z) : Url :=
  match scraper with
  | ScrapeJobRunner.Indeed _ | ScrapeJobRunner.PlaywrightIndeed _ =>
      indeedUrl params n
  | ScrapeJobRunner.Naukri cfg =>
      naukriUrl (NaukriScraper.baseUrl cfg) params n
  | ScrapeJobRunner.PlaywrightNaukri cfg =>
      naukriUrl (PlaywrightNaukriScraper.baseUrl cfg) params n
  end.

(** [maxPages] with the default of each adapter. *)
Definition pageLimit (scraper : ScrapeJobRunner.Adapter)
    (params : Typed.Params) : Z :=
  match Typed.maxPages params with
  | Some n => n
  | None =>
      match scraper with
      | ScrapeJobRunner.PlaywrightIndeed _ => 1%Z
      | _ => 5%Z
      end
  end.

(** [errors.length] *)
Definition count (errors : list ErrorRecord) : Z :=
  Z.of_nat (List.length errors).

(** The value of the key [page] that PlaywrightIndeedScraper adds. *)
Definition pageTag (job : Job) : option Z :=
  match rev (extra job) with
  | (key, XNum n) :: _ => if String.eqb key "page" then Some n else None
  | _ => None
  end.

(** The job was read from page [n] of the search: it is one of the
    fragments that this page yields, with the key [page] set to [n]. *)
Definition readFromPage (world : World) (params : Typed.Params) (n : Z)
    (job : Job) : Prop :=
  exists raw found,
    pwIndeedYield world (indeedUrl params n) = Returned found
    /\ In raw found
    /\ job = PlaywrightIndeedScraper.setPage n raw.

(** The key [page] of the job is the number of the page it was read from,
    one of the pages [visited]. *)
Definition taggedWithPage (world : World) (params : Typed.Params)
    (visited : list Url) (job : Job) : Prop :=
  exists n,
    (1 <= n)%Z /\ pageTag job = Some n
    /\ readFromPage world params n job
    /\ In (indeedUrl params n) visited.

(** What a stretch of the loop did to the statistics: [made] requests,
    [failed] of them failed, [records] error records written, [leads]
    added to [leadsExtracted]. *)
Definition moved (made failed records leads : Z) (before after : Stats)
    : Prop :=
  (0 <= failed <= made)%Z
  /\ requestsMade after = (requestsMade before + made)%Z
  /\ failedRequests after = (failedRequests before + failed)%Z
  /\ successfulRequests after = (successfulRequests before + (made - failed))%Z
  /\ count (errors after) = (count (errors before) + records)%Z
  /\ leadsExtracted after = (leadsExtracted before + leads)%Z.

End Paging.

(** ** Jobs of the runner *)

Module Runs.
Import Js Dom Net JobProcessor Scraper ScrapeJobRunner.

(** The record the [catch] block of [executeJob] pushes. *)
Definition caughtRecord (error : Message) : ErrorRecord :=
  {| errUrl := None; errPage := None; errMessage := error |}.

(** An adapter for Naukri. *)
Definition isNaukri (scraper : Adapter) : bool :=
  match scraper with
  | Naukri _ | PlaywrightNaukri _ => true
  | Indeed _ | PlaywrightIndeed _ => false
  end.

(** A Naukri job of one page. *)
Definition naukriJob : JobConfig :=
  {| name := "engineers in Pune";
     targetUrl := "https://www.naukri.com";
     keywords := Some [lit "engineer"];
     ScrapeJobRunner.location := Some (lit "Pune");
     ScrapeJobRunner.maxPages := Some 1%Z;
     usePlaywright := false;
     continueOnError := false |}.

(** A job without keywords. *)
Definition noKeywords : JobConfig :=
  {| name := "anything in Pune";
     targetUrl := "https://in.indeed.com";
     keywords := None;
     ScrapeJobRunner.location := Some (lit "Pune");
     ScrapeJobRunner.maxPages := Some 1%Z;
     usePlaywright := false;
     continueOnError := true |}.

End Runs.

(* ================================================================== *)
(** * Properties *)
(* ================================================================== *)

(** ** Strings: trimming and collapsing white space *)

Module StringFacts.
Import Js Shapes.

Lemma str_eqb_eq (a b : jsstring) : str_eqb a b = true <-> a = b.
Proof.
  revert b; induction a as [|x a IH]; intros [|y b]; simpl;
    try (split; [discriminate | discriminate]); try tauto.
  rewrite andb_true_iff, N.eqb_eq, IH.
  split; [intros [-> ->]; reflexivity | intros H; inversion H; auto].
Qed.

Lemma field_eqb_eq (a b : field) : field_eqb a b = true <-> a = b.
Proof.
  destruct a as [x|], b as [y|]; simpl; try (split; [discriminate | discriminate]).
  - rewrite str_eqb_eq; split; [intros -> | intros H; inversion H]; reflexivity.
  - tauto.
Qed.

Lemma field_eqb_refl (a : field) : field_eqb a a = true.
Proof. apply field_eqb_eq; reflexivity. Qed.

Lemma trimStart_headOk (s : jsstring) : headOk (trimStart s) = true.
Proof.
  induction s as [|c r IH]; simpl; [reflexivity|].
  destruct (isSpace c) eqn:E; [exact IH | simpl; rewrite E; reflexivity].
Qed.

Lemma trimStart_id (s : jsstring) : headOk s = true -> trimStart s = s.
Proof.
  destruct s as [|c r]; simpl; [reflexivity|].
  destruct (isSpace c); [discriminate | reflexivity].
Qed.

Lemma trimEnd_headOk (s : jsstring) :
  headOk s = true -> headOk (trimEnd s) = true.
Proof.
  destruct s as [|c r]; simpl; [reflexivity|].
  intros H. destruct (trimEnd r); [|exact H].
  destruct (isSpace c) eqn:E; [discriminate | simpl; rewrite E; reflexivity].
Qed.

Lemma trimEnd_idempotent (s : jsstring) : trimEnd (trimEnd s) = trimEnd s.
Proof.
  induction s as [|c r IH]; simpl; [reflexivity|].
  destruct (trimEnd r) as [|n k] eqn:E.
  - destruct (isSpace c) eqn:Ec; simpl; [reflexivity | rewrite Ec; reflexivity].
  - change (trimEnd (c :: n :: k)) with
      (match trimEnd (n :: k) with
       | [] => if isSpace c then [] else [c]
       | kept => c :: kept
       end).
    rewrite IH. reflexivity.
Qed.

Lemma trim_normal (s : jsstring) :
  headOk (trim s) = true /\ trimEnd (trim s) = trim s.
Proof.
  unfold trim; split.
  - apply trimEnd_headOk, trimStart_headOk.
  - apply trimEnd_idempotent.
Qed.

Lemma trim_id (s : jsstring) :
  headOk s = true -> trimEnd s = s -> trim s = s.
Proof. intros H1 H2; unfold trim; rewrite (trimStart_id _ H1); exact H2. Qed.

Section Collapse.

Local Notation "'collapse'" := (replaceRunsFrom isSpace 32).

Lemma collapse_headOk (b : bool) (s : jsstring) :
  headOk s = true -> headOk (collapse b s) = true.
Proof.
  destruct s as [|c r]; simpl; [reflexivity|].
  destruct (isSpace c) eqn:E; [discriminate|].
  intros _; simpl; rewrite E; reflexivity.
Qed.

Lemma collapse_nil (b : bool) (s : jsstring) :
  collapse b s = [] -> trimEnd s = [].
Proof.
  revert b; induction s as [|c r IH]; intros b; simpl; [reflexivity|].
  destruct (isSpace c) eqn:E.
  - destruct b; [|discriminate].
    intros H; rewrite (IH _ H); reflexivity.
  - discriminate.
Qed.

Lemma trimEnd_cons (c : N) (s : jsstring) :
  s <> [] -> trimEnd s = s -> trimEnd (c :: s) = c :: s.
Proof.
  intros Hne H; simpl; rewrite H.
  destruct s; [contradiction | reflexivity].
Qed.

Lemma collapse_trimEnd (b : bool) (s : jsstring) :
  trimEnd s = s -> trimEnd (collapse b s) = collapse b s.
Proof.
  revert b; induction s as [|c r IH]; intros b H; [reflexivity|].
  simpl in H. destruct (trimEnd r) as [|n k] eqn:E.
  - destruct (isSpace c) eqn:Ec; [discriminate|].
    injection H as <-. simpl. rewrite Ec. simpl. rewrite Ec. reflexivity.
  - injection H as Hr.
    assert (Er : trimEnd r = r) by congruence.
    assert (Hne : forall b', collapse b' r <> []).
    { intros b' Hnil. apply collapse_nil in Hnil. congruence. }
    cbn [replaceRunsFrom].
    destruct (isSpace c); [destruct b|];
      try (apply trimEnd_cons; [apply Hne|]); apply IH; assumption.
Qed.

Lemma collapse_collapsed (b : bool) (s : jsstring) :
  collapsed b (collapse b s) = true.
Proof.
  revert b; induction s as [|c r IH]; intros b; simpl; [reflexivity|].
  destruct (isSpace c) eqn:E.
  - destruct b; [apply IH|].
    simpl. apply IH.
  - simpl. rewrite E. apply IH.
Qed.

Lemma collapsed_fixpoint (b : bool) (s : jsstring) :
  collapsed b s = true -> collapse b s = s.
Proof.
  revert b; induction s as [|c r IH]; intros b; simpl; [reflexivity|].
  destruct (isSpace c) eqn:E.
  - rewrite !andb_true_iff, negb_true_iff, N.eqb_eq.
    intros [[-> ->] H]. f_equal. apply IH, H.
  - intros H. f_equal. apply IH, H.
Qed.

Lemma collapsed_no_newline (b b' : bool) (s : jsstring) :
  collapsed b s = true ->
  replaceRunsFrom (fun c => N.eqb c 10) 32 b' s = s.
Proof.
  revert b b'; induction s as [|c r IH]; intros b b'; simpl; [reflexivity|].
  destruct (N.eqb c 10) eqn:E10.
  - apply N.eqb_eq in E10; subst c. simpl.
    rewrite andb_false_r. discriminate.
  - destruct (isSpace c); intros H; f_equal.
    + apply andb_true_iff in H as [_ H]. eapply IH, H.
    + eapply IH, H.
Qed.

End Collapse.

Lemma normalForm_fixpoint (s : jsstring) :
  normalForm s ->
  replaceRuns (fun c => N.eqb c 10) 32 (replaceRuns isSpace 32 (trim s)) = s.
Proof.
  intros (Hh & Ht & Hc). rewrite (trim_id _ Hh Ht).
  unfold replaceRuns. rewrite (collapsed_fixpoint _ _ Hc).
  eapply collapsed_no_newline, Hc.
Qed.

Lemma normalForm_output (s : jsstring) :
  normalForm
    (replaceRuns (fun c => N.eqb c 10) 32 (replaceRuns isSpace 32 (trim s))).
Proof.
  unfold replaceRuns.
  rewrite (collapsed_no_newline false false _ (collapse_collapsed false (trim s))).
  destruct (trim_normal s) as [Hh Ht].
  repeat split.
  - apply collapse_headOk, Hh.
  - apply collapse_trimEnd, Ht.
  - apply collapse_collapsed.
Qed.

End StringFacts.

(** ** The pipeline of utils/jobProcessor.js *)

Module JobProcessorFacts.
Import Js JobProcessor Shapes Dedup StringFacts.

#[local] Hint Constructors Subseq : core.

Lemma Subseq_refl {A : Type} (l : list A) : Subseq l l.
Proof. induction l; auto. Qed.

Lemma Subseq_In {A : Type} (l1 l2 : list A) (x : A) :
  Subseq l1 l2 -> In x l1 -> In x l2.
Proof.
  induction 1 as [|y l1 l2 _ IH|y l1 l2 _ IH]; simpl; intuition.
Qed.

Lemma Subseq_filter {A : Type} (f : A -> bool) (l : list A) :
  Subseq (filter f l) l.
Proof. induction l as [|x l IH]; simpl; [|destruct (f x)]; auto. Qed.

Lemma Subseq_length {A : Type} (l1 l2 : list A) :
  Subseq l1 l2 -> (List.length l1 <= List.length l2)%nat.
Proof. induction 1; simpl; lia. Qed.

(** *** normalizeString *)

Lemma normalizeString_idempotent (v : field) :
  normalizeString (normalizeString v) = normalizeString v.
Proof.
  destruct v as [[|c r]|]; try reflexivity.
  pose proof (normalForm_output (c :: r)) as HN.
  change (normalizeString (Some (c :: r)))
    with (orNull (replaceRuns (fun c => N.eqb c 10) 32
                    (replaceRuns isSpace 32 (trim (c :: r))))).
  destruct (replaceRuns _ 32 (replaceRuns isSpace 32 (trim (c :: r))))
    as [|x xs]; [reflexivity|].
  unfold orNull, normalizeString.
  rewrite (normalForm_fixpoint _ HN). reflexivity.
Qed.

(** *** removeDuplicates *)

Lemma fold_dedupStep (d : string) (jobs : list Job) (seen : list field)
    (unique : list Job) :
  fold_left (dedupStep d) jobs (seen, unique)
  = (seen ++ map (dedupKey d) (firstOccurrences d seen jobs),
     unique ++ firstOccurrences d seen jobs).
Proof.
  revert seen unique; induction jobs as [|job rest IH]; intros seen unique.
  - simpl. rewrite !app_nil_r. reflexivity.
  - simpl. unfold dedupStep at 2. simpl.
    destruct (negb (truthy (dedupKey d job)) || has seen (dedupKey d job))%bool.
    + apply IH.
    + rewrite IH. simpl. rewrite <- !app_assoc. reflexivity.
Qed.

Lemma removeDuplicates_firstOccurrences (jobs : list Job) (d : string) :
  removeDuplicates jobs d = firstOccurrences d [] jobs.
Proof. unfold removeDuplicates. rewrite fold_dedupStep. reflexivity. Qed.

Lemma firstOccurrences_Subseq (d : string) (seen : list field)
    (jobs : list Job) :
  Subseq (firstOccurrences d seen jobs) jobs.
Proof.
  revert seen; induction jobs as [|job rest IH]; intros seen; simpl; auto.
  destruct (negb (truthy (dedupKey d job)) || has seen (dedupKey d job))%bool;
    auto.
Qed.

Lemma has_app (seen : list field) (x k : field) :
  has (seen ++ [x]) k = (has seen k || field_eqb k x)%bool.
Proof. unfold has. rewrite existsb_app. simpl. rewrite orb_false_r. reflexivity. Qed.

Lemma firstOccurrences_app (d : string) (seen : list field)
    (pre post : list Job) :
  firstOccurrences d seen (pre ++ post)
  = firstOccurrences d seen pre
    ++ firstOccurrences d
         (seen ++ map (dedupKey d) (firstOccurrences d seen pre)) post.
Proof.
  revert seen; induction pre as [|job rest IH]; intros seen; simpl.
  - rewrite app_nil_r. reflexivity.
  - destruct (negb (truthy (dedupKey d job)) || has seen (dedupKey d job))%bool.
    + apply IH.
    + simpl. rewrite IH, <- app_assoc. reflexivity.
Qed.

(** After a prefix, a truthy key has been seen exactly when it was seen
    before or is the key of a job of the prefix. *)
Lemma has_after_prefix (d : string) (pre : list Job) (seen : list field)
    (k : field) :
  truthy k = true ->
  has (seen ++ map (dedupKey d) (firstOccurrences d seen pre)) k
  = (has seen k || has (map (dedupKey d) pre) k)%bool.
Proof.
  intros Hk. revert seen; induction pre as [|job rest IH]; intros seen.
  - simpl. rewrite app_nil_r, orb_false_r. reflexivity.
  - simpl.
    destruct (negb (truthy (dedupKey d job)) || has seen (dedupKey d job))%bool
      eqn:E.
    + rewrite IH. destruct (field_eqb k (dedupKey d job)) eqn:Ek; [|reflexivity].
      apply field_eqb_eq in Ek; subst k. rewrite Hk in E. simpl in E.
      rewrite E. reflexivity.
    + simpl.
      replace (seen ++ dedupKey d job :: map (dedupKey d)
                 (firstOccurrences d (seen ++ [dedupKey d job]) rest))
        with ((seen ++ [dedupKey d job]) ++ map (dedupKey d)
                 (firstOccurrences d (seen ++ [dedupKey d job]) rest))
        by (rewrite <- app_assoc; reflexivity).
      rewrite IH, has_app, orb_assoc. reflexivity.
Qed.

Lemma fresh_firstOccurrences (d : string) (seen : list field) (l : list Job) :
  fresh d seen (firstOccurrences d seen l).
Proof.
  revert seen; induction l as [|job rest IH]; intros seen; simpl; [exact I|].
  destruct (negb (truthy (dedupKey d job)) || has seen (dedupKey d job))%bool
    eqn:E; [apply IH|].
  apply orb_false_iff in E as [E1 E2]. apply negb_false_iff in E1.
  simpl. auto.
Qed.

Lemma fresh_fixpoint (d : string) (seen : list field) (l : list Job) :
  fresh d seen l -> firstOccurrences d seen l = l.
Proof.
  revert seen; induction l as [|job rest IH]; intros seen; simpl; [reflexivity|].
  intros (H1 & H2 & H3). rewrite H1, H2. simpl. f_equal. apply IH, H3.
Qed.

Lemma fresh_weaken (d : string) (l : list Job) (seen seen' : list field) :
  (forall k, has seen' k = true -> has seen k = true) ->
  fresh d seen l -> fresh d seen' l.
Proof.
  revert seen seen'; induction l as [|job rest IH]; intros seen seen' Hsub;
    simpl; [auto|].
  intros (H1 & H2 & H3). repeat split; [exact H1| |].
  - destruct (has seen' (dedupKey d job)) eqn:E; [|reflexivity].
    apply Hsub in E. congruence.
  - eapply IH; [|exact H3]. intros k. rewrite !has_app, !orb_true_iff.
    intros [Hk|Hk]; auto.
Qed.

Lemma fresh_filter (d : string) (f : Job -> bool) (l : list Job)
    (seen : list field) :
  fresh d seen l -> fresh d seen (filter f l).
Proof.
  revert seen; induction l as [|job rest IH]; intros seen; simpl; [auto|].
  intros (H1 & H2 & H3). destruct (f job); simpl.
  - auto.
  - eapply fresh_weaken; [|apply IH, H3].
    intros k Hk. rewrite has_app, Hk. reflexivity.
Qed.

Lemma filter_all {A : Type} (f : A -> bool) (l : list A) :
  (forall x, In x l -> f x = true) -> filter f l = l.
Proof.
  induction l as [|x l IH]; simpl; intros H; [reflexivity|].
  rewrite (H x (or_introl eq_refl)). f_equal. apply IH. auto.
Qed.

Lemma map_fixpoint {A : Type} (f : A -> A) (l : list A) :
  (forall x, In x l -> f x = x) -> map f l = l.
Proof.
  induction l as [|x l IH]; simpl; intros H; [reflexivity|].
  rewrite (H x (or_introl eq_refl)). f_equal. apply IH. auto.
Qed.

End JobProcessorFacts.

(** ** Claims about the pipeline *)

Module PipelineClaims.
Import Js JobProcessor Shapes Dedup StringFacts JobProcessorFacts.

Lemma processJobs_jobs (resolveUrl : jsstring -> jsstring -> option jsstring)
    (l : list Job) (o : Options) :
  jobs (processJobs resolveUrl l o)
  = let deduped :=
      removeDuplicates (cleanJobs resolveUrl (baseUrl o) l) (dedupeBy o) in
    if removeInvalid o then filterValidJobs deduped else deduped.
Proof. unfold processJobs. destruct (removeInvalid o); reflexivity. Qed.

(** Neither count of removed jobs is negative. *)
Lemma processJobs_counts_nonneg
    (resolveUrl : jsstring -> jsstring -> option jsstring)
    (l : list Job) (o : Options) :
  (0 <= duplicates (stats (processJobs resolveUrl l o))
   /\ 0 <= invalid (stats (processJobs resolveUrl l o)))%Z.
Proof.
  unfold processJobs, len.
  pose proof (Subseq_length _ _
    (firstOccurrences_Subseq (dedupeBy o) []
       (cleanJobs resolveUrl (baseUrl o) l))) as H1.
  rewrite <- removeDuplicates_firstOccurrences in H1.
  destruct (removeInvalid o); simpl; [|lia].
  pose proof (Subseq_length _ _
    (Subseq_filter isValidJob
       (removeDuplicates (cleanJobs resolveUrl (baseUrl o) l) (dedupeBy o))))
    as H2.
  unfold filterValidJobs. lia.
Qed.

(** C3. For every fragment list, base URL and dedup key choice, with
    invalid jobs removed, the statistics of [processJobs] add up: the final
    count plus the duplicates removed plus the invalid jobs removed is the
    original count. *)
Theorem processJobs_counts_add_up
    (resolveUrl : jsstring -> jsstring -> option jsstring)
    (l : list Job) (base : jsstring) (key : string) :
  let s :=
    stats (processJobs resolveUrl l
             {| baseUrl := base; dedupeBy := key; removeInvalid := true |}) in
  (final s + duplicates s + invalid s = original s)%Z.
Proof.
  unfold processJobs, len, cleanJobs; simpl.
  rewrite length_map. lia.
Qed.

(** C5, as the claim states it, fails: with the default key a posting
    that has no job id is dropped although no earlier posting shares its
    key (it is the only one). *)
Lemma removeDuplicates_drops_missing_key :
  removeDuplicates [Sample.withoutId] "jobId" = []
  /\ has (map (dedupKey "jobId") []) (dedupKey "jobId" Sample.withoutId)
     = false.
Proof. split; reflexivity. Qed.

(** C5, amended. For every job list and every dedup key choice, the
    output of [removeDuplicates] is a subsequence of the input, and a job
    is kept exactly when its key is truthy and is not the key of a job
    before it: later occurrences of a key and jobs whose key is missing or
    empty are dropped, nothing else. *)
Theorem removeDuplicates_keeps_first_occurrences (l : list Job) (d : string) :
  Subseq (removeDuplicates l d) l
  /\ forall (pre : list Job) (job : Job) (post : list Job),
       l = pre ++ job :: post ->
       exists post',
         Subseq post' post
         /\ removeDuplicates l d
            = removeDuplicates pre d
              ++ (if (truthy (dedupKey d job)
                      && negb (has (map (dedupKey d) pre) (dedupKey d job)))%bool
                  then [job] else [])
              ++ post'.
Proof.
  split.
  - rewrite removeDuplicates_firstOccurrences. apply firstOccurrences_Subseq.
  - intros pre job post ->.
    rewrite !removeDuplicates_firstOccurrences, firstOccurrences_app.
    simpl app at 2.
    remember (map (dedupKey d) (firstOccurrences d [] pre)) as seen eqn:Hseen.
    cbn [firstOccurrences].
    destruct (truthy (dedupKey d job)) eqn:Hk; simpl.
    + pose proof (has_after_prefix d pre [] _ Hk) as Hhas.
      simpl in Hhas. rewrite <- Hseen in Hhas. rewrite Hhas.
      destruct (has (map (dedupKey d) pre) (dedupKey d job)); simpl;
        eexists; (split; [apply firstOccurrences_Subseq | reflexivity]).
    + eexists; split; [apply firstOccurrences_Subseq | reflexivity].
Qed.

Lemma filter_idempotent {A : Type} (f : A -> bool) (l : list A) :
  filter f (filter f l) = filter f l.
Proof. apply filter_all. intros x Hx. apply filter_In in Hx. tauto. Qed.

(** A cleaned job is a fixpoint of [cleanJob] as soon as its company, its
    location and its URL are fixpoints of their own normalisers: the other
    fields always are. *)
Lemma cleanJob_fixpoint (resolveUrl : jsstring -> jsstring -> option jsstring)
    (base : jsstring) (raw : Job) :
  let job := cleanJob resolveUrl base raw in
  normalizeCompanyName (company job) = company job ->
  normalizeLocation (location job) = location job ->
  absoluteUrl resolveUrl (jobUrl job) base = jobUrl job ->
  cleanJob resolveUrl base job = job.
Proof.
  intros job Hc Hl Hu. subst job. unfold cleanJob in *. simpl in *.
  rewrite Hc, Hl, Hu, !normalizeString_idempotent, filter_idempotent.
  reflexivity.
Qed.

(** Where company, location and URL of the jobs [processJobs] returned are
    fixpoints of their normalisers, a second run returns the same list and
    removes nothing. *)
Lemma processJobs_idempotent_on_fixpoints
    (resolveUrl : jsstring -> jsstring -> option jsstring)
    (l : list Job) (o : Options) :
  let out := jobs (processJobs resolveUrl l o) in
  Forall (fun job =>
            normalizeCompanyName (company job) = company job
            /\ normalizeLocation (location job) = location job
            /\ absoluteUrl resolveUrl (jobUrl job) (baseUrl o) = jobUrl job)
         out ->
  processJobs resolveUrl out o
  = {| jobs := out;
       stats := {| original := len out; duplicates := 0; invalid := 0;
                   final := len out |} |}.
Proof.
  intros out Hfix.
  pose proof (processJobs_jobs resolveUrl l o) as Hout. fold out in Hout.
  cbv zeta in Hout.
  set (cleaned := cleanJobs resolveUrl (baseUrl o) l) in *.
  set (deduped := removeDuplicates cleaned (dedupeBy o)) in *.
  assert (Hsub : Subseq out cleaned).
  { assert (Hd : Subseq deduped cleaned).
    { unfold deduped. rewrite removeDuplicates_firstOccurrences.
      apply firstOccurrences_Subseq. }
    rewrite Hout. destruct (removeInvalid o); [|exact Hd].
    clear - Hd. unfold filterValidJobs.
    induction Hd as [|x l1 l2 _ IH|x l1 l2 _ IH]; simpl;
      [constructor | destruct (isValidJob x); constructor; exact IH
      | constructor; exact IH]. }
  assert (Hfresh : fresh (dedupeBy o) [] out).
  { assert (Hd : fresh (dedupeBy o) [] deduped).
    { unfold deduped. rewrite removeDuplicates_firstOccurrences.
      apply fresh_firstOccurrences. }
    rewrite Hout. destruct (removeInvalid o); [|exact Hd].
    apply fresh_filter, Hd. }
  assert (Hclean : cleanJobs resolveUrl (baseUrl o) out = out).
  { apply map_fixpoint. intros x Hx.
    pose proof (Subseq_In _ _ x Hsub Hx) as Hin.
    apply in_map_iff in Hin as (raw & <- & _).
    rewrite Forall_forall in Hfix.
    destruct (Hfix _ Hx) as (Hc & Hl & Hu).
    apply cleanJob_fixpoint; assumption. }
  assert (Hdedup : removeDuplicates out (dedupeBy o) = out).
  { rewrite removeDuplicates_firstOccurrences. apply fresh_fixpoint, Hfresh. }
  unfold processJobs. rewrite Hclean, Hdedup.
  destruct (removeInvalid o) eqn:Hinv.
  - assert (Hvalid : filterValidJobs out = out).
    { rewrite Hout. apply filter_idempotent. }
    rewrite Hvalid, Z.sub_diag. reflexivity.
  - rewrite Z.sub_diag. reflexivity.
Qed.

(** A job with a job id and a URL has a key, whatever [dedupeBy] is. *)
Lemma dedupKey_truthy (d : string) (job : Job) :
  truthy (jobId job) = true -> truthy (jobUrl job) = true ->
  truthy (dedupKey d job) = true.
Proof.
  intros Hid Hurl. unfold dedupKey, orElse.
  destruct (String.eqb d "jobId"); [exact Hid|].
  destruct (String.eqb d "jobUrl"); [exact Hurl|].
  destruct (String.eqb d "both"); [|rewrite Hid; exact Hid].
  destruct (template (jobId job)); reflexivity.
Qed.

(** [processJobs] on one job that has a job id, a URL and a title, once
    cleaned: the cleaned job is returned. *)
Lemma processJobs_single
    (resolveUrl : jsstring -> jsstring -> option jsstring)
    (raw : Job) (o : Options) :
  let job := cleanJob resolveUrl (baseUrl o) raw in
  truthy (jobId job) = true -> truthy (jobUrl job) = true ->
  truthy (title job) = true ->
  jobs (processJobs resolveUrl [raw] o) = [job].
Proof.
  intros job Hid Hurl Htitle.
  rewrite processJobs_jobs. cbv zeta.
  change (cleanJobs resolveUrl (baseUrl o) [raw]) with [job].
  assert (Hd : removeDuplicates [job] (dedupeBy o) = [job]).
  { rewrite removeDuplicates_firstOccurrences. cbn [firstOccurrences].
    rewrite (dedupKey_truthy _ _ Hid Hurl). reflexivity. }
  rewrite Hd. destruct (removeInvalid o); [|reflexivity].
  unfold filterValidJobs. cbn [filter]. unfold isValidJob.
  rewrite Htitle, Hurl. reflexivity.
Qed.

(** C4 on the default options and a platform without [URL]: the first run
    leaves two spaces where the review count of the company stood and one
    of the two leading "in" of the location, and the second run changes
    both. *)
Lemma processJobs_second_run_differs :
  let once := jobs (processJobs Sample.noUrl [Sample.reviewed] defaultOptions) in
  let twice := jobs (processJobs Sample.noUrl once defaultOptions) in
  map company once = [Some (lit "Acme  Inc")]
  /\ map company twice = [Some (lit "Acme Inc")]
  /\ map location once = [Some (lit "in Pune")]
  /\ map location twice = [Some (lit "Pune")]
  /\ twice <> once.
Proof.
  vm_compute. repeat split. discriminate.
Qed.

(** C4 fails of the code. On every platform and with every base URL,
    dedup key choice and setting of [removeInvalid], [processJobs] turns
    the company 'Acme (123 reviews) Inc' into 'Acme  Inc', with the two
    spaces that [normalizeString] exists to collapse, and the location
    'in in Pune' into 'in Pune'; run on that output it returns another
    list, with 'Acme Inc' and 'Pune'. *)
Theorem processJobs_second_run_changes_fields
    (resolveUrl : jsstring -> jsstring -> option jsstring) (o : Options) :
  let once := jobs (processJobs resolveUrl [Sample.reviewed] o) in
  let twice := jobs (processJobs resolveUrl once o) in
  map company once = [Some (lit "Acme  Inc")]
  /\ map normalizeString (map company once) = [Some (lit "Acme Inc")]
  /\ map company twice = [Some (lit "Acme Inc")]
  /\ map location once = [Some (lit "in Pune")]
  /\ map location twice = [Some (lit "Pune")]
  /\ twice <> once.
Proof.
  cbv zeta.
  rewrite (processJobs_single resolveUrl Sample.reviewed o)
    by (vm_compute; reflexivity).
  rewrite (processJobs_single resolveUrl _ o) by (vm_compute; reflexivity).
  repeat split; try (vm_compute; reflexivity).
  intros E. apply (f_equal (map company)) in E. vm_compute in E.
  discriminate.
Qed.

End PipelineClaims.

(** ** Claims about validateParams *)

Module ValidationClaims.
Import Js Scraper Checks.

Lemma notAString_false (v : value) :
  notAString v = false <-> nonEmptyString v.
Proof.
  unfold notAString, nonEmptyString.
  destruct v as [| |b|z|[|c s]|m e| |n]; simpl; rewrite ?orb_true_r;
    (split; [try discriminate | try (intros (c' & s' & H); discriminate)]).
  - intros _; eauto.
  - reflexivity.
Qed.

Lemma requiredStrings_nil (p : Params) :
  requiredStrings p = []
  <-> nonEmptyString (keyword p) /\ nonEmptyString (location p).
Proof.
  unfold requiredStrings. rewrite <- !notAString_false.
  destruct (notAString (keyword p)), (notAString (location p)); simpl;
    split; try discriminate; try tauto; intros [H1 H2]; discriminate.
Qed.

Lemma isValid_validation (a b : list string) :
  isValid (validation (a ++ b)) = true <-> a = [] /\ b = [].
Proof.
  destruct a, b; simpl; split; try discriminate; try tauto;
    intros [H1 H2]; discriminate.
Qed.

Lemma indeed_check_nil (v : value) :
  (if (valueTruthy v && (negb (isNumber v) || numberBelow v 1))%bool
   then ["maxPages must be a positive number"%string] else []) = []
  <-> indeedPagesOk v.
Proof.
  unfold indeedPagesOk.
  destruct v as [| |b|z|s|m e| |n];
    cbn [valueTruthy isNumber numberBelow atLeastOne negb andb orb].
  - split; [left; reflexivity | reflexivity].
  - split; [left; reflexivity | reflexivity].
  - destruct b; simpl.
    + split; [discriminate | intros [H|[]]; discriminate].
    + split; [left; reflexivity | reflexivity].
  - destruct (Z.eqb_spec z 0) as [->|Hz]; simpl.
    + split; [left; reflexivity | reflexivity].
    + destruct (Z.ltb_spec z 1) as [Hlt|Hge].
      * split; [discriminate|]. intros [H|H]; [discriminate | lia].
      * split; [|reflexivity]. intros _. right. exact Hge.
  - destruct s; simpl.
    + split; [left; reflexivity | reflexivity].
    + split; [discriminate | intros [H|[]]; discriminate].
  - destruct (Z.eqb_spec m 0) as [->|Hm]; cbn [negb andb orb].
    + split; [left; reflexivity | reflexivity].
    + rewrite Z.mul_1_l. destruct (Z.ltb_spec m (10 ^ Z.pos e)) as [Hlt|Hge].
      * split; [discriminate|]. intros [H|H]; [discriminate | lia].
      * split; [|reflexivity]. intros _. right. exact Hge.
  - split; [left; reflexivity | reflexivity].
  - destruct n; simpl.
    + split; [discriminate | intros [H|H]; discriminate].
    + split; [|reflexivity]. intros _. right. reflexivity.
Qed.

Lemma indeed_valid_iff (p : Params) :
  isValid (IndeedScraper.validateParams p) = true
  <-> nonEmptyString (keyword p) /\ nonEmptyString (location p)
      /\ indeedPagesOk (maxPages p).
Proof.
  unfold IndeedScraper.validateParams.
  rewrite isValid_validation, requiredStrings_nil, indeed_check_nil. tauto.
Qed.

Lemma naukri_check_nil (v : value) :
  (if negb (isUndefined v) then
     match parseInt v with
     | None => ["maxPages must be a number between 1 and 20"%string]
     | Some n =>
         if ((n <? 1) || (20 <? n))%Z%bool
         then ["maxPages must be a number between 1 and 20"%string]
         else []
     end
   else []) = []
  <-> naukriPagesOk v.
Proof.
  unfold naukriPagesOk.
  destruct (isUndefined v) eqn:Eu; simpl.
  - destruct v; try discriminate. intuition.
  - assert (Hv : v <> VUndefined) by (intros ->; discriminate).
    destruct (parseInt v) as [n|].
    + destruct (Z.ltb_spec n 1); simpl.
      * split; [discriminate|]. intros [?|(m & Hm & Hr)]; [contradiction|].
        injection Hm as <-. lia.
      * destruct (Z.ltb_spec 20 n); simpl.
        -- split; [discriminate|]. intros [?|(m & Hm & Hr)]; [contradiction|].
           injection Hm as <-. lia.
        -- split; [|reflexivity]. intros _. right. exists n. split; [reflexivity|lia].
    + split; [discriminate|]. intros [?|(m & Hm & _)]; [contradiction|discriminate].
Qed.

Lemma naukri_valid_iff (p : Params) :
  isValid (NaukriScraper.validateParams p) = true
  <-> nonEmptyString (keyword p) /\ nonEmptyString (location p)
      /\ naukriPagesOk (maxPages p).
Proof.
  unfold NaukriScraper.validateParams.
  rewrite isValid_validation, requiredStrings_nil, naukri_check_nil. tauto.
Qed.

(** The check of the page count writes its message whenever it fails. *)
Lemma naukri_check_message (p : Params) :
  ~ naukriPagesOk (maxPages p) ->
  In "maxPages must be a number between 1 and 20"%string
    (errorList (NaukriScraper.validateParams p)).
Proof.
  intros Hno. unfold NaukriScraper.validateParams, validation.
  cbn [errorList]. apply in_or_app. right.
  pose proof (naukri_check_nil (maxPages p)) as Hc.
  destruct (negb (isUndefined (maxPages p))).
  - destruct (parseInt (maxPages p)) as [n|]; [|left; reflexivity].
    destruct ((n <? 1) || (20 <? n))%Z%bool; [left; reflexivity|].
    exfalso. apply Hno, Hc. reflexivity.
  - exfalso. apply Hno, Hc. reflexivity.
Qed.

(** The first digit of a positive integer is a digit from 1 to 9. *)
Lemma leadingDigitFrom_digit (fuel : nat) (a : Z) :
  (1 <= a < 2 ^ Z.of_nat fuel)%Z ->
  (1 <= leadingDigitFrom fuel a <= 9)%Z.
Proof.
  revert a; induction fuel as [|f IH]; intros a Ha.
  - change (2 ^ Z.of_nat 0)%Z with 1%Z in Ha. lia.
  - cbn [leadingDigitFrom]. destruct (Z.ltb_spec a 10) as [Hlt|Hge]; [lia|].
    apply IH. rewrite Nat2Z.inj_succ, Z.pow_succ_r in Ha by lia.
    split.
    + apply Z.div_le_lower_bound; lia.
    + apply Z.div_lt_upper_bound; lia.
Qed.

Lemma leadingDigit_digit (a : Z) :
  (1 <= a)%Z -> (1 <= leadingDigit a <= 9)%Z.
Proof.
  intros Ha. unfold leadingDigit. apply leadingDigitFrom_digit.
  split; [exact Ha|].
  rewrite Nat2Z.inj_succ, Z2Nat.id by apply Z.log2_nonneg.
  apply Z.log2_spec. lia.
Qed.

(** [parseInt] on numbers: [parseInt(20.5)], [parseInt(-20.5)],
    [parseInt(0.0000015)], [parseInt(5e-7)], [parseInt(1e21)] and
    [parseInt(-3e21)]. *)
Lemma parseInt_of_numbers :
  parseInt (VDec 205 1) = Some 20%Z
  /\ parseInt (VDec (-205) 1) = Some (-20)%Z
  /\ parseInt (VDec 15 7) = Some 0%Z
  /\ parseInt (VDec 5 7) = Some 5%Z
  /\ parseInt (VNum (10 ^ 21)) = Some 1%Z
  /\ parseInt (VNum (-3 * 10 ^ 21)) = Some (-3)%Z.
Proof. repeat split; vm_compute; reflexivity. Qed.

(** How the check of the Naukri adapters reads an integer: from 1 to 20,
    or in exponent form with a positive sign. *)
Lemma naukriPagesOk_integer (z : Z) :
  naukriPagesOk (VNum z) <-> (1 <= z <= 20)%Z \/ (10 ^ 21 <= z)%Z.
Proof.
  unfold naukriPagesOk. cbn [parseInt].
  remember (10 ^ 21)%Z as big eqn:Hbig.
  assert (Hb : (20 < big)%Z) by (subst big; reflexivity).
  destruct (Z.ltb_spec (Z.abs z) big) as [Hlt|Hge].
  - split.
    + intros [H|(n & Hn & Hr)]; [discriminate|]. injection Hn as <-.
      left. exact Hr.
    + intros [H|H]; [|lia]. right. exists z. split; [reflexivity | exact H].
  - pose proof (leadingDigit_digit (Z.abs z) ltac:(lia)) as Hd.
    split.
    + intros [H|(n & Hn & Hr)]; [discriminate|]. injection Hn as <-.
      right. destruct (Z.sgn_spec z) as [[Hz E]|[[Hz E]|[Hz E]]];
        rewrite E in Hr; lia.
    + intros [H|H]; [lia|]. right. eexists. split; [reflexivity|].
      rewrite Z.sgn_pos by lia. lia.
Qed.

(** How it reads a number written with decimals: from 1 up to 21, or in
    exponent form with a positive sign, that is from 1e21 on or below
    1e-6. *)
Lemma naukriPagesOk_decimal (m : Z) (e : positive) :
  naukriPagesOk (VDec m e)
  <-> (10 ^ Z.pos e <= m < 21 * 10 ^ Z.pos e)%Z
      \/ (10 ^ 21 * 10 ^ Z.pos e <= m)%Z
      \/ (0 < m /\ m * 10 ^ 6 < 10 ^ Z.pos e)%Z.
Proof.
  unfold naukriPagesOk. cbn [parseInt]. cbv zeta.
  remember (10 ^ 21)%Z as big eqn:Hbig.
  assert (Hb : (21 < big)%Z) by (subst big; reflexivity).
  remember (10 ^ 6)%Z as small eqn:Hsmall.
  assert (Hs : (0 < small)%Z) by (subst small; reflexivity).
  remember (10 ^ Z.pos e)%Z as unit eqn:Hunit.
  assert (Hu : (0 < unit)%Z) by (subst unit; apply Z.pow_pos_nonneg; lia).
  destruct (Z.eqb_spec (Z.abs m) 0) as [H0|H0].
  - split.
    + intros [H|(n & Hn & Hr)]; [discriminate|]. injection Hn as <-. lia.
    + intros [H|[H|H]]; nia.
  - pose proof (leadingDigit_digit (Z.abs m) ltac:(lia)) as Hd.
    destruct (Z.ltb_spec (Z.abs m * small) unit) as [Htiny|Hnot];
      [|destruct (Z.leb_spec (big * unit) (Z.abs m)) as [Hhuge|Hplain]];
      cbn [orb].
    + split.
      * intros [H|(n & Hn & Hr)]; [discriminate|]. injection Hn as <-.
        destruct (Z.sgn_spec m) as [[Hz E]|[[Hz E]|[Hz E]]];
          rewrite E in Hr; lia.
      * intros [H|[H|H]]; try nia.
        right. eexists. split; [reflexivity|].
        rewrite Z.sgn_pos by lia. lia.
    + split.
      * intros [H|(n & Hn & Hr)]; [discriminate|]. injection Hn as <-.
        destruct (Z.sgn_spec m) as [[Hz E]|[[Hz E]|[Hz E]]];
          rewrite E in Hr; lia.
      * intros [H|[H|H]]; try nia.
        right. eexists. split; [reflexivity|].
        rewrite Z.sgn_pos by nia. lia.
    + destruct (Z.lt_ge_cases m 0) as [Hneg|Hpos].
      * assert (Hq : (Z.quot m unit <= 0)%Z).
        { replace m with (- (- m))%Z by lia.
          rewrite Z.quot_opp_l by lia.
          pose proof (Z.quot_pos (- m) unit ltac:(lia) Hu). lia. }
        split.
        -- intros [H|(n & Hn & Hr)]; [discriminate|]. injection Hn as <-. lia.
        -- intros [H|[H|H]]; nia.
      * rewrite Z.quot_div_nonneg by lia.
        rewrite Z.abs_eq in * by lia.
        split.
        -- intros [H|(n & Hn & Hr)]; [discriminate|]. injection Hn as <-.
           left.
           pose proof (Z.mul_div_le m unit Hu).
           pose proof (Z.mul_succ_div_gt m unit Hu). nia.
        -- intros [[H1 H2]|[H|H]]; try nia.
           right. eexists. split; [reflexivity|]. split.
           ++ apply Z.div_le_lower_bound; lia.
           ++ assert (m / unit < 21)%Z
                by (apply Z.div_lt_upper_bound; lia). lia.
Qed.

(** C7, as the claim states it, fails: the Indeed adapter accepts 21
    pages, and reports no error. *)
Lemma indeed_validateParams_accepts_21_pages :
  IndeedScraper.validateParams
    {| keyword := VStr (lit "engineer"); location := VStr (lit "Pune");
       maxPages := VNum 21 |}
  = {| isValid := true; errorList := [] |}.
Proof. reflexivity. Qed.

(** C7, amended. Every adapter requires keyword and location to be
    non-empty strings. The Naukri adapters accept a page count exactly when
    it is absent or [parseInt] reads a number from 1 to 20 at the front of
    its string form, and write the message of that bound otherwise. Of a
    number [parseInt] reads the integer part, or the first digit when the
    number prints in exponent form: the numbers accepted are those from 1
    up to, but not including, 21 (20.5 passes, 21 does not), those from
    1e21 on and the positive ones below 1e-6; [NaN] and the infinities are
    rejected. The Indeed adapters accept a page count exactly when it is
    falsy or a number that is at least 1, with no upper bound. *)
Theorem validateParams_accepts_exactly (p : Params) :
  (isValid (NaukriScraper.validateParams p) = true
   <-> nonEmptyString (keyword p) /\ nonEmptyString (location p)
       /\ naukriPagesOk (maxPages p))
  /\ (isValid (PlaywrightNaukriScraper.validateParams p) = true
      <-> nonEmptyString (keyword p) /\ nonEmptyString (location p)
          /\ naukriPagesOk (maxPages p))
  /\ (isValid (IndeedScraper.validateParams p) = true
      <-> nonEmptyString (keyword p) /\ nonEmptyString (location p)
          /\ indeedPagesOk (maxPages p))
  /\ (isValid (PlaywrightIndeedScraper.validateParams p) = true
      <-> nonEmptyString (keyword p) /\ nonEmptyString (location p)
          /\ indeedPagesOk (maxPages p))
  /\ (~ naukriPagesOk (maxPages p) ->
      In "maxPages must be a number between 1 and 20"%string
        (errorList (NaukriScraper.validateParams p))
      /\ In "maxPages must be a number between 1 and 20"%string
           (errorList (PlaywrightNaukriScraper.validateParams p)))
  /\ (forall z, naukriPagesOk (VNum z)
                <-> (1 <= z <= 20)%Z \/ (10 ^ 21 <= z)%Z)
  /\ (forall m e, naukriPagesOk (VDec m e)
                  <-> (10 ^ Z.pos e <= m < 21 * 10 ^ Z.pos e)%Z
                      \/ (10 ^ 21 * 10 ^ Z.pos e <= m)%Z
                      \/ (0 < m /\ m * 10 ^ 6 < 10 ^ Z.pos e)%Z)
  /\ ~ naukriPagesOk VNaN
  /\ (forall negative, ~ naukriPagesOk (VInfinity negative)).
Proof.
  split; [apply naukri_valid_iff|].
  split; [apply naukri_valid_iff|].
  split; [apply indeed_valid_iff|].
  split; [apply indeed_valid_iff|].
  split; [intros Hno; split; apply naukri_check_message, Hno|].
  split; [apply naukriPagesOk_integer|].
  split; [apply naukriPagesOk_decimal|].
  split.
  - intros [H|(n & Hn & _)]; discriminate.
  - intros negative [H|(n & Hn & _)]; discriminate.
Qed.

(** The amended C7 on requests for 21, for 20.5 and for 1e21 pages. *)
Lemma validateParams_accepts_exactly_witness :
  let request := fun pages =>
    {| keyword := VStr (lit "engineer"); location := VStr (lit "Pune");
       maxPages := pages |} in
  isValid (NaukriScraper.validateParams (request (VNum 21))) = false
  /\ isValid (IndeedScraper.validateParams (request (VNum 21))) = true
  /\ isValid (NaukriScraper.validateParams (request (VDec 205 1))) = true
  /\ isValid (NaukriScraper.validateParams (request (VNum (10 ^ 21)))) = true.
Proof.
  cbv zeta.
  assert (Hk : nonEmptyString (VStr (lit "engineer")))
    by (do 2 eexists; reflexivity).
  assert (Hl : nonEmptyString (VStr (lit "Pune")))
    by (do 2 eexists; reflexivity).
  pose proof (validateParams_accepts_exactly
                {| keyword := VStr (lit "engineer");
                   location := VStr (lit "Pune"); maxPages := VNum 21 |})
    as (N21 & _ & I21 & _ & _ & Hint & Hdec & _).
  pose proof (validateParams_accepts_exactly
                {| keyword := VStr (lit "engineer");
                   location := VStr (lit "Pune"); maxPages := VDec 205 1 |})
    as (Ndec & _).
  pose proof (validateParams_accepts_exactly
                {| keyword := VStr (lit "engineer");
                   location := VStr (lit "Pune");
                   maxPages := VNum (10 ^ 21) |})
    as (Nbig & _).
  cbn [keyword location maxPages] in N21, I21, Ndec, Nbig.
  split.
  { destruct (isValid (NaukriScraper.validateParams _)); [|reflexivity].
    destruct N21 as [N21 _]. destruct (N21 eq_refl) as (_ & _ & H).
    apply Hint in H. assert (21 < 10 ^ 21)%Z by reflexivity. lia. }
  split.
  { apply I21. repeat split; [exact Hk | exact Hl|]. right. simpl. lia. }
  split.
  { apply Ndec. repeat split; [exact Hk | exact Hl|].
    apply Hdec. left. split; [discriminate | reflexivity]. }
  apply Nbig. repeat split; [exact Hk | exact Hl|].
  apply Hint. right. apply Z.le_refl.
Defined.

(** C10. The Indeed adapters, in either mode, accept a page count of 0
    whenever keyword and location are non-empty strings: the check of the
    page count is skipped for a falsy value. *)
Theorem indeed_validateParams_accepts_zero_pages (k l : jsstring) :
  k <> [] -> l <> [] ->
  let p := {| keyword := VStr k; location := VStr l; maxPages := VNum 0 |} in
  isValid (IndeedScraper.validateParams p) = true
  /\ isValid (PlaywrightIndeedScraper.validateParams p) = true.
Proof.
  intros Hk Hl.
  destruct k as [|kc ks]; [contradiction|].
  destruct l as [|lc ls]; [contradiction|].
  split; reflexivity.
Qed.

Lemma indeed_validateParams_accepts_zero_pages_witness :
  let p := {| keyword := VStr (lit "engineer"); location := VStr (lit "Pune");
              maxPages := VNum 0 |} in
  isValid (IndeedScraper.validateParams p) = true
  /\ isValid (PlaywrightIndeedScraper.validateParams p) = true.
Proof.
  apply (indeed_validateParams_accepts_zero_pages (lit "engineer") (lit "Pune"));
    discriminate.
Defined.

End ValidationClaims.

(** ** Claims about the extractors *)

Module ExtractionClaims.
Import Js Dom JobProcessor Scraper Cards.

(** A loop that pushes [f x] for the elements that pass [g]. *)
Lemma fold_push {A B : Type} (f : A -> B) (g : A -> bool) (l : list A)
    (acc : list B) :
  fold_left (fun acc x => if g x then acc ++ [f x] else acc) l acc
  = acc ++ map f (filter g l).
Proof.
  revert acc; induction l as [|x l IH]; intros acc; simpl.
  - rewrite app_nil_r. reflexivity.
  - rewrite IH. destruct (g x); simpl; [rewrite <- app_assoc|]; reflexivity.
Qed.

(** C8, as the claim states it, fails: the browser-mode Indeed extractor
    resolves the title of this card and still leaves the card out, while
    the HTTP-mode extractor includes it. *)
Lemma pwIndeed_skips_card_without_company :
  title (PlaywrightIndeedScraper.cardJob [] (lit "https://in.indeed.com")
           titleOnly)
  = Some (lit "Engineer")
  /\ PlaywrightIndeedScraper.extractFrom [] (pageOf [titleOnly]) = []
  /\ List.length
       (IndeedScraper.parseJobListings
          {| IndeedScraper.baseUrl := lit "https://in.indeed.com";
             IndeedScraper.maxRetries := 3 |}
          (pageOf [titleOnly])) = 1%nat.
Proof. vm_compute. repeat split. Qed.

(** C8, amended. IndeedScraper, NaukriScraper and PlaywrightNaukriScraper
    turn the matched cards, in order, into jobs and keep exactly those
    with a non-empty title or company; PlaywrightIndeedScraper keeps
    exactly those with a non-empty title and a non-empty company. No card
    makes an extractor fail. *)
Theorem extractors_keep_cards_with_title_or_company
    (indeed : IndeedScraper.Config) (naukri : NaukriScraper.Config)
    (now : jsstring) (doc : Document) :
  IndeedScraper.parseJobListings indeed doc
  = filter titleOrCompany
      (map (IndeedScraper.cardJob indeed)
         (firstMatching doc IndeedScraper.jobCardSelectors []))
  /\ NaukriScraper.parseJobListings naukri now doc
     = filter titleOrCompany
         (map (NaukriScraper.cardJob naukri now)
            (firstMatching doc NaukriScraper.jobCardSelectors []))
  /\ PlaywrightNaukriScraper.extractFrom now doc
     = filter titleOrCompany
         (map (PlaywrightNaukriScraper.cardJob now)
            (select doc PlaywrightNaukriScraper.cardSelector))
  /\ PlaywrightIndeedScraper.extractFrom now doc
     = filter titleAndCompany
         (map (PlaywrightIndeedScraper.cardJob now (origin doc))
            (firstMatching doc PlaywrightIndeedScraper.selectors [])).
Proof.
  assert (Hfm : forall (A B : Type) (f : A -> B) (g : B -> bool) (l : list A),
             map f (filter (fun x => g (f x)) l) = filter g (map f l)).
  { intros A B f g l. induction l as [|x l IH]; simpl; [reflexivity|].
    destruct (g (f x)); simpl; rewrite IH; reflexivity. }
  repeat split.
  - rewrite <- Hfm.
    exact (fold_push (IndeedScraper.cardJob indeed)
             (fun c => titleOrCompany (IndeedScraper.cardJob indeed c)) _ []).
  - rewrite <- Hfm.
    exact (fold_push (NaukriScraper.cardJob naukri now)
             (fun c => titleOrCompany (NaukriScraper.cardJob naukri now c))
             _ []).
  - rewrite <- Hfm.
    exact (fold_push (PlaywrightNaukriScraper.cardJob now)
             (fun c => titleOrCompany (PlaywrightNaukriScraper.cardJob now c))
             _ []).
  - rewrite <- Hfm.
    exact (fold_push (PlaywrightIndeedScraper.cardJob now (origin doc))
             (fun c => titleAndCompany
                         (PlaywrightIndeedScraper.cardJob now (origin doc) c))
             _ []).
Qed.

End ExtractionClaims.

(** ** Claims about the browser-mode adapters *)

Module BrowserClaims.
Import Js Dom Net JobProcessor Scraper Observed.

Lemma handles_withStats (f : Stats -> Stats) (i : Instance) :
  handles (withStats f i) = handles i.
Proof. reflexivity. Qed.

Lemma pwIndeed_pageBody_handles (world : World) (params : Typed.Params)
    (limit page : Z) (run : PlaywrightIndeedScraper.Run) :
  handles (PlaywrightIndeedScraper.instance
             (snd (PlaywrightIndeedScraper.pageBody world params limit page run)))
  = handles (PlaywrightIndeedScraper.instance run).
Proof.
  unfold PlaywrightIndeedScraper.pageBody.
  destruct (calculateStartIndex (page + 1)) as [start|e]; [|reflexivity].
  destruct (buildIndeedSearchUrl _ _ start) as [url|e]; [|reflexivity].
  unfold PlaywrightIndeedScraper.navigateToUrl.
  destruct (goto world url); [reflexivity|].
  destruct (waitForSelector world url); simpl; [|reflexivity].
  unfold PlaywrightIndeedScraper.extractJobListings.
  destruct (evaluate world url); reflexivity.
Qed.

Lemma pwIndeed_pages_handles (world : World) (params : Typed.Params)
    (limit : Z) (remaining : nat) (page : Z)
    (run : PlaywrightIndeedScraper.Run) :
  handles (PlaywrightIndeedScraper.instance
             (snd (PlaywrightIndeedScraper.pages world params limit remaining
                     page run)))
  = handles (PlaywrightIndeedScraper.instance run).
Proof.
  revert page run; induction remaining as [|k IH]; intros page run;
    [reflexivity|].
  simpl.
  pose proof (pwIndeed_pageBody_handles world params limit page run) as H.
  destruct (PlaywrightIndeedScraper.pageBody world params limit page run)
    as [[| |e] run']; simpl in *; [rewrite IH| |]; exact H.
Qed.

Lemma pwNaukri_pageBody_handles (world : World)
    (cfg : PlaywrightNaukriScraper.Config) (params : Typed.Params)
    (limit page : Z) (run : PlaywrightNaukriScraper.Run) :
  handles (PlaywrightNaukriScraper.instance
             (snd (PlaywrightNaukriScraper.pageBody world cfg params limit
                     page run)))
  = handles (PlaywrightNaukriScraper.instance run).
Proof.
  unfold PlaywrightNaukriScraper.pageBody,
    PlaywrightNaukriScraper.navigateToPage.
  destruct (goto world _); reflexivity.
Qed.

Lemma pwNaukri_pages_handles (world : World)
    (cfg : PlaywrightNaukriScraper.Config) (params : Typed.Params)
    (limit : Z) (remaining : nat) (page : Z)
    (run : PlaywrightNaukriScraper.Run) :
  handles (PlaywrightNaukriScraper.instance
             (snd (PlaywrightNaukriScraper.pages world cfg params limit
                     remaining page run)))
  = handles (PlaywrightNaukriScraper.instance run).
Proof.
  revert page run; induction remaining as [|k IH]; intros page run;
    [reflexivity|].
  simpl.
  pose proof (pwNaukri_pageBody_handles world cfg params limit page run) as H.
  destruct (PlaywrightNaukriScraper.pageBody world cfg params limit page run)
    as [[| |e] run']; simpl in *; [rewrite IH| |]; exact H.
Qed.

(** What [initialize] leaves when the adapter held no handle: either
    nothing was started, or one browser was and [this.browser] holds it. *)
Lemma initialize_handles (world : World) (i : Instance) :
  browser i = None -> page i = None ->
  let i' := snd (initialize world i) in
  (browser i' = None /\ page i' = None /\ acquired i' = acquired i
   /\ released i' = released i)
  \/ (browser i' <> None /\ acquired i' = (acquired i + 1)%Z
      /\ released i' = released i).
Proof.
  intros Hb Hp. unfold initialize.
  destruct (launch world); simpl; [left; auto|].
  destruct (newContext world); simpl; [right; repeat split; discriminate|].
  destruct (newPage world); simpl; right; repeat split; discriminate.
Qed.

(** [cleanup] closes the browser it finds, and nothing else. *)
Lemma cleanup_releases (i : Instance) :
  browser (cleanup i) = None /\ page (cleanup i) = None
  /\ acquired (cleanup i) = acquired i
  /\ released (cleanup i)
     = (released i + match browser i with Some _ => 1 | None => 0 end)%Z.
Proof.
  unfold cleanup. destruct i as [s [b|] [p|] a r]; simpl; repeat split; lia.
Qed.

Lemma balanced_after (before loaded : Instance) :
  browser before = None -> page before = None ->
  ((browser loaded = None /\ page loaded = None
    /\ acquired loaded = acquired before
    /\ released loaded = released before)
   \/ (browser loaded <> None /\ acquired loaded = (acquired before + 1)%Z
       /\ released loaded = released before)) ->
  (acquired (cleanup loaded) - acquired before
   = released (cleanup loaded) - released before)%Z
  /\ browser (cleanup loaded) = None /\ page (cleanup loaded) = None.
Proof.
  intros Hb Hp H.
  destruct (cleanup_releases loaded) as (Cb & Cp & Ca & Cr).
  rewrite Ca, Cr, Cb, Cp.
  destruct H as [(B & P & A & R)|(B & A & R)].
  - rewrite B, A, R. repeat split; lia.
  - destruct (browser loaded); [|contradiction]. rewrite A, R.
    repeat split; lia.
Qed.

(** C9. For every run of a browser-mode adapter that starts without a
    live handle, whatever the browser, the pages and the extraction do
    (the launch failing, a navigation failing, an early stop, a normal
    return), when [scrape] settles as many browser processes have been
    closed as were started, and the adapter holds neither a page nor a
    browser. [page.close()] and [browser.close()] are taken to resolve,
    as Playwright documents them. *)
Theorem browser_released_on_every_exit (world : World)
    (cfg : PlaywrightNaukriScraper.Config) (params : Typed.Params)
    (i : Instance) :
  browser i = None -> page i = None ->
  let indeed := snd (PlaywrightIndeedScraper.scrape world params i) in
  let naukri := snd (PlaywrightNaukriScraper.scrape world cfg params i) in
  ((acquired indeed - acquired i = released indeed - released i)%Z
   /\ browser indeed = None /\ page indeed = None)
  /\ ((acquired naukri - acquired i = released naukri - released i)%Z
      /\ browser naukri = None /\ page naukri = None).
Proof.
  intros Hb Hp.
  pose proof (initialize_handles world i Hb Hp) as Hinit. cbv zeta in Hinit.
  split.
  - unfold PlaywrightIndeedScraper.scrape.
    destruct (initialize world i) as [[e|] i0]; simpl in Hinit |- *.
    + apply balanced_after; assumption.
    + match goal with
      | |- context [PlaywrightIndeedScraper.pages ?w ?p ?l ?n ?pg ?r] =>
          pose proof (pwIndeed_pages_handles w p l n pg r) as Hh;
          destruct (PlaywrightIndeedScraper.pages w p l n pg r) as [esc run]
      end.
      simpl in Hh |- *. unfold handles in Hh. injection Hh as H1 H2 H3 H4.
      apply balanced_after; [assumption|assumption|].
      rewrite H1, H2, H3, H4. exact Hinit.
  - unfold PlaywrightNaukriScraper.scrape.
    destruct (initialize world i) as [[e|] i0]; simpl in Hinit |- *.
    + apply balanced_after; assumption.
    + match goal with
      | |- context [PlaywrightNaukriScraper.pages ?w ?c ?p ?l ?n ?pg ?r] =>
          pose proof (pwNaukri_pages_handles w c p l n pg r) as Hh;
          destruct (PlaywrightNaukriScraper.pages w c p l n pg r) as [esc run]
      end.
      simpl in Hh |- *. unfold handles in Hh. injection Hh as H1 H2 H3 H4.
      apply balanced_after; [assumption|assumption|].
      rewrite H1, H2, H3, H4. exact Hinit.
Qed.

End BrowserClaims.

(** ** Claims about scrape *)

Module ScrapeClaims.
Import Js Dom Net JobProcessor Scraper.

Lemma naukri_pages_never_escape (world : World) (cfg : NaukriScraper.Config)
    (params : Typed.Params) (limit : Z) (remaining : nat) (page : Z)
    (run : NaukriScraper.Run) :
  fst (NaukriScraper.pages world cfg params limit remaining page run) = None.
Proof.
  revert page run; induction remaining as [|k IH]; intros page run;
    [reflexivity|].
  simpl. unfold NaukriScraper.pageBody.
  destruct (NaukriScraper.fetchPage world cfg _ _) as [[html|e] s].
  - destruct (NaukriScraper.parseJobListings cfg (now world) html);
      [reflexivity | apply IH].
  - apply IH.
Qed.

(** C1 fails on the code. Whatever the pages hold, the HTTP-mode Naukri
    adapter resolves to the object [{ jobs, stats }] of [processJobs],
    which has no length, and not to an array of jobs; the browser-mode
    Naukri adapter never resolves to an array either. *)
Theorem naukri_scrape_returns_processJobs_object (world : World)
    (cfg : NaukriScraper.Config) (pw : PlaywrightNaukriScraper.Config)
    (params : Typed.Params) (s : Stats) (i : Instance) :
  (exists result,
      outcome (NaukriScraper.scrape world cfg params s)
      = Returned (ProcessObject result)
      /\ lengthOf (ProcessObject result) = None)
  /\ forall found,
       outcome (fst (PlaywrightNaukriScraper.scrape world pw params i))
       <> Returned (JobArray found).
Proof.
  split.
  - unfold NaukriScraper.scrape.
    match goal with
    | |- context [NaukriScraper.pages ?w ?c ?p ?l ?n ?pg ?r] =>
        pose proof (naukri_pages_never_escape w c p l n pg r) as H;
        destruct (NaukriScraper.pages w c p l n pg r) as [esc run]
    end.
    simpl in H; subst esc. eexists; split; reflexivity.
  - intros found. unfold PlaywrightNaukriScraper.scrape.
    destruct (initialize world i) as [[e|] i0]; simpl; [discriminate|].
    destruct (PlaywrightNaukriScraper.pages _ _ _ _ _ _ _) as [[e|] run];
      simpl; discriminate.
Qed.

(** The run behind C1: one page of Naukri results with one card. *)
Example naukri_scrape_on_one_page :
  lengthOf
    match outcome (NaukriScraper.scrape Stub.firstPageOnly Stub.naukriConfig
                     Stub.tenPages newStats) with
    | Returned v => v
    | Thrown _ => JobArray []
    end = None
  /\ exists processed,
       outcome (NaukriScraper.scrape Stub.firstPageOnly Stub.naukriConfig
                  Stub.tenPages newStats)
       = Returned (ProcessObject processed)
       /\ List.length (jobs processed) = 1%nat.
Proof. split; [reflexivity|]. eexists; split; reflexivity. Qed.

(** C9 on a run of ten pages of which only the first lists a card, on an
    adapter fresh from its constructor. *)
Lemma browser_released_on_every_exit_witness :
  let indeed :=
    snd (PlaywrightIndeedScraper.scrape Stub.firstPageOnly Stub.tenPages
           newInstance) in
  let naukri :=
    snd (PlaywrightNaukriScraper.scrape Stub.firstPageOnly Stub.pwNaukriConfig
           Stub.tenPages newInstance) in
  ((acquired indeed - acquired newInstance
    = released indeed - released newInstance)%Z
   /\ browser indeed = None /\ page indeed = None)
  /\ ((acquired naukri - acquired newInstance
       = released naukri - released newInstance)%Z
      /\ browser naukri = None /\ page naukri = None).
Proof.
  apply (BrowserClaims.browser_released_on_every_exit Stub.firstPageOnly
           Stub.pwNaukriConfig Stub.tenPages newInstance); reflexivity.
Defined.

End ScrapeClaims.

(** ** Early stop *)

Module EarlyStop.
Import Js Dom Net JobProcessor Scraper Observed.

Lemma indeed_buildSearchUrl (params : Typed.Params) (page : Z) :
  Typed.keyword params <> [] -> Typed.location params <> [] ->
  (0 <= page)%Z ->
  IndeedScraper.buildSearchUrl (Typed.keyword params) (Typed.location params)
    page
  = Returned (indeedUrl params (page + 1)).
Proof.
  intros Hk Hl Hp. unfold IndeedScraper.buildSearchUrl, calculateStartIndex.
  destruct (Z.ltb_spec (page + 1) 1) as [Hlt|_]; [lia|].
  unfold buildIndeedSearchUrl, indeedUrl.
  destruct (Typed.keyword params); [contradiction|].
  destruct (Typed.location params); [contradiction|]. reflexivity.
Qed.

(** A page of IndeedScraper whose fetch succeeds. *)
Lemma indeed_pageBody_fetched (world : World) (cfg : IndeedScraper.Config)
    (params : Typed.Params) (limit page : Z) (run : IndeedScraper.Run)
    (url : Url) (found : list Job) :
  IndeedScraper.buildSearchUrl (Typed.keyword params) (Typed.location params)
    page = Returned url ->
  indeedYield world cfg url = Returned found ->
  IndeedScraper.pageBody world cfg params limit page run
  = let s := requestSucceeded (requestMade (IndeedScraper.runStats run)) in
    let emptyPage := match found with [] => true | _ => false end in
    let consecutive :=
      if emptyPage then (IndeedScraper.consecutiveEmptyPages run + 1)%Z
      else 0%Z in
    if (emptyPage && (2 <=? consecutive)%Z)%bool then
      (Break,
       IndeedScraper.mkRun s (IndeedScraper.allJobs run) consecutive
         (IndeedScraper.events run) (IndeedScraper.urls run ++ [url]))
    else
      (Next,
       IndeedScraper.mkRun s (IndeedScraper.allJobs run ++ found) consecutive
         (if Typed.onProgress params
          then IndeedScraper.events run
               ++ [{| currentPage := page + 1; totalPages := limit;
                      jobsFound := len (IndeedScraper.allJobs run ++ found) |}]
          else IndeedScraper.events run)
         (IndeedScraper.urls run ++ [url])).
Proof.
  intros Hurl Hy. unfold IndeedScraper.pageBody, IndeedScraper.fetchPage.
  rewrite Hurl. unfold indeedYield in Hy.
  destruct (fetchHtml url (http world url) (IndeedScraper.maxRetries cfg));
    [|discriminate].
  injection Hy as <-. reflexivity.
Qed.

(** IndeedScraper under the stub: pages 1, 2 and 3 are requested, then
    the loop breaks. *)
Lemma indeed_stops_at_page_3 (world : World) (cfg : IndeedScraper.Config)
    (params : Typed.Params) (s : Stats) :
  Typed.maxPages params = Some 10%Z ->
  Typed.keyword params <> [] -> Typed.location params <> [] ->
  firstPageOnly (indeedYield world cfg) (indeedUrl params) ->
  requested (IndeedScraper.scrape world cfg params s)
  = map (indeedUrl params) [1; 2; 3]%Z
  /\ outcome (IndeedScraper.scrape world cfg params s)
     = Returned
         (JobArray
            (jobs (processJobs (resolveUrl world)
                     (firstPage (indeedYield world cfg) (indeedUrl params))
                     {| JobProcessor.baseUrl := IndeedScraper.baseUrl cfg;
                        dedupeBy := "jobId"; removeInvalid := true |}))).
Proof.
  intros Hmax Hk Hl [(job & rest & H1) Hlater].
  pose proof (Hlater 2%Z ltac:(lia)) as H2.
  pose proof (Hlater 3%Z ltac:(lia)) as H3.
  pose proof (indeed_buildSearchUrl params 0 Hk Hl ltac:(lia)) as U1.
  pose proof (indeed_buildSearchUrl params 1 Hk Hl ltac:(lia)) as U2.
  pose proof (indeed_buildSearchUrl params 2 Hk Hl ltac:(lia)) as U3.
  change (0 + 1)%Z with 1%Z in U1. change (1 + 1)%Z with 2%Z in U2.
  change (2 + 1)%Z with 3%Z in U3.
  unfold IndeedScraper.scrape. rewrite Hmax.
  change (Z.to_nat 10) with 10%nat. cbn [IndeedScraper.pages].
  rewrite (indeed_pageBody_fetched world cfg params 10 0 _ _ _ U1 H1).
  cbv beta iota zeta. cbn [andb IndeedScraper.pages].
  change (0 + 1)%Z with 1%Z.
  rewrite (indeed_pageBody_fetched world cfg params 10 1 _ _ _ U2 H2).
  cbv beta iota zeta. cbn [IndeedScraper.consecutiveEmptyPages].
  change (2 <=? 0 + 1)%Z with false. cbn [andb IndeedScraper.pages].
  change (1 + 1)%Z with 2%Z.
  rewrite (indeed_pageBody_fetched world cfg params 10 2 _ _ _ U3 H3).
  cbv beta iota zeta. cbn [IndeedScraper.consecutiveEmptyPages].
  change (2 <=? 0 + 1 + 1)%Z with true. cbn [andb].
  split; [reflexivity|].
  unfold firstPage. rewrite H1.
  cbn [outcome IndeedScraper.allJobs app]. rewrite app_nil_r. reflexivity.
Qed.

(** A page of NaukriScraper whose fetch succeeds. *)
Lemma naukri_pageBody_fetched (world : World) (cfg : NaukriScraper.Config)
    (params : Typed.Params) (limit page : Z) (run : NaukriScraper.Run)
    (found : list Job) :
  naukriYield world cfg (naukriUrl (NaukriScraper.baseUrl cfg) params page)
  = Returned found ->
  exists run',
    NaukriScraper.pageBody world cfg params limit page run
    = (match found with [] => Break | _ => Next end, run')
    /\ NaukriScraper.urls run'
       = NaukriScraper.urls run
         ++ [naukriUrl (NaukriScraper.baseUrl cfg) params page]
    /\ NaukriScraper.allJobs run' = NaukriScraper.allJobs run ++ found.
Proof.
  intros Hy. unfold NaukriScraper.pageBody, NaukriScraper.fetchPage.
  unfold naukriYield, naukriUrl in Hy. unfold NaukriScraper.buildSearchUrl.
  destruct (fetchHtml _ _ _); [|discriminate].
  injection Hy as <-. eexists; repeat split.
Qed.

Lemma naukri_stops_at_page_2 (world : World) (cfg : NaukriScraper.Config)
    (params : Typed.Params) (s : Stats) :
  Typed.maxPages params = Some 10%Z ->
  firstPageOnly (naukriYield world cfg)
    (naukriUrl (NaukriScraper.baseUrl cfg) params) ->
  requested (NaukriScraper.scrape world cfg params s)
  = map (naukriUrl (NaukriScraper.baseUrl cfg) params) [1; 2]%Z
  /\ outcome (NaukriScraper.scrape world cfg params s)
     = Returned
         (ProcessObject
            (processJobs (resolveUrl world)
               (firstPage (naukriYield world cfg)
                  (naukriUrl (NaukriScraper.baseUrl cfg) params))
               defaultOptions)).
Proof.
  intros Hmax [(job & rest & H1) Hlater].
  pose proof (Hlater 2%Z ltac:(lia)) as H2.
  unfold NaukriScraper.scrape. rewrite Hmax.
  change (Z.to_nat 10) with 10%nat. cbn [NaukriScraper.pages].
  match goal with
  | |- context [NaukriScraper.pageBody ?w ?c ?p ?l 1%Z ?r] =>
      destruct (naukri_pageBody_fetched w c p l 1%Z r _ H1)
        as (run1 & -> & Hu1 & Hj1)
  end.
  change (1 + 1)%Z with 2%Z.
  destruct (naukri_pageBody_fetched world cfg params 10 2 run1 _ H2)
    as (run2 & -> & Hu2 & Hj2).
  cbn [requested outcome]. rewrite Hu2, Hu1, Hj2, Hj1.
  split; [reflexivity|].
  unfold firstPage. rewrite H1.
  cbn [NaukriScraper.allJobs app]. rewrite app_nil_r. reflexivity.
Qed.

(** A page of PlaywrightNaukriScraper whose navigation succeeds. *)
Lemma pwNaukri_pageBody_loaded (world : World)
    (cfg : PlaywrightNaukriScraper.Config) (params : Typed.Params)
    (limit page : Z) (run : PlaywrightNaukriScraper.Run) (found : list Job) :
  pwNaukriYield world
    (naukriUrl (PlaywrightNaukriScraper.baseUrl cfg) params page)
  = Returned found ->
  exists run',
    PlaywrightNaukriScraper.pageBody world cfg params limit page run
    = (match found with [] => Break | _ => Next end, run')
    /\ PlaywrightNaukriScraper.urls run'
       = PlaywrightNaukriScraper.urls run
         ++ [naukriUrl (PlaywrightNaukriScraper.baseUrl cfg) params page]
    /\ PlaywrightNaukriScraper.allJobs run'
       = PlaywrightNaukriScraper.allJobs run ++ found.
Proof.
  intros Hy.
  unfold PlaywrightNaukriScraper.pageBody,
    PlaywrightNaukriScraper.navigateToPage.
  unfold pwNaukriYield, naukriUrl in Hy.
  unfold PlaywrightNaukriScraper.buildSearchUrl.
  destruct (goto world _); [discriminate|].
  injection Hy as <-. eexists; repeat split.
Qed.

Lemma initialize_succeeds (world : World) (i : Instance) :
  launch world = None -> newContext world = None -> newPage world = None ->
  exists i', initialize world i = (None, i').
Proof.
  intros H1 H2 H3. unfold initialize. rewrite H1, H2, H3.
  eexists; reflexivity.
Qed.

Lemma pwNaukri_stops_at_page_2 (world : World)
    (cfg : PlaywrightNaukriScraper.Config) (params : Typed.Params)
    (i : Instance) :
  Typed.maxPages params = Some 10%Z ->
  launch world = None -> newContext world = None -> newPage world = None ->
  firstPageOnly (pwNaukriYield world)
    (naukriUrl (PlaywrightNaukriScraper.baseUrl cfg) params) ->
  requested (fst (PlaywrightNaukriScraper.scrape world cfg params i))
  = map (naukriUrl (PlaywrightNaukriScraper.baseUrl cfg) params) [1; 2]%Z
  /\ outcome (fst (PlaywrightNaukriScraper.scrape world cfg params i))
     = Returned
         (ProcessObject
            (processJobs (resolveUrl world)
               (firstPage (pwNaukriYield world)
                  (naukriUrl (PlaywrightNaukriScraper.baseUrl cfg) params))
               defaultOptions)).
Proof.
  intros Hmax L1 L2 L3 [(job & rest & H1) Hlater].
  pose proof (Hlater 2%Z ltac:(lia)) as H2.
  unfold PlaywrightNaukriScraper.scrape. rewrite Hmax.
  destruct (initialize_succeeds world i L1 L2 L3) as (i0 & ->).
  change (Z.to_nat 10) with 10%nat. cbn [PlaywrightNaukriScraper.pages].
  match goal with
  | |- context [PlaywrightNaukriScraper.pageBody ?w ?c ?p ?l 1%Z ?r] =>
      destruct (pwNaukri_pageBody_loaded w c p l 1%Z r _ H1)
        as (run1 & -> & Hu1 & Hj1)
  end.
  change (1 + 1)%Z with 2%Z.
  destruct (pwNaukri_pageBody_loaded world cfg params 10 2 run1 _ H2)
    as (run2 & -> & Hu2 & Hj2).
  cbn [fst requested outcome]. rewrite Hu2, Hu1, Hj2, Hj1.
  split; [reflexivity|].
  unfold firstPage. rewrite H1.
  cbn [PlaywrightNaukriScraper.allJobs app]. rewrite app_nil_r. reflexivity.
Qed.

(** A page of PlaywrightIndeedScraper that yields fragments or none: the
    loop goes on to the next page either way. *)
Lemma pwIndeed_pageBody_loaded (world : World) (params : Typed.Params)
    (limit page : Z) (run : PlaywrightIndeedScraper.Run) (found : list Job) :
  Typed.keyword params <> [] -> Typed.location params <> [] ->
  (0 <= page)%Z ->
  pwIndeedYield world (indeedUrl params (page + 1)) = Returned found ->
  exists run',
    PlaywrightIndeedScraper.pageBody world params limit page run
    = (Next, run')
    /\ PlaywrightIndeedScraper.urls run'
       = PlaywrightIndeedScraper.urls run ++ [indeedUrl params (page + 1)]
    /\ PlaywrightIndeedScraper.allJobs run'
       = PlaywrightIndeedScraper.allJobs run
         ++ map (PlaywrightIndeedScraper.setPage (page + 1)) found.
Proof.
  intros Hk Hl Hp Hy.
  pose proof (indeed_buildSearchUrl params page Hk Hl Hp) as Hurl.
  unfold IndeedScraper.buildSearchUrl in Hurl.
  unfold PlaywrightIndeedScraper.pageBody. rewrite Hurl.
  unfold PlaywrightIndeedScraper.navigateToUrl,
    PlaywrightIndeedScraper.extractJobListings.
  unfold pwIndeedYield in Hy.
  destruct (goto world _); [discriminate|].
  destruct (waitForSelector world _); cbn [negb].
  - destruct (evaluate world _); [|discriminate].
    injection Hy as <-. eexists; repeat split.
  - injection Hy as <-. eexists; repeat split.
    cbn [PlaywrightIndeedScraper.allJobs map]. rewrite app_nil_r. reflexivity.
Qed.

(** PlaywrightIndeedScraper on pages that yield nothing: every one of them
    is requested, and nothing is collected. *)
Lemma pwIndeed_pages_all_requested (world : World) (params : Typed.Params)
    (limit : Z) (k : nat) (page : Z) (run : PlaywrightIndeedScraper.Run) :
  Typed.keyword params <> [] -> Typed.location params <> [] ->
  (1 <= page)%Z ->
  (forall n, (2 <= n)%Z ->
     pwIndeedYield world (indeedUrl params n) = Returned []) ->
  exists run',
    PlaywrightIndeedScraper.pages world params limit k page run = (None, run')
    /\ PlaywrightIndeedScraper.urls run'
       = PlaywrightIndeedScraper.urls run
         ++ pagesFrom (indeedUrl params) (page + 1) k
    /\ PlaywrightIndeedScraper.allJobs run'
       = PlaywrightIndeedScraper.allJobs run.
Proof.
  intros Hk Hl Hp Hlater. revert page run Hp.
  induction k as [|k IH]; intros page run Hp.
  - exists run. cbn. rewrite app_nil_r. repeat split.
  - cbn [PlaywrightIndeedScraper.pages pagesFrom].
    destruct (pwIndeed_pageBody_loaded world params limit page run []
                Hk Hl ltac:(lia) (Hlater (page + 1)%Z ltac:(lia)))
      as (run1 & -> & Hu1 & Hj1).
    destruct (IH (page + 1)%Z run1 ltac:(lia)) as (run' & -> & Hu & Hj).
    exists run'. split; [reflexivity|]. split.
    + rewrite Hu, Hu1, <- app_assoc. reflexivity.
    + rewrite Hj, Hj1. cbn [map]. apply app_nil_r.
Qed.

Lemma pwIndeed_requests_every_page (world : World) (params : Typed.Params)
    (i : Instance) :
  Typed.maxPages params = Some 10%Z ->
  Typed.keyword params <> [] -> Typed.location params <> [] ->
  launch world = None -> newContext world = None -> newPage world = None ->
  firstPageOnly (pwIndeedYield world) (indeedUrl params) ->
  requested (fst (PlaywrightIndeedScraper.scrape world params i))
  = map (indeedUrl params) [1; 2; 3; 4; 5; 6; 7; 8; 9; 10]%Z
  /\ outcome (fst (PlaywrightIndeedScraper.scrape world params i))
     = Returned
         (JobArray
            (map (PlaywrightIndeedScraper.setPage 1)
               (firstPage (pwIndeedYield world) (indeedUrl params)))).
Proof.
  intros Hmax Hk Hl L1 L2 L3 [(job & rest & H1) Hlater].
  unfold PlaywrightIndeedScraper.scrape. rewrite Hmax.
  destruct (initialize_succeeds world i L1 L2 L3) as (i0 & ->).
  change (Z.to_nat 10) with 10%nat.
  match goal with
  | |- context [PlaywrightIndeedScraper.pages ?w ?p ?l 10 0%Z ?r] =>
      destruct (pwIndeed_pageBody_loaded w p l 0%Z r _ Hk Hl ltac:(lia) H1)
        as (run1 & E1 & Hu1 & Hj1);
      change (PlaywrightIndeedScraper.pages w p l 10 0%Z r)
        with (match PlaywrightIndeedScraper.pageBody w p l 0%Z r with
              | (Next, run') => PlaywrightIndeedScraper.pages w p l 9 1%Z run'
              | (Break, run') => (None, run')
              | (Escape error, run') => (Some error, run')
              end);
      rewrite E1
  end.
  destruct (pwIndeed_pages_all_requested world params 10 9 1 run1 Hk Hl
              ltac:(lia) Hlater) as (run' & -> & Hu & Hj).
  cbn [fst requested outcome]. rewrite Hu, Hu1, Hj, Hj1.
  split; [reflexivity|].
  unfold firstPage. rewrite H1. reflexivity.
Qed.

(** C2, as the claim states it, fails: under the stub the browser-mode
    Indeed adapter requests all ten pages, not two. *)
Lemma pwIndeed_requests_ten_pages_under_stub :
  (exists job,
      pwIndeedYield Stub.firstPageOnly (indeedUrl Stub.tenPages 1)
      = Returned [job])
  /\ pwIndeedYield Stub.firstPageOnly (indeedUrl Stub.tenPages 2) = Returned []
  /\ requested
       (fst (PlaywrightIndeedScraper.scrape Stub.firstPageOnly Stub.tenPages
               newInstance))
     = map (indeedUrl Stub.tenPages) [1; 2; 3; 4; 5; 6; 7; 8; 9; 10]%Z.
Proof.
  split; [eexists; vm_compute; reflexivity|].
  split; vm_compute; reflexivity.
Qed.

(** C2, amended. Under a stub that yields fragments on page 1 and none
    from page 2 on, with [maxPages = 10], a valid keyword and location and
    a browser that starts: IndeedScraper stops after two consecutive empty
    pages, having requested pages 1 to 3; NaukriScraper and
    PlaywrightNaukriScraper stop on the first empty page, having requested
    pages 1 and 2; PlaywrightIndeedScraper has no early stop and requests
    all ten pages. Each run ends by returning what it collected, the
    fragments of page 1, not with an error: IndeedScraper returns the jobs
    [processJobs] makes of them, the Naukri adapters the object of
    [processJobs] on them, PlaywrightIndeedScraper the fragments
    themselves, each with its page number 1. *)
Theorem early_stop_by_adapter (world : World)
    (indeed : IndeedScraper.Config) (naukri : NaukriScraper.Config)
    (pwNaukri : PlaywrightNaukriScraper.Config) (params : Typed.Params)
    (s : Stats) (i : Instance) :
  Typed.maxPages params = Some 10%Z ->
  Typed.keyword params <> [] -> Typed.location params <> [] ->
  launch world = None -> newContext world = None -> newPage world = None ->
  firstPageOnly (indeedYield world indeed) (indeedUrl params) ->
  firstPageOnly (naukriYield world naukri)
    (naukriUrl (NaukriScraper.baseUrl naukri) params) ->
  firstPageOnly (pwNaukriYield world)
    (naukriUrl (PlaywrightNaukriScraper.baseUrl pwNaukri) params) ->
  firstPageOnly (pwIndeedYield world) (indeedUrl params) ->
  (requested (IndeedScraper.scrape world indeed params s)
   = map (indeedUrl params) [1; 2; 3]%Z
   /\ outcome (IndeedScraper.scrape world indeed params s)
      = Returned
          (JobArray
             (jobs (processJobs (resolveUrl world)
                      (firstPage (indeedYield world indeed) (indeedUrl params))
                      {| JobProcessor.baseUrl := IndeedScraper.baseUrl indeed;
                         dedupeBy := "jobId"; removeInvalid := true |}))))
  /\ (requested (NaukriScraper.scrape world naukri params s)
      = map (naukriUrl (NaukriScraper.baseUrl naukri) params) [1; 2]%Z
      /\ outcome (NaukriScraper.scrape world naukri params s)
         = Returned
             (ProcessObject
                (processJobs (resolveUrl world)
                   (firstPage (naukriYield world naukri)
                      (naukriUrl (NaukriScraper.baseUrl naukri) params))
                   defaultOptions)))
  /\ (requested (fst (PlaywrightNaukriScraper.scrape world pwNaukri params i))
      = map (naukriUrl (PlaywrightNaukriScraper.baseUrl pwNaukri) params)
          [1; 2]%Z
      /\ outcome (fst (PlaywrightNaukriScraper.scrape world pwNaukri params i))
         = Returned
             (ProcessObject
                (processJobs (resolveUrl world)
                   (firstPage (pwNaukriYield world)
                      (naukriUrl (PlaywrightNaukriScraper.baseUrl pwNaukri)
                         params))
                   defaultOptions)))
  /\ (requested (fst (PlaywrightIndeedScraper.scrape world params i))
      = map (indeedUrl params) [1; 2; 3; 4; 5; 6; 7; 8; 9; 10]%Z
      /\ outcome (fst (PlaywrightIndeedScraper.scrape world params i))
         = Returned
             (JobArray
                (map (PlaywrightIndeedScraper.setPage 1)
                   (firstPage (pwIndeedYield world) (indeedUrl params))))).
Proof.
  intros Hmax Hk Hl L1 L2 L3 S1 S2 S3 S4.
  split; [apply indeed_stops_at_page_3; assumption|].
  split; [apply naukri_stops_at_page_2; assumption|].
  split; [apply pwNaukri_stops_at_page_2; assumption|].
  apply pwIndeed_requests_every_page; assumption.
Qed.

(** The amended C2 on the stub world: the pages requested, and the one
    posting of page 1 that each run returns. *)
Lemma early_stop_by_adapter_witness :
  (List.length
     (requested (IndeedScraper.scrape Stub.firstPageOnly Stub.indeedConfig
                   Stub.tenPages newStats)) = 3%nat
   /\ option_map (fun n => n =? 1)%Z
        (match outcome (IndeedScraper.scrape Stub.firstPageOnly
                          Stub.indeedConfig Stub.tenPages newStats) with
         | Returned value => lengthOf value
         | Thrown _ => None
         end) = Some true)
  /\ (List.length
        (requested (NaukriScraper.scrape Stub.firstPageOnly Stub.naukriConfig
                      Stub.tenPages newStats)) = 2%nat
      /\ match outcome (NaukriScraper.scrape Stub.firstPageOnly
                          Stub.naukriConfig Stub.tenPages newStats) with
         | Returned (ProcessObject result) => len (jobs result) = 1%Z
         | _ => False
         end)
  /\ (List.length
        (requested
           (fst (PlaywrightNaukriScraper.scrape Stub.firstPageOnly
                   Stub.pwNaukriConfig Stub.tenPages newInstance))) = 2%nat
      /\ match outcome
                 (fst (PlaywrightNaukriScraper.scrape Stub.firstPageOnly
                         Stub.pwNaukriConfig Stub.tenPages newInstance)) with
         | Returned (ProcessObject result) => len (jobs result) = 1%Z
         | _ => False
         end)
  /\ (List.length
        (requested
           (fst (PlaywrightIndeedScraper.scrape Stub.firstPageOnly
                   Stub.tenPages newInstance))) = 10%nat
      /\ match outcome
                 (fst (PlaywrightIndeedScraper.scrape Stub.firstPageOnly
                         Stub.tenPages newInstance)) with
         | Returned (JobArray listings) => len listings = 1%Z
         | _ => False
         end).
Proof.
  assert (S1 : firstPageOnly
                 (indeedYield Stub.firstPageOnly Stub.indeedConfig)
                 (indeedUrl Stub.tenPages)).
  { split; [do 2 eexists; vm_compute; reflexivity|].
    intros n Hn. unfold indeedYield, indeedUrl, fetchHtml. cbn.
    destruct (Z.eqb_spec ((n - 1) * 10) 0) as [E|_]; [lia | reflexivity]. }
  assert (S2 : firstPageOnly
                 (naukriYield Stub.firstPageOnly Stub.naukriConfig)
                 (naukriUrl (NaukriScraper.baseUrl Stub.naukriConfig)
                    Stub.tenPages)).
  { split; [do 2 eexists; vm_compute; reflexivity|].
    intros n Hn. unfold naukriYield, naukriUrl, fetchHtml. cbn.
    destruct (Z.eqb_spec n 1) as [E|_]; [lia | reflexivity]. }
  assert (S3 : firstPageOnly (pwNaukriYield Stub.firstPageOnly)
                 (naukriUrl
                    (PlaywrightNaukriScraper.baseUrl Stub.pwNaukriConfig)
                    Stub.tenPages)).
  { split; [do 2 eexists; vm_compute; reflexivity|].
    intros n Hn. unfold pwNaukriYield, naukriUrl. cbn.
    destruct (Z.eqb_spec n 1) as [E|_]; [lia | reflexivity]. }
  assert (S4 : firstPageOnly (pwIndeedYield Stub.firstPageOnly)
                 (indeedUrl Stub.tenPages)).
  { split; [do 2 eexists; vm_compute; reflexivity|].
    intros n Hn. unfold pwIndeedYield, indeedUrl. cbn.
    destruct (Z.eqb_spec ((n - 1) * 10) 0) as [E|_]; [lia | reflexivity]. }
  destruct (early_stop_by_adapter Stub.firstPageOnly Stub.indeedConfig
              Stub.naukriConfig Stub.pwNaukriConfig Stub.tenPages newStats
              newInstance eq_refl ltac:(discriminate) ltac:(discriminate)
              eq_refl eq_refl eq_refl S1 S2 S3 S4)
    as ((R1 & O1) & (R2 & O2) & (R3 & O3) & (R4 & O4)).
  rewrite R1, R2, R3, R4, O1, O2, O3, O4.
  repeat split; vm_compute; reflexivity.
Defined.

End EarlyStop.

(** ** The job runner and a failing first fetch *)

Module RunnerClaims.
Import Js Dom Net JobProcessor Scraper ScrapeJobRunner.
Import Checks Observed ValidationClaims EarlyStop.

Lemma noteProgress_errors (events : list ProgressEvent) (r : Results) :
  errors (fold_left noteProgress events r) = errors r.
Proof.
  revert r; induction events as [|e events IH]; intros r; simpl;
    [reflexivity | rewrite IH; reflexivity].
Qed.


(** A page of IndeedScraper never lets an error escape, and only adds to
    the error records. *)
Lemma indeed_pageBody_swallows (world : World) (cfg : IndeedScraper.Config)
    (params : Typed.Params) (limit page : Z) (run : IndeedScraper.Run) :
  Typed.keyword params <> [] -> Typed.location params <> [] ->
  (0 <= page)%Z ->
  exists control run' added,
    IndeedScraper.pageBody world cfg params limit page run = (control, run')
    /\ (control = Next \/ control = Break)
    /\ Scraper.errors (IndeedScraper.runStats run')
       = Scraper.errors (IndeedScraper.runStats run) ++ added.
Proof.
  intros Hk Hl Hp. unfold IndeedScraper.pageBody.
  rewrite (indeed_buildSearchUrl params page Hk Hl Hp).
  unfold IndeedScraper.fetchPage.
  destruct (fetchHtml _ _ _) as [html|e].
  - destruct (IndeedScraper.parseJobListings cfg html) as [|j js].
    + cbn [andb].
      destruct (2 <=? IndeedScraper.consecutiveEmptyPages run + 1)%Z;
        do 2 eexists; exists [];
        (split; [reflexivity | split; [auto | cbn; rewrite app_nil_r; reflexivity]]).
    + do 2 eexists; exists [];
        (split; [reflexivity | split; [auto | cbn; rewrite app_nil_r; reflexivity]]).
  - do 2 eexists. eexists. split; [reflexivity|]. split.
    + destruct (3 <=? IndeedScraper.consecutiveEmptyPages run + 1)%Z; auto.
    + cbn. rewrite <- app_assoc. reflexivity.
Qed.

Lemma indeed_pages_swallow (world : World) (cfg : IndeedScraper.Config)
    (params : Typed.Params) (limit : Z) (k : nat) (page : Z)
    (run : IndeedScraper.Run) :
  Typed.keyword params <> [] -> Typed.location params <> [] ->
  (0 <= page)%Z ->
  exists run' added,
    IndeedScraper.pages world cfg params limit k page run = (None, run')
    /\ Scraper.errors (IndeedScraper.runStats run')
       = Scraper.errors (IndeedScraper.runStats run) ++ added.
Proof.
  intros Hk Hl. revert page run. induction k as [|k IH]; intros page run Hp.
  - exists run, []. cbn. rewrite app_nil_r. auto.
  - cbn [IndeedScraper.pages].
    destruct (indeed_pageBody_swallows world cfg params limit page run
                Hk Hl Hp) as (control & run1 & added & -> & Hc & He).
    destruct Hc as [-> | ->].
    + destruct (IH (page + 1)%Z run1 ltac:(lia)) as (run' & more & -> & He').
      exists run', (added ++ more). split; [reflexivity|].
      rewrite He', He, app_assoc. reflexivity.
    + exists run1, added. auto.
Qed.












End RunnerClaims.

(* ================================================================== *)
(** * Further properties of the code *)
(* ================================================================== *)

(** ** Cleaning a string, a company, a location *)

Module CleaningFacts.
Import Js JobProcessor Shapes Dedup Groups StringFacts JobProcessorFacts.

Lemma normalizeString_Some (v : field) (s : jsstring) :
  normalizeString v = Some s -> s <> [] /\ normalForm s.
Proof.
  destruct v as [[|c r]|]; try discriminate.
  change (normalizeString (Some (c :: r)))
    with (orNull (replaceRuns (fun c => N.eqb c 10) 32
                    (replaceRuns isSpace 32 (trim (c :: r))))).
  pose proof (normalForm_output (c :: r)) as HN.
  destruct (replaceRuns _ 32 (replaceRuns isSpace 32 (trim (c :: r))))
    as [|x xs]; simpl; [discriminate|].
  intros E; injection E as <-. split; [discriminate | exact HN].
Qed.

Lemma collapsed_oneLine (b : bool) (s : jsstring) :
  collapsed b s = true -> oneLine s = true.
Proof.
  revert b; induction s as [|c r IH]; intros b; simpl; [reflexivity|].
  destruct (isSpace c) eqn:E; intros H.
  - apply andb_true_iff in H as [H1 H].
    apply andb_true_iff in H1 as [_ H1]. apply N.eqb_eq in H1; subst c.
    simpl. eapply IH, H.
  - unfold isSpace in E. rewrite !orb_false_iff in E.
    destruct E as [_ ->]. simpl. eapply IH, H.
Qed.

Lemma unclosed_closesGroup (opened : bool) (s : jsstring) :
  unclosed s = true -> closesGroup opened s = false.
Proof.
  revert opened; induction s as [|c r IH]; intros opened; simpl; [reflexivity|].
  rewrite andb_true_iff, negb_true_iff. intros [-> H].
  rewrite andb_false_r. apply IH, H.
Qed.

Lemma unclosed_rev (s : jsstring) : unclosed s = true -> unclosed (rev s) = true.
Proof.
  unfold unclosed. rewrite !forallb_forall. intros H x Hx.
  apply H, in_rev, Hx.
Qed.

(** On one line, what [removeParensFrom] returns holds no closing
    parenthesis after an opening one, whatever it was still waiting for. *)
Lemma removeParensFrom_closesGroup (s : jsstring) (pending : option jsstring) :
  oneLine s = true ->
  match pending with Some buf => unclosed buf = true | None => True end ->
  closesGroup false (removeParensFrom pending s) = false.
Proof.
  revert pending; induction s as [|c r IH]; intros pending Hl Hp.
  - destruct pending as [buf|]; simpl; [|reflexivity].
    apply unclosed_closesGroup, unclosed_rev, Hp.
  - simpl in Hl. apply andb_true_iff in Hl as [Hc Hl].
    apply negb_true_iff in Hc.
    destruct pending as [buf|]; simpl.
    + destruct (N.eqb c 41) eqn:E41; [apply IH; [exact Hl | exact I]|].
      rewrite Hc. apply IH; [exact Hl|]. simpl. rewrite E41. exact Hp.
    + destruct (N.eqb c 40) eqn:E40.
      * apply IH; [exact Hl|]. apply N.eqb_eq in E40; subst c. reflexivity.
      * simpl. rewrite E40. apply IH; [exact Hl | exact I].
Qed.

Lemma closesGroup_weaken (s : jsstring) :
  closesGroup true s = false -> closesGroup false s = false.
Proof.
  induction s as [|c r IH]; simpl; [reflexivity|].
  destruct (N.eqb c 41); [discriminate|].
  destruct (N.eqb c 40); simpl; auto.
Qed.

Lemma closesGroup_tail (opened : bool) (c : N) (s : jsstring) :
  closesGroup opened (c :: s) = false -> closesGroup false s = false.
Proof.
  simpl. destruct (opened && N.eqb c 41)%bool; [discriminate|].
  destruct (opened || N.eqb c 40)%bool; [apply closesGroup_weaken | auto].
Qed.

Lemma closesGroup_trimStart (s : jsstring) :
  closesGroup false s = false -> closesGroup false (trimStart s) = false.
Proof.
  induction s as [|c r IH]; [reflexivity|].
  intros H. cbn [trimStart]. destruct (isSpace c); [|exact H].
  apply IH. eapply closesGroup_tail, H.
Qed.

Lemma closesGroup_trimEnd (opened : bool) (s : jsstring) :
  closesGroup opened s = false -> closesGroup opened (trimEnd s) = false.
Proof.
  revert opened; induction s as [|c r IH]; intros opened; [reflexivity|].
  cbn [closesGroup trimEnd].
  destruct (opened && N.eqb c 41)%bool eqn:E; [discriminate|].
  intros H. apply IH in H.
  destruct (trimEnd r) as [|n k].
  - destruct (isSpace c); [reflexivity|]. simpl. rewrite E. reflexivity.
  - cbn [closesGroup]. rewrite E. exact H.
Qed.

End CleaningFacts.

Module CleaningProperties.
Import Js JobProcessor Shapes Dedup Groups StringFacts JobProcessorFacts.
Import CleaningFacts.

(** X1. [normalizeString] is idempotent: applied to its own result it
    changes nothing, whatever the value it was first given (a string, the
    empty string or null). *)
Theorem normalizeString_twice (value : field) :
  normalizeString (normalizeString value) = normalizeString value.
Proof. apply normalizeString_idempotent. Qed.

(** X2. When [normalizeString] returns a string, that string is not empty,
    neither starts nor ends with white space, and its only white space is
    single U+0020 characters between other characters. *)
Theorem normalizeString_returns_normal_form (value : field) (s : jsstring) :
  normalizeString value = Some s ->
  s <> [] /\ headOk s = true /\ trimEnd s = s /\ collapsed false s = true.
Proof. intros H. apply normalizeString_Some in H. exact H. Qed.

Lemma normalizeString_returns_normal_form_witness :
  lit "Senior Engineer" <> []
  /\ headOk (lit "Senior Engineer") = true
  /\ trimEnd (lit "Senior Engineer") = lit "Senior Engineer"
  /\ collapsed false (lit "Senior Engineer") = true.
Proof.
  apply (normalizeString_returns_normal_form
           (Some (9 :: lit " Senior" ++ 10 :: 13 :: lit "  Engineer ")%N)).
  vm_compute. reflexivity.
Defined.

(** X3. A company name cleaned by [normalizeCompanyName] is never the
    empty string, is trimmed, and holds no parenthesised group: no closing
    parenthesis comes after an opening one. *)
Theorem normalizeCompanyName_leaves_no_group (company : field) (s : jsstring) :
  normalizeCompanyName company = Some s ->
  s <> [] /\ headOk s = true /\ trimEnd s = s
  /\ closesGroup false s = false.
Proof.
  unfold normalizeCompanyName.
  destruct (negb (truthy company)); [discriminate|].
  destruct (normalizeString company) as [n|] eqn:En; [|discriminate].
  apply normalizeString_Some in En as (_ & _ & _ & Hc).
  apply collapsed_oneLine in Hc.
  pose proof (removeParensFrom_closesGroup n None Hc I) as Hg.
  fold (removeParens n) in Hg.
  destruct (trim_normal (removeParens n)) as [Hh Ht].
  assert (Hgt : closesGroup false (trim (removeParens n)) = false).
  { unfold trim. apply closesGroup_trimEnd, closesGroup_trimStart, Hg. }
  destruct (trim (removeParens n)) as [|x xs] eqn:Et; simpl; [discriminate|].
  intros E; injection E as <-.
  repeat split; try assumption. discriminate.
Qed.

Lemma normalizeCompanyName_leaves_no_group_witness :
  lit "Acme  Inc" <> [] /\ headOk (lit "Acme  Inc") = true
  /\ trimEnd (lit "Acme  Inc") = lit "Acme  Inc"
  /\ closesGroup false (lit "Acme  Inc") = false.
Proof.
  apply (normalizeCompanyName_leaves_no_group
           (Some (lit " Acme (123 reviews) Inc (hiring) "))).
  vm_compute. reflexivity.
Defined.

End CleaningProperties.

Module LocationFacts.
Import Js JobProcessor Shapes Dedup Groups StringFacts JobProcessorFacts.
Import CleaningFacts.

Lemma headOk_inked (s : jsstring) :
  s <> [] -> headOk s = true -> inked s = true.
Proof.
  destruct s as [|c r]; [contradiction|]. simpl. intros _ ->. reflexivity.
Qed.

Lemma trimEnd_inked (s : jsstring) : inked s = true -> trimEnd s <> [].
Proof.
  induction s as [|c r IH]; simpl; [discriminate|].
  destruct (isSpace c); simpl; intros H.
  - destruct (trimEnd r); [apply IH in H; contradiction | discriminate].
  - destruct (trimEnd r); discriminate.
Qed.

Lemma trimEnd_blank (s : jsstring) : inked s = false -> trimEnd s = [].
Proof.
  induction s as [|c r IH]; simpl; [reflexivity|].
  destruct (isSpace c); simpl; [|discriminate].
  intros H. rewrite (IH H). reflexivity.
Qed.

Lemma trimStart_inked (s : jsstring) : inked (trimStart s) = inked s.
Proof.
  induction s as [|c r IH]; simpl; [reflexivity|].
  destruct (isSpace c) eqn:E; simpl; [exact IH | rewrite E; reflexivity].
Qed.

Lemma trim_inked (s : jsstring) : inked s = true -> trim s <> [].
Proof.
  intros H. unfold trim. apply trimEnd_inked. rewrite trimStart_inked. exact H.
Qed.

Lemma replaceAll_inked (p : jsstring) (s : jsstring) :
  inked s = true -> inked (replaceAllFrom p (lit ",") 0 s) = true.
Proof.
  induction s as [|c r IH]; simpl; [discriminate|].
  destruct (startsWith p (c :: r)); [reflexivity|].
  simpl. destruct (isSpace c); simpl; [exact IH | reflexivity].
Qed.

Lemma stripInPrefix_inked (s : jsstring) :
  s <> [] -> headOk s = true -> trimEnd s = s ->
  inked (stripInPrefix s) = true.
Proof.
  intros Hne Hh Ht.
  destruct s as [|i [|n [|w rest]]]; try (apply headOk_inked; assumption).
  unfold stripInPrefix.
  destruct ((N.eqb i 105 || N.eqb i 73) && (N.eqb n 110 || N.eqb n 78)
            && isSpace w)%bool eqn:E; [|apply headOk_inked; assumption].
  apply andb_true_iff in E as [_ Ew].
  rewrite trimStart_inked.
  destruct (inked rest) eqn:Er; [reflexivity|].
  exfalso. simpl in Ht. rewrite (trimEnd_blank _ Er), Ew in Ht.
  destruct (isSpace n), (isSpace i); discriminate.
Qed.

End LocationFacts.

Module LocationProperties.
Import Js JobProcessor Shapes Dedup Groups StringFacts JobProcessorFacts.
Import CleaningFacts LocationFacts.

(** X4. [normalizeLocation] returns its string without an [|| null]
    guard, yet what it returns is never the empty string, and it neither
    starts nor ends with white space. *)
Theorem normalizeLocation_returns_trimmed_text (location : field)
    (s : jsstring) :
  normalizeLocation location = Some s ->
  s <> [] /\ headOk s = true /\ trimEnd s = s.
Proof.
  unfold normalizeLocation.
  destruct (negb (truthy location)); [discriminate|].
  destruct (normalizeString location) as [n|] eqn:En; [|discriminate].
  apply normalizeString_Some in En as (Hne & Hh & Ht & _).
  intros E; injection E as <-.
  destruct (trim_normal (replaceAll bulletPattern (lit ",") (stripInPrefix n)))
    as [H1 H2].
  repeat split; try assumption.
  apply trim_inked. unfold replaceAll.
  apply replaceAll_inked, stripInPrefix_inked; assumption.
Qed.

Lemma normalizeLocation_returns_trimmed_text_witness :
  lit "Pune, India" <> [] /\ headOk (lit "Pune, India") = true
  /\ trimEnd (lit "Pune, India") = lit "Pune, India".
Proof.
  apply (normalizeLocation_returns_trimmed_text
           (Some (lit " In  Pune" ++ bulletPattern ++ lit " India "))).
  vm_compute. reflexivity.
Defined.

End LocationProperties.

(** ** Duplicates and the jobs of processJobs *)

Module DedupFacts.
Import Js JobProcessor Shapes Dedup StringFacts JobProcessorFacts.

Lemma has_In (seen : list field) (k : field) :
  has seen k = true <-> In k seen.
Proof.
  unfold has. rewrite existsb_exists. split.
  - intros (x & Hx & E). apply field_eqb_eq in E. subst x. exact Hx.
  - intros H. exists k. split; [exact H | apply field_eqb_refl].
Qed.

(** Fresh keys are truthy, pairwise different, and none of them was seen. *)
Lemma fresh_NoDup (d : string) (l : list Job) (seen : list field) :
  fresh d seen l ->
  NoDup (map (dedupKey d) l)
  /\ Forall (fun job => truthy (dedupKey d job) = true) l
  /\ forall k, In k (map (dedupKey d) l) -> ~ In k seen.
Proof.
  revert seen; induction l as [|job rest IH]; intros seen; simpl.
  - intros _. repeat split; [constructor | constructor | tauto].
  - intros (H1 & H2 & H3). destruct (IH _ H3) as (N1 & N2 & N3).
    repeat split.
    + constructor; [|exact N1]. intros Hin. apply (N3 _ Hin).
      apply in_or_app. right. left. reflexivity.
    + constructor; assumption.
    + intros k [<-|Hk] Hseen.
      * apply has_In in Hseen. congruence.
      * apply (N3 _ Hk). apply in_or_app. left. exact Hseen.
Qed.

(** A job with a truthy key has its key among the kept ones, unless the
    key had been seen before. *)
Lemma firstOccurrences_represents (d : string) (l : list Job)
    (seen : list field) (job : Job) :
  In job l -> truthy (dedupKey d job) = true ->
  In (dedupKey d job) seen
  \/ exists kept, In kept (firstOccurrences d seen l)
                  /\ dedupKey d kept = dedupKey d job.
Proof.
  revert seen; induction l as [|x rest IH]; intros seen; simpl; [tauto|].
  intros [->|Hin] Hk.
  - rewrite Hk. simpl. destruct (has seen (dedupKey d job)) eqn:E.
    + left. apply has_In, E.
    + right. exists job. split; [left|]; reflexivity.
  - destruct (negb (truthy (dedupKey d x)) || has seen (dedupKey d x))%bool.
    + apply IH; assumption.
    + destruct (IH (seen ++ [dedupKey d x]) Hin Hk) as [Hs|(kept & H1 & H2)].
      * apply in_app_or in Hs as [Hs|[Hs|[]]]; [left; exact Hs|].
        right. exists x. split; [left; reflexivity | exact Hs].
      * right. exists kept. split; [right; exact H1 | exact H2].
Qed.

Lemma Subseq_trans {A : Type} (l1 l2 l3 : list A) :
  Subseq l1 l2 -> Subseq l2 l3 -> Subseq l1 l3.
Proof.
  intros H12 H23. revert l1 H12.
  induction H23 as [|x l2 l3 _ IH|x l2 l3 _ IH]; intros l1 H12.
  - exact H12.
  - inversion H12; subst; constructor; auto.
  - constructor. auto.
Qed.

(** The jobs of [processJobs] are cleaned input jobs, in their order. *)
Lemma processJobs_Subseq
    (resolveUrl : jsstring -> jsstring -> option jsstring)
    (jobs : list Job) (options : Options) :
  Subseq (JobProcessor.jobs (processJobs resolveUrl jobs options))
    (cleanJobs resolveUrl (baseUrl options) jobs).
Proof.
  rewrite PipelineClaims.processJobs_jobs. cbv zeta.
  assert (Hd : Subseq (removeDuplicates
                         (cleanJobs resolveUrl (baseUrl options) jobs)
                         (dedupeBy options))
                 (cleanJobs resolveUrl (baseUrl options) jobs)).
  { rewrite removeDuplicates_firstOccurrences. apply firstOccurrences_Subseq. }
  destruct (removeInvalid options); [|exact Hd].
  eapply Subseq_trans; [apply Subseq_filter | exact Hd].
Qed.

(** They have fresh keys. *)
Lemma processJobs_fresh
    (resolveUrl : jsstring -> jsstring -> option jsstring)
    (jobs : list Job) (options : Options) :
  fresh (dedupeBy options) []
    (JobProcessor.jobs (processJobs resolveUrl jobs options)).
Proof.
  rewrite PipelineClaims.processJobs_jobs. cbv zeta.
  assert (Hd : fresh (dedupeBy options) []
                 (removeDuplicates
                    (cleanJobs resolveUrl (baseUrl options) jobs)
                    (dedupeBy options))).
  { rewrite removeDuplicates_firstOccurrences. apply fresh_firstOccurrences. }
  destruct (removeInvalid options); [apply fresh_filter|]; exact Hd.
Qed.

End DedupFacts.

Module DedupProperties.
Import Js JobProcessor Shapes Dedup StringFacts JobProcessorFacts.
Import DedupFacts.

(** X5. The jobs [removeDuplicates] returns have truthy keys that are
    pairwise different, for every job list and every choice of
    [dedupeBy]. *)
Theorem removeDuplicates_keys_are_distinct (jobs : list Job) (dedupeBy : string) :
  NoDup (map (dedupKey dedupeBy) (removeDuplicates jobs dedupeBy))
  /\ Forall (fun job => truthy (dedupKey dedupeBy job) = true)
       (removeDuplicates jobs dedupeBy).
Proof.
  rewrite removeDuplicates_firstOccurrences.
  destruct (fresh_NoDup dedupeBy _ [] (fresh_firstOccurrences dedupeBy [] jobs))
    as (H1 & H2 & _).
  split; assumption.
Qed.

(** X6. [removeDuplicates] is idempotent: run on its own output with the
    same [dedupeBy], it returns that output unchanged. *)
Theorem removeDuplicates_twice (jobs : list Job) (dedupeBy : string) :
  removeDuplicates (removeDuplicates jobs dedupeBy) dedupeBy
  = removeDuplicates jobs dedupeBy.
Proof.
  rewrite !removeDuplicates_firstOccurrences.
  apply fresh_fixpoint, fresh_firstOccurrences.
Qed.

(** X7. [removeDuplicates] loses no key: every job of the input whose key
    is truthy has a kept job with the same key. *)
Theorem removeDuplicates_keeps_every_key (jobs : list Job) (dedupeBy : string)
    (job : Job) :
  In job jobs -> truthy (dedupKey dedupeBy job) = true ->
  exists kept, In kept (removeDuplicates jobs dedupeBy)
               /\ dedupKey dedupeBy kept = dedupKey dedupeBy job.
Proof.
  intros Hin Hk. rewrite removeDuplicates_firstOccurrences.
  destruct (firstOccurrences_represents dedupeBy jobs [] job Hin Hk)
    as [[]|H]; exact H.
Qed.

Lemma removeDuplicates_keeps_every_key_witness :
  exists kept,
    In kept (removeDuplicates [Sample.withoutId; Sample.plain "a";
                               Sample.plain "a"] "jobId")
    /\ dedupKey "jobId" kept = dedupKey "jobId" (Sample.plain "a").
Proof.
  apply (removeDuplicates_keeps_every_key
           [Sample.withoutId; Sample.plain "a"; Sample.plain "a"] "jobId"
           (Sample.plain "a")).
  - simpl. auto.
  - reflexivity.
Defined.

(** X8. [processJobs] invents and reorders nothing: the jobs it returns
    are cleaned input jobs, in the order of the input; none of them
    carries [rawHtml] or another of the keys that [cleanJob] rebuilds among
    its copied keys. *)
Theorem processJobs_returns_cleaned_subsequence
    (resolveUrl : jsstring -> jsstring -> option jsstring)
    (jobs : list Job) (options : Options) :
  let out := JobProcessor.jobs (processJobs resolveUrl jobs options) in
  Subseq out (cleanJobs resolveUrl (baseUrl options) jobs)
  /\ Forall (fun job =>
               forall key, In key (map fst (extra job)) ->
                           In key cleanedKeys -> False) out.
Proof.
  intros out.
  pose proof (processJobs_Subseq resolveUrl jobs options) as Hsub.
  fold out in Hsub.
  split; [exact Hsub|].
  apply Forall_forall. intros job Hjob key Hkey Hclean.
  apply (Subseq_In _ _ _ Hsub) in Hjob.
  apply in_map_iff in Hjob as (raw & <- & _).
  simpl in Hkey. apply in_map_iff in Hkey as ([k v] & <- & Hkv).
  apply filter_In in Hkv as [_ Hkv]. cbn [fst] in Hkv.
  apply negb_true_iff in Hkv.
  assert (Hin : includes cleanedKeys k = true).
  { unfold includes. apply existsb_exists. exists k. split; [exact Hclean|].
    apply String.eqb_refl. }
  change (includes cleanedKeys k = false) in Hkv. congruence.
Qed.

(** X9. Whatever the input, the jobs [processJobs] returns have truthy,
    pairwise different dedup keys; with [removeInvalid] every one of them
    has a title or a company, and a job URL or a job id; and the list is
    never longer than the input. *)
Theorem processJobs_returns_distinct_valid_jobs
    (resolveUrl : jsstring -> jsstring -> option jsstring)
    (jobs : list Job) (options : Options) :
  let out := JobProcessor.jobs (processJobs resolveUrl jobs options) in
  NoDup (map (dedupKey (dedupeBy options)) out)
  /\ Forall (fun job => truthy (dedupKey (dedupeBy options) job) = true) out
  /\ (removeInvalid options = true ->
      Forall (fun job =>
                (truthy (title job) || truthy (company job)
                 = true)%bool
                /\ (truthy (jobUrl job) || truthy (jobId job) = true)%bool)
        out)
  /\ (List.length out <= List.length jobs)%nat.
Proof.
  intros out.
  pose proof (processJobs_Subseq resolveUrl jobs options) as Hsub.
  pose proof (processJobs_fresh resolveUrl jobs options) as Hfresh.
  fold out in Hsub, Hfresh.
  destruct (fresh_NoDup _ _ _ Hfresh) as (H1 & H2 & _).
  repeat split; try assumption.
  - intros Hinv. apply Forall_forall. intros job Hjob. subst out.
    rewrite PipelineClaims.processJobs_jobs, Hinv in Hjob. cbv zeta in Hjob.
    apply filter_In in Hjob as [_ Hv]. unfold isValidJob in Hv.
    destruct (truthy (title job)), (truthy (company job)),
      (truthy (jobUrl job)), (truthy (jobId job)); simpl in *;
      try discriminate; split; reflexivity.
  - apply Subseq_length in Hsub. unfold cleanJobs in Hsub.
    rewrite length_map in Hsub. exact Hsub.
Qed.

End DedupProperties.

(** ** fetchHtml and fetchMultiple *)

Module HttpFacts.
Import Js Dom Net HttpClient Replies.

Lemma attempt_ok (url : Url) (reply : HttpReply) :
  attempt url reply
  = if ok reply
    then match reply with
         | Response _ data => Returned data
         | Rejected _ _ => Thrown (failure url reply)
         end
    else Thrown (failure url reply).
Proof.
  destruct reply as [status data|code message]; simpl;
    repeat match goal with
           | |- context [if ?b then _ else _] => destruct b
           end; reflexivity.
Qed.

Lemma attempt_Returned (url : Url) (reply : HttpReply) (d : Document) :
  attempt url reply = Returned d
  <-> ok reply = true /\ exists status, reply = Response status d.
Proof.
  rewrite attempt_ok. destruct reply as [status data|code message]; simpl.
  - destruct ((200 <=? status) && (status <? 300))%Z%bool; split.
    + intros E; injection E as ->. split; [reflexivity | eauto].
    + intros [_ (s & E)]. injection E as _ ->. reflexivity.
    + discriminate.
    + intros [E _]; discriminate.
  - split; [discriminate | intros [E _]; discriminate].
Qed.

Lemma attempt_Thrown (url : Url) (reply : HttpReply) (e : Message) :
  attempt url reply = Thrown e <-> ok reply = false /\ e = failure url reply.
Proof.
  rewrite attempt_ok. destruct reply as [status data|code message].
  - cbn [ok]. destruct ((200 <=? status) && (status <? 300))%Z%bool; split.
    + discriminate.
    + intros [E _]; discriminate.
    + intros E; injection E as <-. auto.
    + intros [_ ->]. reflexivity.
  - cbn [ok]. split.
    + intros E; injection E as <-. auto.
    + intros [_ ->]. reflexivity.
Qed.

(** The loop of [fetchHtml] from attempt [n] on: it returns the page of the
    first [ok] reply among the next [retries + 1]. *)
Lemma fetchFrom_Returned (url : Url) (replies : nat -> HttpReply)
    (retries n : nat) (d : Document) :
  fetchFrom url replies n retries = Returned d
  <-> exists k, (k <= retries)%nat
                /\ attempt url (replies (n + k)%nat) = Returned d
                /\ forall j, (j < k)%nat -> ok (replies (n + j)%nat) = false.
Proof.
  revert n; induction retries as [|r IH]; intros n; simpl.
  - destruct (attempt url (replies n)) as [data|e] eqn:E; split.
    + intros H. exists 0%nat. rewrite Nat.add_0_r.
      repeat split; [lia | congruence | intros j Hj; lia].
    + intros (k & Hk & Hd & _). assert (k = 0)%nat by lia; subst k.
      rewrite Nat.add_0_r in Hd. congruence.
    + discriminate.
    + intros (k & Hk & Hd & _). assert (k = 0)%nat by lia; subst k.
      rewrite Nat.add_0_r in Hd. congruence.
  - destruct (attempt url (replies n)) as [data|e] eqn:E.
    + split.
      * intros H. exists 0%nat. rewrite Nat.add_0_r.
        repeat split; [lia | congruence | intros j Hj; lia].
      * intros (k & Hk & Hd & Hbefore). destruct k as [|k].
        -- rewrite Nat.add_0_r in Hd. congruence.
        -- specialize (Hbefore 0%nat ltac:(lia)).
           rewrite Nat.add_0_r in Hbefore.
           apply attempt_Returned in E as [E _]. congruence.
    + apply attempt_Thrown in E as [E _]. rewrite IH. split.
      * intros (k & Hk & Hd & Hbefore). exists (S k).
        rewrite Nat.add_succ_r. repeat split; [lia | exact Hd|].
        intros [|j] Hj; [rewrite Nat.add_0_r; exact E|].
        rewrite Nat.add_succ_r. apply Hbefore. lia.
      * intros (k & Hk & Hd & Hbefore). destruct k as [|k].
        -- rewrite Nat.add_0_r in Hd. apply attempt_Returned in Hd as [Hd _].
           congruence.
        -- exists k. rewrite Nat.add_succ_r in Hd.
           repeat split; [lia | exact Hd|].
           intros j Hj. specialize (Hbefore (S j) ltac:(lia)).
           rewrite Nat.add_succ_r in Hbefore. exact Hbefore.
Qed.

(** It throws when none of them is [ok], and then the error of the last. *)
Lemma fetchFrom_Thrown (url : Url) (replies : nat -> HttpReply)
    (retries n : nat) (e : Message) :
  fetchFrom url replies n retries = Thrown e
  <-> (forall j, (j <= retries)%nat -> ok (replies (n + j)%nat) = false)
      /\ e = failure url (replies (n + retries)%nat).
Proof.
  revert n; induction retries as [|r IH]; intros n; simpl.
  - rewrite Nat.add_0_r.
    destruct (attempt url (replies n)) as [data|e'] eqn:E; split.
    + discriminate.
    + intros [H _]. specialize (H 0%nat (Nat.le_refl _)).
      rewrite Nat.add_0_r in H. apply attempt_Returned in E as [E _].
      congruence.
    + intros H; injection H as <-. apply attempt_Thrown in E as [E ->].
      split; [|reflexivity]. intros j Hj. assert (j = 0)%nat by lia; subst j.
      rewrite Nat.add_0_r. exact E.
    + intros [_ ->]. apply attempt_Thrown in E as [_ ->]. reflexivity.
  - destruct (attempt url (replies n)) as [data|e'] eqn:E.
    + split; [discriminate|]. intros [H _].
      specialize (H 0%nat ltac:(lia)). rewrite Nat.add_0_r in H.
      apply attempt_Returned in E as [E _]. congruence.
    + apply attempt_Thrown in E as [E _]. rewrite IH.
      rewrite Nat.add_succ_r. simpl. split; intros [H ->]; (split; [|reflexivity]).
      * intros [|j] Hj; [rewrite Nat.add_0_r; exact E|].
        rewrite Nat.add_succ_r. apply H. lia.
      * intros j Hj. specialize (H (S j) ltac:(lia)).
        rewrite Nat.add_succ_r in H. exact H.
Qed.

Lemma fetchFrom_ext (url : Url) (r1 r2 : nat -> HttpReply) (retries n : nat) :
  (forall j, (j <= retries)%nat -> r1 (n + j)%nat = r2 (n + j)%nat) ->
  fetchFrom url r1 n retries = fetchFrom url r2 n retries.
Proof.
  revert n; induction retries as [|r IH]; intros n H; simpl.
  - pose proof (H 0%nat (Nat.le_refl _)) as H0. rewrite Nat.add_0_r in H0.
    rewrite <- H0. reflexivity.
  - pose proof (H 0%nat ltac:(lia)) as H0. rewrite Nat.add_0_r in H0.
    rewrite <- H0. destruct (attempt url (r1 n)); [reflexivity|].
    apply IH. intros j Hj. specialize (H (S j) ltac:(lia)).
    rewrite Nat.add_succ_r in H. exact H.
Qed.

(** *** fetchMultiple *)

Lemma mapFrom_app {A B : Type} (f : nat -> A -> B) (i : nat) (a b : list A) :
  mapFrom f i (a ++ b) = mapFrom f i a ++ mapFrom f (i + List.length a) b.
Proof.
  revert i; induction a as [|x a IH]; intros i; simpl.
  - rewrite Nat.add_0_r. reflexivity.
  - rewrite IH, Nat.add_succ_r. reflexivity.
Qed.

Lemma mapFrom_shift {A B : Type} (f : nat -> A -> B) (i k : nat) (l : list A) :
  mapFrom (fun j => f (i + j)%nat) k l = mapFrom f (i + k) l.
Proof.
  revert k; induction l as [|x l IH]; intros k; simpl; [reflexivity|].
  rewrite IH, Nat.add_succ_r. reflexivity.
Qed.

(** With a batch size of at least one the loop ends within as many turns
    as there are URLs left, with one entry per URL left, in order. *)
Lemma batches_complete (urls : list Url) (replies : nat -> nat -> HttpReply)
    (maxRetries concurrency : nat) (fuel i : nat) (results : list Fetched) :
  (1 <= concurrency)%nat ->
  (List.length urls - i <= fuel)%nat ->
  batches fuel urls replies maxRetries concurrency i results
  = Some (results
          ++ mapFrom (fun k => fetchOne maxRetries (replies k)) i
               (skipn i urls)).
Proof.
  intros Hc. revert i results; induction fuel as [|fuel IH];
    intros i results Hfuel.
  - simpl. destruct (Nat.ltb_spec i (List.length urls)); [lia|].
    rewrite skipn_all2 by lia. simpl. rewrite app_nil_r. reflexivity.
  - cbn [batches]. destruct (Nat.ltb_spec i (List.length urls)) as [Hi|Hi].
    + rewrite IH by lia. f_equal. rewrite <- app_assoc. f_equal.
      unfold slice. replace (i + concurrency - i)%nat with concurrency by lia.
      rewrite (mapFrom_shift (fun k => fetchOne maxRetries (replies k)) i 0).
      rewrite Nat.add_0_r.
      rewrite <- (firstn_skipn concurrency (skipn i urls)) at 2.
      rewrite mapFrom_app. f_equal.
      rewrite skipn_skipn, (Nat.add_comm concurrency i).
      destruct (Nat.le_gt_cases (List.length (skipn i urls)) concurrency)
        as [Hshort|Hlong].
      * rewrite length_skipn in Hshort.
        rewrite (skipn_all2 urls) by lia. reflexivity.
      * rewrite firstn_length_le by lia. reflexivity.
    + rewrite skipn_all2 by lia. simpl. rewrite app_nil_r. reflexivity.
Qed.

End HttpFacts.

Module HttpProperties.
Import Js Dom Net HttpClient Replies HttpFacts.

(** X10. Allowing more retries never loses a page: when [fetchHtml]
    returns a page with [maxRetries] retries, it returns the same page with
    any larger number of retries, the replies being the same. *)
Theorem fetchHtml_more_retries_keep_the_page (url : Url)
    (replies : nat -> HttpReply) (maxRetries more : nat) (d : Document) :
  fetchHtml url replies maxRetries = Returned d ->
  (maxRetries <= more)%nat ->
  fetchHtml url replies more = Returned d.
Proof.
  unfold fetchHtml. rewrite !fetchFrom_Returned.
  intros (k & Hk & H) Hmore. exists k. split; [lia | exact H].
Qed.

Lemma fetchHtml_more_retries_keep_the_page_witness :
  fetchHtml (IndeedSearch (lit "qa") (lit "Pune") 0)
    (fun n => if (n <=? 0)%nat then Response 429 Stub.nothing
              else Response 200 Stub.listing) 3
  = Returned Stub.listing.
Proof.
  apply (fetchHtml_more_retries_keep_the_page
           (IndeedSearch (lit "qa") (lit "Pune") 0)
           (fun n => if (n <=? 0)%nat then Response 429 Stub.nothing
                     else Response 200 Stub.listing) 1 3 Stub.listing).
  - reflexivity.
  - lia.
Defined.

(** X11. [fetchHtml] returns a page exactly when one of its first
    [maxRetries + 1] requests is answered with a 2xx status, and the page
    is that of the first such answer. *)
Theorem fetchHtml_returns_first_success (url : Url)
    (replies : nat -> HttpReply) (maxRetries : nat) (d : Document) :
  fetchHtml url replies maxRetries = Returned d
  <-> exists n, (n <= maxRetries)%nat
                /\ attempt url (replies n) = Returned d
                /\ forall k, (k < n)%nat -> ok (replies k) = false.
Proof. unfold fetchHtml. rewrite fetchFrom_Returned. reflexivity. Qed.

(** X12. [fetchHtml] throws exactly when none of its [maxRetries + 1]
    requests is answered with a 2xx status, and the error it throws is the
    one of the last request: earlier errors are forgotten. *)
Theorem fetchHtml_throws_last_error (url : Url) (replies : nat -> HttpReply)
    (maxRetries : nat) (e : Message) :
  fetchHtml url replies maxRetries = Thrown e
  <-> (forall k, (k <= maxRetries)%nat -> ok (replies k) = false)
      /\ e = failure url (replies maxRetries).
Proof. unfold fetchHtml. rewrite fetchFrom_Thrown. reflexivity. Qed.

(** X13. [fetchHtml] makes at most [maxRetries + 1] requests: what would
    be answered to later ones has no influence on what it settles to. *)
Theorem fetchHtml_makes_bounded_requests (url : Url)
    (r1 r2 : nat -> HttpReply) (maxRetries : nat) :
  (forall k, (k <= maxRetries)%nat -> r1 k = r2 k) ->
  fetchHtml url r1 maxRetries = fetchHtml url r2 maxRetries.
Proof. intros H. apply fetchFrom_ext. exact H. Qed.

Lemma fetchHtml_makes_bounded_requests_witness :
  fetchHtml (IndeedSearch (lit "qa") (lit "Pune") 0)
    (fun n => if (n <=? 1)%nat then Rejected "ECONNABORTED" "timeout"
              else Response 200 Stub.listing) 1
  = fetchHtml (IndeedSearch (lit "qa") (lit "Pune") 0)
      (fun _ => Rejected "ECONNABORTED" "timeout") 1.
Proof.
  apply (fetchHtml_makes_bounded_requests
           (IndeedSearch (lit "qa") (lit "Pune") 0)
           (fun n => if (n <=? 1)%nat then Rejected "ECONNABORTED" "timeout"
                     else Response 200 Stub.listing)
           (fun _ => Rejected "ECONNABORTED" "timeout") 1).
  intros k Hk. destruct (Nat.leb_spec k 1); [reflexivity | lia].
Defined.

(** X14. With a batch size of at least one, [fetchMultiple] ends, within
    one turn per URL, and resolves to one entry per URL, in the order of
    the URLs: the entry holds what [fetchHtml] settles to for that URL. A
    failing URL does not make it reject. *)
Theorem fetchMultiple_one_entry_per_url (urls : list Url)
    (replies : nat -> nat -> HttpReply) (maxRetries concurrency fuel : nat) :
  (1 <= concurrency)%nat ->
  (List.length urls <= fuel)%nat ->
  fetchMultiple fuel urls replies maxRetries concurrency
  = Some (mapFrom (fun k => fetchOne maxRetries (replies k)) 0 urls).
Proof.
  intros Hc Hfuel. unfold fetchMultiple.
  rewrite batches_complete by (try assumption; lia). reflexivity.
Qed.

Lemma fetchMultiple_one_entry_per_url_witness :
  let urls := [IndeedSearch (lit "qa") (lit "Pune") 0;
               IndeedSearch (lit "qa") (lit "Pune") 10;
               IndeedSearch (lit "qa") (lit "Pune") 20] in
  let replies := fun (k _ : nat) =>
                   if (k =? 1)%nat then Response 404 Stub.nothing
                   else Response 200 Stub.listing in
  fetchMultiple 3 urls replies 0 2
  = Some (mapFrom (fun k => fetchOne 0 (replies k)) 0 urls).
Proof.
  apply (fetchMultiple_one_entry_per_url
           [IndeedSearch (lit "qa") (lit "Pune") 0;
            IndeedSearch (lit "qa") (lit "Pune") 10;
            IndeedSearch (lit "qa") (lit "Pune") 20]
           (fun (k _ : nat) =>
              if (k =? 1)%nat then Response 404 Stub.nothing
              else Response 200 Stub.listing) 0 2 3); simpl; lia.
Defined.

(** X15. With [concurrency: 0] and at least one URL the loop of
    [fetchMultiple] never ends: the index stays at 0, every batch is
    empty, and no number of turns reaches the end. *)
Theorem fetchMultiple_zero_concurrency_never_returns (urls : list Url)
    (replies : nat -> nat -> HttpReply) (maxRetries fuel : nat) :
  urls <> [] ->
  fetchMultiple fuel urls replies maxRetries 0 = None.
Proof.
  intros Hne. unfold fetchMultiple. generalize (@nil Fetched) as results.
  induction fuel as [|fuel IH]; intros results;
    (destruct urls as [|u rest]; [contradiction|]).
  - reflexivity.
  - cbn [batches]. change (0 <? List.length (u :: rest))%nat with true.
    cbn iota. rewrite Nat.add_0_r. apply IH.
Qed.

Lemma fetchMultiple_zero_concurrency_never_returns_witness :
  fetchMultiple 1000 [IndeedSearch (lit "qa") (lit "Pune") 0]
    (fun _ _ => Response 200 Stub.listing) 3 0 = None.
Proof.
  apply (fetchMultiple_zero_concurrency_never_returns
           [IndeedSearch (lit "qa") (lit "Pune") 0]
           (fun _ _ => Response 200 Stub.listing) 3 1000).
  discriminate.
Defined.

End HttpProperties.

(** ** Job ids and company slugs *)

Module UrlFacts.
Import Js Net Scraper IndeedUrlBuilder Slugs.

Lemma encodeURIComponent_unreserved (s : jsstring) :
  forallb unreserved s = true -> encodeURIComponent s = Some s.
Proof.
  induction s as [|c r IH]; simpl; [reflexivity|].
  intros H. apply andb_true_iff in H as [-> H]. rewrite (IH H). reflexivity.
Qed.

Lemma isHex_unreserved (c : N) : isHex c = true -> unreserved c = true.
Proof.
  unfold isHex, unreserved, isDigit, isLower, isUpper.
  rewrite !orb_true_iff, !andb_true_iff, !N.leb_le.
  intros [[H|H]|H].
  - left; left; left. exact H.
  - left; left; right. lia.
  - left; right. lia.
Qed.

Lemma hexRun_all (s rest : jsstring) :
  forallb isHex s = true -> endsHex rest = true ->
  hexRun (s ++ rest) = s.
Proof.
  intros Hs Hr. induction s as [|c r IH]; simpl.
  - destruct rest as [|x xs]; [reflexivity|]. simpl in Hr.
    apply negb_true_iff in Hr. simpl. rewrite Hr. reflexivity.
  - simpl in Hs. apply andb_true_iff in Hs as [-> Hs]. rewrite (IH Hs).
    reflexivity.
Qed.

Lemma hexRun_split (s : jsstring) :
  exists after, s = hexRun s ++ after /\ endsHex after = true
                /\ forallb isHex (hexRun s) = true.
Proof.
  induction s as [|c r (after & E & H1 & H2)]; simpl.
  - exists []. auto.
  - destruct (isHex c) eqn:Ec.
    + exists after. simpl. rewrite Ec, H2, <- E. auto.
    + exists (c :: r). simpl. rewrite Ec. auto.
Qed.

Lemma searchJk_Some (s id : jsstring) :
  searchJk s = Some id ->
  exists before rest, s = before ++ rest /\ matchJk rest = Some id.
Proof.
  induction s as [|c r IH].
  - simpl. discriminate.
  - cbn [searchJk]. destruct (matchJk (c :: r)) as [found|] eqn:E.
    + intros H; injection H as ->. exists [], (c :: r). auto.
    + intros H. destruct (IH H) as (before & rest & -> & Hm).
      exists (c :: before), rest. auto.
Qed.

(** *** The slug of a company *)

Lemma replaceRuns_singleHyphens (inRun : bool) (s : jsstring) :
  singleHyphens inRun
    (replaceRunsFrom (fun c => negb (isLower c || isDigit c)) 45 inRun s)
  = true.
Proof.
  revert inRun; induction s as [|c r IH]; intros inRun; [reflexivity|].
  cbn [replaceRunsFrom].
  destruct (negb (isLower c || isDigit c)) eqn:Ec.
  - destruct inRun; [apply IH|].
    cbn [singleHyphens]. rewrite N.eqb_refl. apply IH.
  - apply negb_false_iff in Ec.
    assert (E45 : N.eqb c 45 = false).
    { destruct (N.eqb_spec c 45) as [->|]; [discriminate | reflexivity]. }
    cbn [singleHyphens]. rewrite E45, Ec. apply IH.
Qed.

Lemma dropHyphens_singleHyphens (b : bool) (s : jsstring) :
  singleHyphens b s = true -> singleHyphens true (dropHyphens s) = true.
Proof.
  destruct s as [|c r]; [reflexivity|]. cbn [singleHyphens dropHyphens].
  destruct (N.eqb c 45) eqn:E45.
  - intros H. apply andb_true_iff in H as [_ H].
    destruct r as [|d r']; [reflexivity|].
    cbn [dropHyphens]. cbn [singleHyphens] in H.
    destruct (N.eqb d 45) eqn:Ed; [discriminate|].
    cbn [singleHyphens]. rewrite Ed. exact H.
  - intros H. cbn [singleHyphens]. rewrite E45. exact H.
Qed.

Lemma dropEndHyphens_hyphenated (b : bool) (s : jsstring) :
  singleHyphens b s = true ->
  dropEndHyphens s = [] \/ hyphenated b (dropEndHyphens s) = true.
Proof.
  revert b; induction s as [|c r IH]; intros b; [left; reflexivity|].
  cbn [singleHyphens dropEndHyphens].
  destruct (N.eqb c 45) eqn:E45; intros H; apply andb_true_iff in H as [Hb H].
  - destruct (IH _ H) as [E|Hk]; [rewrite E; left; reflexivity|].
    destruct (dropEndHyphens r) as [|x xs]; [left; reflexivity|].
    right. cbn [hyphenated]. rewrite E45, Hb. exact Hk.
  - right. destruct (IH _ H) as [E|Hk].
    + rewrite E. cbn [hyphenated]. rewrite E45, Hb. reflexivity.
    + destruct (dropEndHyphens r) as [|x xs] eqn:Ek;
        cbn [hyphenated]; rewrite E45, Hb; [reflexivity | exact Hk].
Qed.

Lemma companySlug_isSlug (toLowerCase : jsstring -> jsstring)
    (companyName : jsstring) :
  isSlug (companySlug toLowerCase companyName) = true.
Proof.
  unfold companySlug, replaceRuns.
  pose proof (replaceRuns_singleHyphens false (trim (toLowerCase companyName)))
    as H.
  apply dropHyphens_singleHyphens, dropEndHyphens_hyphenated in H.
  destruct H as [->|H]; [reflexivity|].
  unfold isSlug. destruct (dropEndHyphens _); [reflexivity | exact H].
Qed.

Lemma hyphenated_unreserved (b : bool) (s : jsstring) :
  hyphenated b s = true -> forallb unreserved s = true.
Proof.
  revert b; induction s as [|c r IH]; intros b; [reflexivity|].
  cbn [hyphenated forallb]. destruct (N.eqb_spec c 45) as [->|_];
    intros H; apply andb_true_iff in H as [Hc H]; rewrite (IH _ H).
  - reflexivity.
  - unfold unreserved. apply orb_true_iff in Hc as [-> | ->];
      rewrite ?orb_true_r; reflexivity.
Qed.

Lemma isSlug_unreserved (s : jsstring) :
  isSlug s = true -> forallb unreserved s = true.
Proof.
  destruct s as [|c r]; [reflexivity|]. apply hyphenated_unreserved.
Qed.

End UrlFacts.

Module UrlProperties.
Import Js Net Scraper IndeedUrlBuilder Slugs UrlFacts.

(** X16. Round trip: for a job id made of hexadecimal digits,
    [buildJobUrl] returns a URL from which [extractJobId] reads the same
    id back. *)
Theorem extractJobId_reads_back_buildJobUrl (jobId : jsstring) :
  jobId <> [] -> forallb isHex jobId = true ->
  exists url, buildJobUrl (VStr jobId) = Returned url
              /\ extractJobId (VStr url) = Some jobId.
Proof.
  intros Hne Hhex.
  assert (Henc : encodeURIComponent jobId = Some jobId).
  { apply encodeURIComponent_unreserved. rewrite forallb_forall in *.
    intros c Hc. apply isHex_unreserved, Hhex, Hc. }
  exists (lit "https://www.indeed.com/viewjob?jk=" ++ jobId). split.
  - unfold buildJobUrl. destruct jobId as [|c r]; [contradiction|].
    cbn [notAString valueTruthy isString negb orb]. rewrite Henc. reflexivity.
  - pose proof (hexRun_all jobId [] Hhex eq_refl) as Hrun.
    rewrite app_nil_r in Hrun.
    destruct jobId as [|c r]; [contradiction|].
    vm_compute lit. cbn -[hexRun]. rewrite Hrun. reflexivity.
Qed.

Lemma extractJobId_reads_back_buildJobUrl_witness :
  exists url, buildJobUrl (VStr (lit "3f9A07bc")) = Returned url
              /\ extractJobId (VStr url) = Some (lit "3f9A07bc").
Proof.
  apply (extractJobId_reads_back_buildJobUrl (lit "3f9A07bc"));
    [discriminate | reflexivity].
Defined.

(** X17. What [extractJobId] returns is a non-empty run of hexadecimal
    digits that stands in the URL right after [?jk=] or [&jk=] (in either
    case of the letters) and is followed by no further hexadecimal digit. *)
Theorem extractJobId_returns_hex_after_jk (url : value) (id : jsstring) :
  extractJobId url = Some id ->
  id <> [] /\ forallb isHex id = true
  /\ exists before q j k e after,
       url = VStr (before ++ q :: j :: k :: e :: id ++ after)
       /\ isJkMark q j k e = true /\ endsHex after = true.
Proof.
  unfold extractJobId. destruct (notAString url); [discriminate|].
  destruct url as [| |b|z|s|m e| |n]; try discriminate.
  intros H. apply searchJk_Some in H as (before & rest & -> & Hm).
  destruct rest as [|q [|j [|k [|e tail]]]]; try discriminate.
  cbn [matchJk] in Hm. destruct (isJkMark q j k e) eqn:Emark; [|discriminate].
  destruct (hexRun_split tail) as (after & Etail & Hafter & Hhex).
  destruct (hexRun tail) as [|x xs] eqn:Erun; [discriminate|].
  injection Hm as <-.
  repeat split; [discriminate | exact Hhex|].
  exists before, q, j, k, e, after. rewrite <- Etail. auto.
Qed.

Lemma extractJobId_returns_hex_after_jk_witness :
  lit "ab12" <> [] /\ forallb isHex (lit "ab12") = true
  /\ exists before q j k e after,
       VStr (lit "https://in.indeed.com/rc/clk?from=serp&JK=ab12&vjs=3")
       = VStr (before ++ q :: j :: k :: e :: lit "ab12" ++ after)
       /\ isJkMark q j k e = true /\ endsHex after = true.
Proof.
  apply (extractJobId_returns_hex_after_jk
           (VStr (lit "https://in.indeed.com/rc/clk?from=serp&JK=ab12&vjs=3"))).
  vm_compute. reflexivity.
Defined.

(** X18. Whatever the lower-casing of the platform does, the slug of
    [buildIndeedCompanyUrl] is empty or made of lower-case letters, digits
    and single hyphens that stand between two of them; so
    [encodeURIComponent] leaves it as it is, cannot throw, and the URL is
    the company path followed by the slug. *)
Theorem buildIndeedCompanyUrl_appends_slug
    (toLowerCase : jsstring -> jsstring) (companyName : jsstring) :
  companyName <> [] ->
  isSlug (companySlug toLowerCase companyName) = true
  /\ buildIndeedCompanyUrl toLowerCase (VStr companyName)
     = Returned (lit "https://www.indeed.com/cmp/"
                 ++ companySlug toLowerCase companyName).
Proof.
  intros Hne. pose proof (companySlug_isSlug toLowerCase companyName) as Hs.
  split; [exact Hs|].
  unfold buildIndeedCompanyUrl. destruct companyName as [|c r]; [contradiction|].
  cbn [notAString valueTruthy isString negb orb].
  rewrite (encodeURIComponent_unreserved _ (isSlug_unreserved _ Hs)).
  reflexivity.
Qed.

Lemma buildIndeedCompanyUrl_appends_slug_witness :
  isSlug (companySlug asciiLower (lit " Acme & Sons, Inc. ")) = true
  /\ buildIndeedCompanyUrl asciiLower (VStr (lit " Acme & Sons, Inc. "))
     = Returned (lit "https://www.indeed.com/cmp/"
                 ++ companySlug asciiLower (lit " Acme & Sons, Inc. ")).
Proof.
  apply (buildIndeedCompanyUrl_appends_slug asciiLower
           (lit " Acme & Sons, Inc. ")).
  discriminate.
Defined.

Example companySlug_of_acme :
  companySlug asciiLower (lit " Acme & Sons, Inc. ") = lit "acme-sons-inc".
Proof. vm_compute. reflexivity. Qed.

End UrlProperties.

(** ** The pages a run requests *)

Module PagingFacts.
Import Js Dom Net JobProcessor Scraper Observed Paging.

Lemma indeed_url_built (params : Typed.Params) (page : Z) (url : Url) :
  IndeedScraper.buildSearchUrl (Typed.keyword params) (Typed.location params)
    page = Returned url ->
  url = indeedUrl params (page + 1).
Proof.
  unfold IndeedScraper.buildSearchUrl, calculateStartIndex.
  destruct (page + 1 <? 1)%Z; [discriminate|].
  unfold buildIndeedSearchUrl, indeedUrl.
  destruct (Typed.keyword params); [discriminate|].
  destruct (Typed.location params); [discriminate|].
  intros E; injection E as <-. f_equal; lia.
Qed.

(** *** The URLs a loop requests *)

Lemma indeed_pageBody_urls (world : World) (cfg : IndeedScraper.Config)
    (params : Typed.Params) (limit page : Z) (run : IndeedScraper.Run) :
  match IndeedScraper.pageBody world cfg params limit page run with
  | (Escape _, run') => IndeedScraper.urls run' = IndeedScraper.urls run
  | (_, run') =>
      IndeedScraper.urls run'
      = IndeedScraper.urls run ++ [indeedUrl params (page + 1)]
  end.
Proof.
  unfold IndeedScraper.pageBody.
  destruct (IndeedScraper.buildSearchUrl _ _ page) as [url|e] eqn:Eu;
    [|reflexivity].
  apply indeed_url_built in Eu. subst url.
  destruct (IndeedScraper.fetchPage world cfg _ _) as [[html|e] s].
  - destruct (IndeedScraper.parseJobListings cfg html); cbn [andb].
    + destruct (2 <=? _)%Z; reflexivity.
    + reflexivity.
  - destruct (3 <=? _)%Z; reflexivity.
Qed.

Lemma indeed_pages_urls (world : World) (cfg : IndeedScraper.Config)
    (params : Typed.Params) (limit : Z) (remaining : nat) (page : Z)
    (run : IndeedScraper.Run) :
  exists k, (k <= remaining)%nat
    /\ IndeedScraper.urls
         (snd (IndeedScraper.pages world cfg params limit remaining page run))
       = IndeedScraper.urls run ++ pagesFrom (indeedUrl params) (page + 1) k.
Proof.
  revert page run; induction remaining as [|r IH]; intros page run.
  - exists 0%nat. simpl. rewrite app_nil_r. auto.
  - cbn [IndeedScraper.pages].
    pose proof (indeed_pageBody_urls world cfg params limit page run) as Hb.
    destruct (IndeedScraper.pageBody world cfg params limit page run)
      as [[| |e] run1].
    + destruct (IH (page + 1)%Z run1) as (k & Hk & E).
      exists (S k). split; [lia|]. rewrite E, Hb, <- app_assoc. reflexivity.
    + exists 1%nat. split; [lia|]. exact Hb.
    + exists 0%nat. split; [lia|]. simpl. rewrite app_nil_r. exact Hb.
Qed.

Lemma pwIndeed_pageBody_urls (world : World) (params : Typed.Params)
    (limit page : Z) (run : PlaywrightIndeedScraper.Run) :
  match PlaywrightIndeedScraper.pageBody world params limit page run with
  | (Next, run') | (Break, run') =>
      PlaywrightIndeedScraper.urls run'
      = PlaywrightIndeedScraper.urls run ++ [indeedUrl params (page + 1)]
  | (Escape _, run') =>
      PlaywrightIndeedScraper.urls run' = PlaywrightIndeedScraper.urls run
      \/ PlaywrightIndeedScraper.urls run'
         = PlaywrightIndeedScraper.urls run ++ [indeedUrl params (page + 1)]
  end.
Proof.
  unfold PlaywrightIndeedScraper.pageBody.
  pose proof (indeed_url_built params page) as Hu.
  unfold IndeedScraper.buildSearchUrl in Hu.
  destruct (match calculateStartIndex (page + 1) with
            | Returned start => _
            | Thrown error => _
            end) as [url|e]; [|left; reflexivity].
  rewrite <- (Hu url eq_refl).
  destruct (PlaywrightIndeedScraper.navigateToUrl world url _) as [[e|] i];
    [right; reflexivity|].
  destruct (negb (waitForSelector world url)); [reflexivity|].
  destruct (PlaywrightIndeedScraper.extractJobListings world url i)
    as [[jobs|e] i']; [reflexivity | right; reflexivity].
Qed.

Lemma pwIndeed_pages_urls (world : World) (params : Typed.Params)
    (limit : Z) (remaining : nat) (page : Z)
    (run : PlaywrightIndeedScraper.Run) :
  exists k, (k <= remaining)%nat
    /\ PlaywrightIndeedScraper.urls
         (snd (PlaywrightIndeedScraper.pages world params limit remaining
                 page run))
       = PlaywrightIndeedScraper.urls run
         ++ pagesFrom (indeedUrl params) (page + 1) k.
Proof.
  revert page run; induction remaining as [|r IH]; intros page run.
  - exists 0%nat. simpl. rewrite app_nil_r. auto.
  - cbn [PlaywrightIndeedScraper.pages].
    pose proof (pwIndeed_pageBody_urls world params limit page run) as Hb.
    destruct (PlaywrightIndeedScraper.pageBody world params limit page run)
      as [[| |e] run1].
    + destruct (IH (page + 1)%Z run1) as (k & Hk & E).
      exists (S k). split; [lia|]. rewrite E, Hb, <- app_assoc. reflexivity.
    + exists 1%nat. split; [lia|]. exact Hb.
    + destruct Hb as [Hb|Hb].
      * exists 0%nat. split; [lia|]. simpl. rewrite app_nil_r. exact Hb.
      * exists 1%nat. split; [lia|]. exact Hb.
Qed.

Lemma naukri_pageBody_urls (world : World) (cfg : NaukriScraper.Config)
    (params : Typed.Params) (limit page : Z) (run : NaukriScraper.Run) :
  NaukriScraper.urls
    (snd (NaukriScraper.pageBody world cfg params limit page run))
  = NaukriScraper.urls run
    ++ [naukriUrl (NaukriScraper.baseUrl cfg) params page].
Proof.
  unfold NaukriScraper.pageBody.
  destruct (NaukriScraper.fetchPage world cfg _ _) as [[html|e] s];
    reflexivity.
Qed.

Lemma naukri_pages_urls (world : World) (cfg : NaukriScraper.Config)
    (params : Typed.Params) (limit : Z) (remaining : nat) (page : Z)
    (run : NaukriScraper.Run) :
  exists k, (k <= remaining)%nat
    /\ NaukriScraper.urls
         (snd (NaukriScraper.pages world cfg params limit remaining page run))
       = NaukriScraper.urls run
         ++ pagesFrom (naukriUrl (NaukriScraper.baseUrl cfg) params) page k.
Proof.
  revert page run; induction remaining as [|r IH]; intros page run.
  - exists 0%nat. simpl. rewrite app_nil_r. auto.
  - cbn [NaukriScraper.pages].
    pose proof (naukri_pageBody_urls world cfg params limit page run) as Hb.
    destruct (NaukriScraper.pageBody world cfg params limit page run)
      as [[| |e] run1]; cbn [snd] in Hb.
    + destruct (IH (page + 1)%Z run1) as (k & Hk & E).
      exists (S k). split; [lia|]. rewrite E, Hb, <- app_assoc. reflexivity.
    + exists 1%nat. split; [lia|]. exact Hb.
    + exists 1%nat. split; [lia|]. exact Hb.
Qed.

Lemma pwNaukri_pageBody_urls (world : World)
    (cfg : PlaywrightNaukriScraper.Config) (params : Typed.Params)
    (limit page : Z) (run : PlaywrightNaukriScraper.Run) :
  PlaywrightNaukriScraper.urls
    (snd (PlaywrightNaukriScraper.pageBody world cfg params limit page run))
  = PlaywrightNaukriScraper.urls run
    ++ [naukriUrl (PlaywrightNaukriScraper.baseUrl cfg) params page].
Proof.
  unfold PlaywrightNaukriScraper.pageBody.
  destruct (PlaywrightNaukriScraper.navigateToPage world _ _) as [[e|] i];
    reflexivity.
Qed.

Lemma pwNaukri_pages_urls (world : World)
    (cfg : PlaywrightNaukriScraper.Config) (params : Typed.Params)
    (limit : Z) (remaining : nat) (page : Z)
    (run : PlaywrightNaukriScraper.Run) :
  exists k, (k <= remaining)%nat
    /\ PlaywrightNaukriScraper.urls
         (snd (PlaywrightNaukriScraper.pages world cfg params limit remaining
                 page run))
       = PlaywrightNaukriScraper.urls run
         ++ pagesFrom (naukriUrl (PlaywrightNaukriScraper.baseUrl cfg) params)
              page k.
Proof.
  revert page run; induction remaining as [|r IH]; intros page run.
  - exists 0%nat. simpl. rewrite app_nil_r. auto.
  - cbn [PlaywrightNaukriScraper.pages].
    pose proof (pwNaukri_pageBody_urls world cfg params limit page run) as Hb.
    destruct (PlaywrightNaukriScraper.pageBody world cfg params limit page run)
      as [[| |e] run1]; cbn [snd] in Hb.
    + destruct (IH (page + 1)%Z run1) as (k & Hk & E).
      exists (S k). split; [lia|]. rewrite E, Hb, <- app_assoc. reflexivity.
    + exists 1%nat. split; [lia|]. exact Hb.
    + exists 1%nat. split; [lia|]. exact Hb.
Qed.

End PagingFacts.

Module PagingProperties.
Import Js Dom Net JobProcessor Scraper Observed Paging PagingFacts.

(** X19. Whatever the site answers, the page loop of every adapter asks
    for its search pages in order: the URLs that a run hands to [fetchPage]
    (HTTP mode) or to [page.goto] (browser mode), one for each turn of the
    loop, are those of pages 1, 2, ..., k; no turn asks for a page again
    and none skips one. For a whole number of pages [maxPages] (or its
    default), k does not exceed it. What [fetchHtml] retries inside one
    call of [fetchPage] is not counted here. *)
Theorem scrape_requests_pages_in_order (world : World)
    (scraper : ScrapeJobRunner.Adapter) (params : Typed.Params) :
  exists k, (k <= Z.to_nat (pageLimit scraper params))%nat
    /\ requested (ScrapeJobRunner.scrape world scraper params)
       = pagesFrom (pageUrl scraper params) 1 k.
Proof.
  destruct scraper as [cfg|base|cfg|cfg];
    unfold ScrapeJobRunner.scrape, pageLimit, pageUrl.
  - unfold IndeedScraper.scrape.
    set (limit := match Typed.maxPages params with Some n => n | None => 5%Z end).
    destruct (indeed_pages_urls world cfg params limit (Z.to_nat limit) 0
                (IndeedScraper.mkRun newStats [] 0 [] []))
      as (k & Hk & E).
    exists k. split; [exact Hk|].
    destruct (IndeedScraper.pages world cfg params limit _ 0 _) as [[e|] run];
      exact E.
  - unfold PlaywrightIndeedScraper.scrape.
    set (limit := match Typed.maxPages params with Some n => n | None => 1%Z end).
    destruct (initialize world newInstance) as [[e|] i].
    + exists 0%nat. split; [lia | reflexivity].
    + destruct (pwIndeed_pages_urls world params limit (Z.to_nat limit) 0
                  (PlaywrightIndeedScraper.mkRun i [] [] []))
        as (k & Hk & E).
      exists k. split; [exact Hk|].
      destruct (PlaywrightIndeedScraper.pages world params limit _ 0 _)
        as [escaped run]. exact E.
  - unfold NaukriScraper.scrape.
    set (limit := match Typed.maxPages params with Some n => n | None => 5%Z end).
    destruct (naukri_pages_urls world cfg params limit (Z.to_nat limit) 1
                (NaukriScraper.mkRun newStats [] [] []))
      as (k & Hk & E).
    exists k. split; [exact Hk|].
    destruct (NaukriScraper.pages world cfg params limit _ 1 _) as [[e|] run];
      exact E.
  - unfold PlaywrightNaukriScraper.scrape.
    set (limit := match Typed.maxPages params with Some n => n | None => 5%Z end).
    destruct (initialize world newInstance) as [[e|] i].
    + exists 0%nat. split; [lia | reflexivity].
    + destruct (pwNaukri_pages_urls world cfg params limit (Z.to_nat limit) 1
                  (PlaywrightNaukriScraper.mkRun i [] [] []))
        as (k & Hk & E).
      exists k. split; [exact Hk|].
      destruct (PlaywrightNaukriScraper.pages world cfg params limit _ 1 _)
        as [escaped run]. exact E.
Qed.

End PagingProperties.

(** ** The statistics of a run *)

Module TallyFacts.
Import Js Dom Net JobProcessor Scraper Observed Paging.

Lemma moved_refl (s : Stats) : moved 0 0 0 0 s s.
Proof. unfold moved. repeat split; lia. Qed.

Lemma count_app (a b : list ErrorRecord) :
  count (a ++ b) = (count a + count b)%Z.
Proof. unfold count. rewrite length_app. lia. Qed.

Lemma fetch_succeeded (s : Stats) :
  moved 1 0 0 0 s (requestSucceeded (requestMade s)).
Proof. unfold moved. cbn. repeat split; lia. Qed.

Lemma len_app (a b : list Job) : len (a ++ b) = (len a + len b)%Z.
Proof. unfold len. rewrite length_app. lia. Qed.

Lemma length_snoc (urls : list Url) (url : Url) :
  Z.of_nat (List.length (urls ++ [url]))
  = (Z.of_nat (List.length urls) + 1)%Z.
Proof. rewrite length_app. simpl. lia. Qed.

(** *** IndeedScraper *)

Lemma indeed_pageBody_moved (world : World) (cfg : IndeedScraper.Config)
    (params : Typed.Params) (limit page : Z) (run : IndeedScraper.Run) :
  let '(control, run') :=
    IndeedScraper.pageBody world cfg params limit page run in
  exists made failed,
    moved made failed (2 * failed) 0
      (IndeedScraper.runStats run) (IndeedScraper.runStats run')
    /\ Z.of_nat (List.length (IndeedScraper.urls run'))
       = (Z.of_nat (List.length (IndeedScraper.urls run)) + made)%Z.
Proof.
  unfold IndeedScraper.pageBody.
  destruct (IndeedScraper.buildSearchUrl _ _ page) as [url|e].
  2:{ exists 0%Z, 0%Z. split; [apply moved_refl | lia]. }
  unfold IndeedScraper.fetchPage.
  destruct (fetchHtml url _ _) as [html|e].
  - assert (H : exists made failed,
               moved made failed (2 * failed) 0 (IndeedScraper.runStats run)
                 (requestSucceeded (requestMade (IndeedScraper.runStats run)))
               /\ Z.of_nat (List.length (IndeedScraper.urls run ++ [url]))
                  = (Z.of_nat (List.length (IndeedScraper.urls run)) + made)%Z).
    { exists 1%Z, 0%Z. split; [apply fetch_succeeded | apply length_snoc]. }
    destruct (IndeedScraper.parseJobListings cfg html); cbn [andb].
    + destruct (2 <=? _)%Z; exact H.
    + exact H.
  - assert (H : exists made failed,
               moved made failed (2 * failed) 0 (IndeedScraper.runStats run)
                 (pushError
                    {| errUrl := None; errPage := Some (page + 1)%Z;
                       errMessage := e |}
                    (requestFailed url e
                       (requestMade (IndeedScraper.runStats run))))
               /\ Z.of_nat (List.length (IndeedScraper.urls run ++ [url]))
                  = (Z.of_nat (List.length (IndeedScraper.urls run)) + made)%Z).
    { exists 1%Z, 1%Z. split; [|apply length_snoc].
      unfold moved. cbn. rewrite !count_app. cbn. repeat split; lia. }
    exact H.
Qed.

Lemma indeed_pages_moved (world : World) (cfg : IndeedScraper.Config)
    (params : Typed.Params) (limit : Z) (remaining : nat) (page : Z)
    (run : IndeedScraper.Run) :
  exists made failed,
    moved made failed (2 * failed) 0 (IndeedScraper.runStats run)
      (IndeedScraper.runStats
         (snd (IndeedScraper.pages world cfg params limit remaining page run)))
    /\ Z.of_nat
         (List.length
            (IndeedScraper.urls
               (snd (IndeedScraper.pages world cfg params limit remaining
                       page run))))
       = (Z.of_nat (List.length (IndeedScraper.urls run)) + made)%Z.
Proof.
  revert page run; induction remaining as [|r IH]; intros page run.
  - exists 0%Z, 0%Z. split; [apply moved_refl | simpl; lia].
  - cbn [IndeedScraper.pages].
    pose proof (indeed_pageBody_moved world cfg params limit page run) as Hb.
    destruct (IndeedScraper.pageBody world cfg params limit page run)
      as [[| |e] run1]; destruct Hb as (m1 & f1 & H1 & L1);
      try (exists m1, f1; split; assumption).
    destruct (IH (page + 1)%Z run1) as (m2 & f2 & H2 & L2).
    exists (m1 + m2)%Z, (f1 + f2)%Z. split; [|lia].
    unfold moved in *. repeat split; lia.
Qed.

(** *** NaukriScraper *)

Lemma naukri_pageBody_moved (world : World) (cfg : NaukriScraper.Config)
    (params : Typed.Params) (limit page : Z) (run : NaukriScraper.Run) :
  let run' := snd (NaukriScraper.pageBody world cfg params limit page run) in
  exists failed,
    moved 1 failed failed
      (len (NaukriScraper.allJobs run') - len (NaukriScraper.allJobs run))
      (NaukriScraper.runStats run) (NaukriScraper.runStats run')
    /\ List.length (NaukriScraper.urls run')
       = S (List.length (NaukriScraper.urls run)).
Proof.
  unfold NaukriScraper.pageBody, NaukriScraper.fetchPage.
  destruct (fetchHtml _ _ _) as [html|e]; cbn [snd].
  - exists 0%Z. split.
    + unfold moved. cbn. rewrite len_app. repeat split; lia.
    + cbn. rewrite length_app. simpl. lia.
  - exists 1%Z. split.
    + unfold moved. cbn. rewrite count_app. cbn. repeat split; lia.
    + cbn. rewrite length_app. simpl. lia.
Qed.

Lemma naukri_pages_moved (world : World) (cfg : NaukriScraper.Config)
    (params : Typed.Params) (limit : Z) (remaining : nat) (page : Z)
    (run : NaukriScraper.Run) :
  let run' :=
    snd (NaukriScraper.pages world cfg params limit remaining page run) in
  exists made failed,
    moved made failed failed
      (len (NaukriScraper.allJobs run') - len (NaukriScraper.allJobs run))
      (NaukriScraper.runStats run) (NaukriScraper.runStats run')
    /\ Z.of_nat (List.length (NaukriScraper.urls run'))
       = (Z.of_nat (List.length (NaukriScraper.urls run)) + made)%Z.
Proof.
  revert page run; induction remaining as [|r IH]; intros page run; cbn zeta.
  - exists 0%Z, 0%Z. cbn. rewrite Z.sub_diag. split; [apply moved_refl | lia].
  - cbn [NaukriScraper.pages].
    pose proof (naukri_pageBody_moved world cfg params limit page run) as Hb.
    cbn zeta in Hb.
    destruct (NaukriScraper.pageBody world cfg params limit page run)
      as [[| |e] run1]; cbn [snd] in *; destruct Hb as (f1 & H1 & L1);
      try (exists 1%Z, f1; split; [assumption | lia]).
    specialize (IH (page + 1)%Z run1). cbn zeta in IH.
    destruct IH as (m2 & f2 & H2 & L2).
    exists (1 + m2)%Z, (f1 + f2)%Z. split; [|lia].
    unfold moved in *. repeat split; lia.
Qed.

End TallyFacts.

Module TallyProperties.
Import Js Dom Net JobProcessor Scraper Observed Paging TallyFacts.

(** X20. The statistics of IndeedScraper after [scrape], whatever the site
    answers (a 2xx reply carrying an HTML document, on which [parseHtml]
    does not throw) and whatever the statistics were before:
    [requestsMade] has grown by the number of URLs requested and
    [failedRequests] by at most that; every failed request has left two
    error records (one written by [fetchPage], one by the loop), and a run
    that throws one more; [leadsExtracted] is never touched; and when the
    run returns, [successfulRequests] is [requestsMade - failedRequests]. *)
Theorem indeed_scrape_statistics (world : World) (cfg : IndeedScraper.Config)
    (params : Typed.Params) (s : Stats) :
  let done := IndeedScraper.scrape world cfg params s in
  let after := statsAfter done in
  let made := Z.of_nat (List.length (requested done)) in
  let failed := (failedRequests after - failedRequests s)%Z in
  (0 <= failed <= made)%Z
  /\ requestsMade after = (requestsMade s + made)%Z
  /\ count (errors after)
     = (count (errors s) + 2 * failed
        + match outcome done with Thrown _ => 1 | Returned _ => 0 end)%Z
  /\ leadsExtracted after = leadsExtracted s
  /\ match outcome done with
     | Returned _ =>
         successfulRequests after
         = (requestsMade after - failedRequests after)%Z
     | Thrown _ => True
     end.
Proof.
  unfold IndeedScraper.scrape.
  set (limit := match Typed.maxPages params with Some n => n | None => 5%Z end).
  destruct (indeed_pages_moved world cfg params limit (Z.to_nat limit) 0
              (IndeedScraper.mkRun s [] 0 [] []))
    as (made & failed & (H0 & H1 & H2 & H3 & H4 & H5) & L).
  destruct (IndeedScraper.pages world cfg params limit _ 0 _) as [[e|] run];
    cbn -[Z.mul] in *; rewrite ?count_app; cbn -[Z.mul]; repeat split; lia.
Qed.

(** X21. Given a keyword and a location that are strings, NaukriScraper
    never rejects, and its statistics after [scrape] add up, whatever the
    site answers and whatever the statistics were before: [requestsMade] has grown by the number of URLs requested, each
    request was counted either as successful or as failed, every failed
    one has left exactly one error record, and [leadsExtracted] has grown
    by the number of raw jobs handed to [processJobs] (the [original] of
    its statistics). *)
Theorem naukri_scrape_statistics (world : World) (cfg : NaukriScraper.Config)
    (params : Typed.Params) (s : Stats) :
  let done := NaukriScraper.scrape world cfg params s in
  let after := statsAfter done in
  let made := Z.of_nat (List.length (requested done)) in
  let failed := (failedRequests after - failedRequests s)%Z in
  exists result,
    outcome done = Returned (ProcessObject result)
    /\ (0 <= failed <= made)%Z
    /\ requestsMade after = (requestsMade s + made)%Z
    /\ successfulRequests after = (successfulRequests s + (made - failed))%Z
    /\ count (errors after) = (count (errors s) + failed)%Z
    /\ leadsExtracted after
       = (leadsExtracted s + original (JobProcessor.stats result))%Z.
Proof.
  unfold NaukriScraper.scrape.
  set (limit := match Typed.maxPages params with Some n => n | None => 5%Z end).
  pose proof (naukri_pages_moved world cfg params limit (Z.to_nat limit) 1
                (NaukriScraper.mkRun s [] [] [])) as H.
  pose proof (ScrapeClaims.naukri_pages_never_escape world cfg params limit
                (Z.to_nat limit) 1 (NaukriScraper.mkRun s [] [] [])) as Hn.
  cbn zeta in H.
  destruct (NaukriScraper.pages world cfg params limit _ 1 _) as [escaped run].
  cbn [fst] in Hn. subst escaped.
  destruct H as (made & failed & (H0 & H1 & H2 & H3 & H4 & H5) & L).
  eexists. split; [reflexivity|].
  cbn in *. unfold processJobs. cbn. repeat split; lia.
Qed.

End TallyProperties.

(** ** What scrape returns *)

Module RunFacts.
Import Js Dom Net JobProcessor Scraper Observed Paging Dedup.
Import JobProcessorFacts DedupFacts.

Lemma pageTag_setPage (n : Z) (job : Job) :
  pageTag (PlaywrightIndeedScraper.setPage n job) = Some n.
Proof.
  unfold pageTag, PlaywrightIndeedScraper.setPage. cbn [extra].
  rewrite rev_app_distr. reflexivity.
Qed.

Lemma taggedWithPage_more (world : World) (params : Typed.Params)
    (visited visited' : list Url) (jobs : list Job) :
  (forall u, In u visited -> In u visited') ->
  Forall (taggedWithPage world params visited) jobs ->
  Forall (taggedWithPage world params visited') jobs.
Proof.
  intros Hmore. apply Forall_impl. intros job (n & H1 & H2 & H3 & H4).
  exists n. auto.
Qed.

(** A turn of the loop of PlaywrightIndeedScraper forgets no URL, and
    what it collects is read from the page it visits. *)
Lemma pwIndeed_pageBody_tagged (world : World) (params : Typed.Params)
    (limit page : Z) (run : PlaywrightIndeedScraper.Run) :
  (0 <= page)%Z ->
  let run' :=
    snd (PlaywrightIndeedScraper.pageBody world params limit page run) in
  (forall u, In u (PlaywrightIndeedScraper.urls run) ->
             In u (PlaywrightIndeedScraper.urls run'))
  /\ (Forall (taggedWithPage world params (PlaywrightIndeedScraper.urls run))
        (PlaywrightIndeedScraper.allJobs run) ->
      Forall (taggedWithPage world params (PlaywrightIndeedScraper.urls run'))
        (PlaywrightIndeedScraper.allJobs run')).
Proof.
  intros Hp. cbv zeta. unfold PlaywrightIndeedScraper.pageBody.
  pose proof (PagingFacts.indeed_url_built params page) as Hurl.
  unfold IndeedScraper.buildSearchUrl in Hurl.
  destruct (match calculateStartIndex (page + 1) with
            | Returned start => _
            | Thrown error => _
            end) as [url|e]; [|split; auto].
  specialize (Hurl url eq_refl).
  assert (Hmore : forall u, In u (PlaywrightIndeedScraper.urls run) ->
                            In u (PlaywrightIndeedScraper.urls run ++ [url]))
    by (intros u Hu; apply in_or_app; left; exact Hu).
  unfold PlaywrightIndeedScraper.navigateToUrl.
  destruct (goto world url) as [e|] eqn:Eg;
    [split; [exact Hmore | apply taggedWithPage_more, Hmore]|].
  destruct (waitForSelector world url) eqn:Ew; cbn [negb];
    [|split; [exact Hmore | apply taggedWithPage_more, Hmore]].
  unfold PlaywrightIndeedScraper.extractJobListings.
  destruct (evaluate world url) as [document|e] eqn:Ee;
    [|split; [exact Hmore | apply taggedWithPage_more, Hmore]].
  cbn [snd PlaywrightIndeedScraper.urls PlaywrightIndeedScraper.allJobs].
  split; [exact Hmore|]. intros Hrun.
  apply Forall_app. split; [exact (taggedWithPage_more _ _ _ _ _ Hmore Hrun)|].
  apply Forall_forall. intros job Hjob.
  apply in_map_iff in Hjob as (raw & <- & Hraw).
  exists (page + 1)%Z. split; [lia|]. split; [apply pageTag_setPage|]. split.
  - exists raw, (PlaywrightIndeedScraper.extractFrom (now world) document).
    split; [|split; [exact Hraw | reflexivity]].
    unfold pwIndeedYield. rewrite <- Hurl, Eg, Ew, Ee. reflexivity.
  - rewrite <- Hurl. apply in_or_app. right. left. reflexivity.
Qed.

(** So does the loop. *)
Lemma pwIndeed_pages_tagged (world : World) (params : Typed.Params)
    (limit : Z) (remaining : nat) (page : Z)
    (run : PlaywrightIndeedScraper.Run) :
  (0 <= page)%Z ->
  Forall (taggedWithPage world params (PlaywrightIndeedScraper.urls run))
    (PlaywrightIndeedScraper.allJobs run) ->
  let run' :=
    snd (PlaywrightIndeedScraper.pages world params limit remaining page run) in
  Forall (taggedWithPage world params (PlaywrightIndeedScraper.urls run'))
    (PlaywrightIndeedScraper.allJobs run').
Proof.
  cbv zeta.
  revert page run; induction remaining as [|r IH]; intros page run Hp Hrun;
    [exact Hrun|].
  cbn [PlaywrightIndeedScraper.pages].
  destruct (pwIndeed_pageBody_tagged world params limit page run Hp)
    as (_ & Hb). specialize (Hb Hrun).
  destruct (PlaywrightIndeedScraper.pageBody world params limit page run)
    as [[| |e] run1]; cbn [snd] in *; try exact Hb.
  apply IH; [lia | exact Hb].
Qed.

Lemma indeed_first_page_escapes (world : World) (cfg : IndeedScraper.Config)
    (params : Typed.Params) (limit : Z) (k : nat) (run : IndeedScraper.Run) :
  Typed.keyword params = [] \/ Typed.location params = [] ->
  exists e, IndeedScraper.pages world cfg params limit (S k) 0 run
            = (Some e, run).
Proof.
  intros H. cbn [IndeedScraper.pages]. unfold IndeedScraper.pageBody.
  unfold IndeedScraper.buildSearchUrl, calculateStartIndex.
  cbn [Z.add Z.ltb Z.compare Pos.compare Pos.compare_cont].
  unfold buildIndeedSearchUrl.
  destruct (Typed.keyword params) as [|c r]; [eexists; reflexivity|].
  destruct (Typed.location params) as [|c' r']; [eexists; reflexivity|].
  destruct H; discriminate.
Qed.

End RunFacts.

Module RunProperties.
Import Js Dom Net JobProcessor Scraper Observed Paging Dedup.
Import JobProcessorFacts DedupFacts RunFacts.

(** X22. IndeedScraper.scrape rejects in one case only: an empty keyword
    or location with at least one page to fetch; it then rejects before
    any request is made. No answer of the site, no failed fetch and no
    page without cards makes it reject. *)
Theorem indeed_scrape_rejects_only_without_search_terms (world : World)
    (cfg : IndeedScraper.Config) (params : Typed.Params) (s : Stats) :
  let done := IndeedScraper.scrape world cfg params s in
  let limit := match Typed.maxPages params with Some n => n | None => 5%Z end in
  ((exists e, outcome done = Thrown e)
   <-> (1 <= limit)%Z
       /\ (Typed.keyword params = [] \/ Typed.location params = []))
  /\ ((exists e, outcome done = Thrown e) -> requested done = []).
Proof.
  cbv zeta. unfold IndeedScraper.scrape.
  set (limit := match Typed.maxPages params with Some n => n | None => 5%Z end).
  set (start := IndeedScraper.mkRun s [] 0 [] []).
  destruct (Typed.keyword params) as [|c r] eqn:Ek.
  2: destruct (Typed.location params) as [|c' r'] eqn:El.
  3:{ destruct (RunnerClaims.indeed_pages_swallow world cfg params limit
                 (Z.to_nat limit) 0 start) as (run' & added & -> & _);
        try (rewrite ?Ek, ?El; discriminate); try lia.
      cbn. split; [split|]; try (intros (e & He); discriminate).
      intros [_ [H|H]]; discriminate. }
  all: destruct (Z.to_nat limit) as [|k] eqn:En;
    [ cbn; split; [split|]; try (intros (e & He); discriminate);
      intros [Hl _]; lia
    | destruct (indeed_first_page_escapes world cfg params limit k start)
        as (e & ->); [rewrite ?Ek, ?El; auto|];
      cbn; split; [split|]; try reflexivity;
      [intros _; split; [lia | auto] | intros _; eauto] ].
Qed.

(** X23. Every job PlaywrightIndeedScraper.scrape returns carries, as its
    last key, the number of the page it was read from: a job whose key
    [page] is [n] is one of the fragments that page [n] of the search
    yielded, with that key added, and page [n] is one of the pages this
    run requested. *)
Theorem pwIndeed_scrape_tags_jobs_with_their_page (world : World)
    (params : Typed.Params) (i : Instance) :
  let done := fst (PlaywrightIndeedScraper.scrape world params i) in
  match outcome done with
  | Returned (JobArray jobs) =>
      Forall (taggedWithPage world params (requested done)) jobs
  | Returned (ProcessObject _) => False
  | Thrown _ => True
  end.
Proof.
  cbv zeta. unfold PlaywrightIndeedScraper.scrape.
  set (limit := match Typed.maxPages params with Some n => n | None => 1%Z end).
  destruct (initialize world i) as [[e|] i1]; [exact I|].
  set (start := PlaywrightIndeedScraper.mkRun i1 [] [] []).
  pose proof (pwIndeed_pages_tagged world params limit (Z.to_nat limit) 0
                start ltac:(lia) (Forall_nil _)) as H.
  cbv zeta in H.
  destruct (PlaywrightIndeedScraper.pages world params limit _ 0 start)
    as [[e|] run]; [exact I | exact H].
Qed.

(** X24. Whatever the site answers, the jobs IndeedScraper.scrape returns
    have non-empty job ids that are pairwise different, a title or a
    company each, and no [rawHtml] although every parsed card had one. *)
Theorem indeed_scrape_returns_processed_jobs (world : World)
    (cfg : IndeedScraper.Config) (params : Typed.Params) (s : Stats) :
  match outcome (IndeedScraper.scrape world cfg params s) with
  | Returned (JobArray jobs) =>
      NoDup (map jobId jobs)
      /\ Forall (fun job =>
                   truthy (jobId job) = true
                   /\ (truthy (title job) || truthy (company job))%bool = true
                   /\ ~ In "rawHtml"%string (map fst (extra job))) jobs
  | Returned (ProcessObject _) => False
  | Thrown _ => True
  end.
Proof.
  unfold IndeedScraper.scrape.
  destruct (IndeedScraper.pages world cfg params _ _ 0 _) as [[e|] run];
    [exact I|].
  cbn [outcome].
  set (options := {| JobProcessor.baseUrl := IndeedScraper.baseUrl cfg;
                     dedupeBy := "jobId"; removeInvalid := true |}).
  set (raw := IndeedScraper.allJobs run).
  pose proof (processJobs_Subseq (resolveUrl world) raw options) as Hsub.
  pose proof (processJobs_fresh (resolveUrl world) raw options) as Hfresh.
  apply fresh_NoDup in Hfresh as (Hnd & Hkeys & _).
  split; [exact Hnd|].
  apply Forall_forall. intros job Hjob.
  rewrite Forall_forall in Hkeys. repeat split.
  - apply (Hkeys job Hjob).
  - rewrite PipelineClaims.processJobs_jobs in Hjob. cbn in Hjob.
    apply filter_In in Hjob as [_ Hv]. unfold isValidJob in Hv.
    destruct (truthy (title job)), (truthy (company job)); try reflexivity.
    discriminate.
  - intros Hraw. apply (Subseq_In _ _ _ Hsub) in Hjob.
    apply in_map_iff in Hjob as (r & <- & _).
    cbn [extra cleanJob] in Hraw.
    apply in_map_iff in Hraw as ([k v] & Ek & Hkv). cbn in Ek. subst k.
    apply filter_In in Hkv as [_ Hkv]. discriminate.
Qed.

End RunProperties.

(** ** executeJob *)

Module RunnerFacts.
Import Js Dom Net JobProcessor Scraper ScrapeJobRunner Runs.

(** The three ways [executeJob] ends. *)
Lemma executeJob_cases (world : World) (jobConfig : JobConfig) :
  let result := fst (executeJob world jobConfig) in
  let rejected := snd (executeJob world jobConfig) in
  jobName result = name jobConfig
  /\ ((exists scraper found,
          selectScraper (targetUrl jobConfig) (usePlaywright jobConfig)
          = Some scraper
          /\ outcome (scrape world scraper (scrapeParams jobConfig))
             = Returned found
          /\ status result = completed /\ rejected = None
          /\ jobs result = found
          /\ totalJobs (results result) = lengthOf found)
      \/ (exists earlier error,
             status result = failed
             /\ errors (results result) = earlier ++ [caughtRecord error]
             /\ rejected
                = (if continueOnError jobConfig then None else Some error)
             /\ jobs result = JobArray [])).
Proof.
  cbv zeta. unfold executeJob.
  destruct (selectScraper (targetUrl jobConfig) (usePlaywright jobConfig))
    as [scraper|].
  2:{ cbn. split; [reflexivity|]. right. exists []. eexists.
      repeat split. }
  destruct (negb (isValid (validateParams scraper
                             (untyped (scrapeParams jobConfig))))).
  { cbn. split; [reflexivity|]. right. exists []. eexists. repeat split. }
  destruct (outcome (scrape world scraper (scrapeParams jobConfig)))
    as [found|error] eqn:Eo.
  - cbn. split; [reflexivity|]. left. exists scraper, found.
    repeat split. exact Eo.
  - cbn. split; [reflexivity|]. right. eexists. exists error.
    repeat split.
Qed.

Lemma scrape_value (world : World) (scraper : Adapter)
    (params : Typed.Params) (found : ScrapeValue) :
  outcome (scrape world scraper params) = Returned found ->
  if isNaukri scraper
  then exists result, found = ProcessObject result
  else exists listings, found = JobArray listings.
Proof.
  destruct scraper as [cfg|base|cfg|cfg]; cbn [scrape isNaukri].
  - unfold IndeedScraper.scrape.
    destruct (IndeedScraper.pages _ _ _ _ _ _ _) as [[e|] run]; cbn;
      [discriminate|]. intros H; injection H as <-. eauto.
  - unfold PlaywrightIndeedScraper.scrape.
    destruct (initialize world newInstance) as [[e|] i]; cbn; [discriminate|].
    destruct (PlaywrightIndeedScraper.pages _ _ _ _ _ _) as [[e|] run]; cbn;
      [discriminate|]. intros H; injection H as <-. eauto.
  - unfold NaukriScraper.scrape.
    destruct (NaukriScraper.pages _ _ _ _ _ _ _) as [[e|] run]; cbn;
      [discriminate|]. intros H; injection H as <-. eauto.
  - unfold PlaywrightNaukriScraper.scrape.
    destruct (initialize world newInstance) as [[e|] i]; cbn; [discriminate|].
    destruct (PlaywrightNaukriScraper.pages _ _ _ _ _ _ _) as [[e|] run]; cbn;
      [discriminate|]. intros H; injection H as <-. eauto.
Qed.

Lemma keyword_required (scraper : Adapter) (params : Typed.Params) :
  Typed.keyword params = [] ->
  isValid (validateParams scraper (untyped params)) = false.
Proof.
  intros Hk.
  destruct scraper; cbn [validateParams];
    unfold IndeedScraper.validateParams, PlaywrightIndeedScraper.validateParams,
      NaukriScraper.validateParams, PlaywrightNaukriScraper.validateParams,
      requiredStrings, untyped; cbn [Scraper.keyword]; rewrite Hk;
    reflexivity.
Qed.

End RunnerFacts.

Module RunnerProperties.
Import Js Dom Net JobProcessor Scraper ScrapeJobRunner Runs RunnerFacts.

(** X25. [executeJob] never leaves a job pending or running. It ends
    either completed, without rejecting, or failed, with the error it
    caught as the last error record; it rejects exactly when it failed and
    [continueOnError] is not set, and then with that error. The result
    keeps the name of the job. *)
Theorem executeJob_ends_completed_or_failed (world : World)
    (jobConfig : JobConfig) :
  let result := fst (executeJob world jobConfig) in
  let rejected := snd (executeJob world jobConfig) in
  jobName result = name jobConfig
  /\ ((status result = completed /\ rejected = None)
      \/ (status result = failed
          /\ exists earlier error,
               errors (results result) = earlier ++ [caughtRecord error]
               /\ rejected
                  = if continueOnError jobConfig then None else Some error)).
Proof.
  cbv zeta.
  destruct (executeJob_cases world jobConfig) as [Hn [H|H]];
    (split; [exact Hn|]).
  - destruct H as (scraper & found & _ & _ & Hs & Hr & _). left. auto.
  - destruct H as (earlier & error & Hs & He & Hr & _). right.
    split; [exact Hs|]. eauto.
Qed.

(** X26. A job without keywords fails before anything is scraped, with
    every adapter: the result is the initial one marked failed, with one
    error record, no job and no request count, and it is the same in
    every world, since no request is made. *)
Theorem executeJob_without_keyword_fails_before_scraping (world : World)
    (jobConfig : JobConfig) :
  Typed.keyword (scrapeParams jobConfig) = [] ->
  (exists error,
      executeJob world jobConfig
      = ({| jobName := name jobConfig;
            status := failed;
            results := {| totalJobs := Some 0%Z; pagesScraped := 0;
                          errors := [caughtRecord error];
                          requestsMade := None; successfulRequests := None;
                          failedRequests := None |};
            jobs := JobArray [] |},
         if continueOnError jobConfig then None else Some error))
  /\ forall other, executeJob other jobConfig = executeJob world jobConfig.
Proof.
  intros Hk. unfold executeJob.
  destruct (selectScraper (targetUrl jobConfig) (usePlaywright jobConfig))
    as [scraper|].
  - rewrite (keyword_required scraper _ Hk). cbn [negb].
    split; [eexists; reflexivity | reflexivity].
  - split; [eexists; reflexivity | reflexivity].
Qed.

Lemma executeJob_without_keyword_fails_before_scraping_witness :
  (exists error,
      executeJob Stub.forbidden noKeywords
      = ({| jobName := name noKeywords;
            status := failed;
            results := {| totalJobs := Some 0%Z; pagesScraped := 0;
                          errors := [caughtRecord error];
                          requestsMade := None; successfulRequests := None;
                          failedRequests := None |};
            jobs := JobArray [] |},
         if continueOnError noKeywords then None else Some error))
  /\ forall other, executeJob other noKeywords
                   = executeJob Stub.forbidden noKeywords.
Proof.
  apply (executeJob_without_keyword_fails_before_scraping Stub.forbidden
           noKeywords).
  reflexivity.
Defined.

(** X27. What a completed job reports as [totalJobs]: with an Indeed
    adapter [jobs] is the array of jobs and [totalJobs] its length; with a
    Naukri adapter [jobs] is the object of [processJobs] and [totalJobs],
    read from its missing [length], is undefined. *)
Theorem executeJob_total_of_completed_job (world : World)
    (jobConfig : JobConfig) (scraper : Adapter) :
  selectScraper (targetUrl jobConfig) (usePlaywright jobConfig)
  = Some scraper ->
  status (fst (executeJob world jobConfig)) = completed ->
  let result := fst (executeJob world jobConfig) in
  if isNaukri scraper
  then totalJobs (results result) = None
       /\ exists processed, jobs result = ProcessObject processed
  else exists listings,
         jobs result = JobArray listings
         /\ totalJobs (results result) = Some (len listings).
Proof.
  intros Hsel Hstatus. cbv zeta.
  destruct (executeJob_cases world jobConfig) as [_ [H|H]].
  - destruct H as (scraper' & found & Hsel' & Ho & _ & _ & Hj & Ht).
    rewrite Hsel in Hsel'. injection Hsel' as <-.
    apply scrape_value in Ho. rewrite Hj, Ht.
    destruct (isNaukri scraper).
    + destruct Ho as (processed & ->). split; [reflexivity | eauto].
    + destruct Ho as (listings & ->). exists listings. auto.
  - destruct H as (_ & _ & Hs & _). rewrite Hs in Hstatus. discriminate.
Qed.

Lemma executeJob_total_of_completed_job_witness :
  let result := fst (executeJob Stub.firstPageOnly naukriJob) in
  totalJobs (results result) = None
  /\ exists processed, jobs result = ProcessObject processed.
Proof.
  apply (executeJob_total_of_completed_job Stub.firstPageOnly naukriJob
           (Naukri {| NaukriScraper.baseUrl := lit "https://www.naukri.com";
                      NaukriScraper.maxRetries := 3 |}));
    vm_compute; reflexivity.
Defined.

End RunnerProperties.

(** ** executeMultipleJobs and the development endpoint *)

Module BatchFacts.
Import Js Dom Net JobProcessor Scraper ScrapeJobRunner Runs RunnerFacts.
Import MultipleJobs DevController.

Lemma runJobs_acc (worlds : nat -> World) (stopOnError : bool)
    (jobConfigs : list JobConfig) (i : nat) (results : list Entry) :
  runJobs worlds stopOnError i jobConfigs results
  = results ++ runJobs worlds stopOnError i jobConfigs [].
Proof.
  revert i results; induction jobConfigs as [|jobConfig rest IH];
    intros i results; cbn [runJobs].
  - rewrite app_nil_r. reflexivity.
  - destruct (executeJob (worlds i) jobConfig) as [result [error|]];
      cbn [app].
    + destruct stopOnError; [reflexivity|].
      rewrite (IH (S i) (results ++ _)), (IH (S i) [_]), <- app_assoc.
      reflexivity.
    + destruct (isFailed (status result) && stopOnError)%bool; [reflexivity|].
      rewrite (IH (S i) (results ++ _)), (IH (S i) [_]), <- app_assoc.
      reflexivity.
Qed.

(** The entry written for a job: it has the name of the job, and it is
    completed or failed. *)
Lemma entry_of_job (world : World) (jobConfig : JobConfig) :
  let entry :=
    match executeJob world jobConfig with
    | (result, None) => Result result
    | (_, Some error) => Caught (name jobConfig) error
    end in
  entryName entry = name jobConfig
  /\ (entryStatus entry = completed \/ entryStatus entry = failed).
Proof.
  cbv zeta. destruct (executeJob_cases world jobConfig) as [Hn H].
  destruct (executeJob world jobConfig) as [result [error|]]; cbn in *.
  - auto.
  - split; [exact Hn|].
    destruct H as [(_ & _ & _ & _ & Hs & _)|(_ & _ & Hs & _)]; auto.
Qed.

(** One turn of the loop, by the entry it writes. *)
Lemma runJobs_step (worlds : nat -> World) (stopOnError : bool) (i : nat)
    (jobConfig : JobConfig) (rest : list JobConfig) :
  exists entry,
    entryName entry = name jobConfig
    /\ (entryStatus entry = completed \/ entryStatus entry = failed)
    /\ runJobs worlds stopOnError i (jobConfig :: rest) []
       = if (isFailed (entryStatus entry) && stopOnError)%bool then [entry]
         else entry :: runJobs worlds stopOnError (S i) rest [].
Proof.
  pose proof (entry_of_job (worlds i) jobConfig) as H. cbv zeta in H.
  cbn [runJobs].
  destruct (executeJob (worlds i) jobConfig) as [result [error|]];
    destruct H as [Hn Hs]; eexists; (split; [exact Hn|]);
    (split; [exact Hs|]); cbn [app entryStatus isFailed andb].
  - destruct stopOnError; [reflexivity|]. rewrite runJobs_acc. reflexivity.
  - destruct (isFailed (status result) && stopOnError)%bool; [reflexivity|].
    rewrite runJobs_acc. reflexivity.
Qed.

Lemma summary_adds_up (results : list Entry) :
  Forall (fun e => entryStatus e = completed \/ entryStatus e = failed)
    results ->
  (successful results + failedCount results = List.length results)%nat.
Proof.
  unfold successful, failedCount.
  induction 1 as [|e l [He|He] _ IH]; cbn [filter List.length];
    [reflexivity| |]; rewrite He; cbn [isCompleted isFailed List.length]; lia.
Qed.

Lemma selectScraper_naukri (browserMode : bool) :
  exists scraper,
    selectScraper "https://www.naukri.com" browserMode = Some scraper
    /\ isNaukri scraper = true.
Proof. destruct browserMode; eexists; split; reflexivity. Qed.

End BatchFacts.

Module BatchProperties.
Import Js Dom Net JobProcessor Scraper ScrapeJobRunner Runs RunnerFacts.
Import MultipleJobs DevController BatchFacts.

(** X28. Without [stopOnError], [executeMultipleJobs] resolves to one
    entry per job, in the order of the jobs and under their names, also
    when [executeJob] rejects; every entry is completed or failed, so the
    two counts of the summary add up to the number of entries. *)
Theorem executeMultipleJobs_reports_every_job (worlds : nat -> World)
    (jobConfigs : list JobConfig) :
  let results := executeMultipleJobs worlds jobConfigs false in
  map entryName results = map name jobConfigs
  /\ (successful results + failedCount results = List.length results)%nat.
Proof.
  cbv zeta. unfold executeMultipleJobs. generalize 0%nat as i.
  assert (H : forall i,
             map entryName (runJobs worlds false i jobConfigs [])
             = map name jobConfigs
             /\ Forall (fun e => entryStatus e = completed
                                 \/ entryStatus e = failed)
                  (runJobs worlds false i jobConfigs [])).
  { induction jobConfigs as [|jobConfig rest IH]; intros i.
    - split; [reflexivity | constructor].
    - destruct (runJobs_step worlds false i jobConfig rest)
        as (entry & Hn & Hs & ->).
      rewrite andb_false_r. destruct (IH (S i)) as [IH1 IH2].
      split; [cbn; rewrite Hn, IH1; reflexivity | constructor; assumption]. }
  intros i. destruct (H i) as [H1 H2].
  split; [exact H1 | apply summary_adds_up, H2].
Qed.

(** X29. With [stopOnError], [executeMultipleJobs] runs the jobs in order
    up to the first one that fails: the entries stand for a prefix of the
    jobs, all of them completed except possibly the last; either every job
    has its entry, or the last entry is a failed one. *)
Theorem executeMultipleJobs_stops_at_first_failure (worlds : nat -> World)
    (jobConfigs : list JobConfig) :
  let results := executeMultipleJobs worlds jobConfigs true in
  exists finished rest,
    results = finished ++ rest
    /\ Forall (fun e => entryStatus e = completed) finished
    /\ map entryName results
       = map name (firstn (List.length results) jobConfigs)
    /\ (rest = [] /\ List.length results = List.length jobConfigs
        \/ exists e, rest = [e] /\ entryStatus e = failed).
Proof.
  cbv zeta. unfold executeMultipleJobs. generalize 0%nat as i.
  induction jobConfigs as [|jobConfig others IH]; intros i.
  - exists [], []. cbn. repeat split; auto.
  - destruct (runJobs_step worlds true i jobConfig others)
      as (entry & Hn & Hs & ->).
    rewrite andb_true_r. destruct Hs as [Hs|Hs]; rewrite Hs; cbn [isFailed].
    + destruct (IH (S i)) as (finished & rest & E & Hf & Hnames & Hrest).
      exists (entry :: finished), rest. rewrite E.
      repeat split.
      * constructor; assumption.
      * rewrite <- E. cbn. rewrite Hn, Hnames. reflexivity.
      * destruct Hrest as [[-> Hl]|He]; [left | right; exact He].
        split; [reflexivity|]. rewrite <- E. cbn. rewrite Hl. reflexivity.
    + exists [], [entry]. cbn. rewrite Hn.
      repeat split; [constructor|]. right. eauto.
Qed.

(** X30. The handler of the Naukri development endpoint never imports a
    lead, in any world and for any request that passed the authentication
    middleware: it answers 400, or it answers 200 after a job that either
    failed, with no jobs, or completed with the object of [processJobs],
    whose missing [length] fails the test that guards the import. The job
    never makes it call [next(error)], since it is run with
    [continueOnError]. *)
Theorem triggerNaukriScrape_never_imports (jobName : string) (world : World)
    (body : Body) :
  match triggerNaukriScrape jobName world body with
  | BadRequest _ =>
      notAString (keyword body) = true \/ notAString (location body) = true
  | Answered success result imported =>
      imported = false
      /\ (success = true <-> exists processed,
                               jobs result = ProcessObject processed)
  | Forwarded _ => False
  end.
Proof.
  unfold triggerNaukriScrape, trigger.
  destruct (notAString (keyword body)) eqn:Ek; [auto|].
  destruct (notAString (location body)) eqn:El; [auto|].
  apply ValidationClaims.notAString_false in Ek as (kc & ks & ->).
  apply ValidationClaims.notAString_false in El as (lc & ls & ->).
  set (jobConfig := mkJobConfig _ _ _ _ _ _ _).
  destruct (executeJob_cases world jobConfig) as [_ H].
  destruct (selectScraper_naukri (usePlaywright body)) as (naukri & Hsel & Hn).
  destruct (executeJob world jobConfig) as [result rejected]. cbn [fst snd] in H.
  destruct H as [(scraper & found & Hsel' & Ho & Hs & -> & Hj & _)
                |(earlier & error & Hs & _ & -> & Hj)]; cbn [continueOnError jobConfig].
  - change (selectScraper "https://www.naukri.com" (usePlaywright body)
            = Some scraper) in Hsel'.
    rewrite Hsel in Hsel'. injection Hsel' as <-.
    apply scrape_value in Ho. rewrite Hn in Ho. destruct Ho as (processed & ->).
    rewrite Hj, Hs. cbn. split; [reflexivity|]. split; eauto.
  - rewrite Hj, Hs. cbn. split; [reflexivity|].
    split; [discriminate | intros (p & Hp); discriminate].
Qed.

End BatchProperties.
